(** * WorkFlow: the Upwork job-listing parser and its SQLite persistence layer

    A shallow embedding of
      - [src/scripts/upwork_data_parser.py] (selector cascade, regex field
        parsing, [parse_html_file]),
      - [src/data/database_manager.py] ([UpworkDatabase]) and
      - [src/data/database_cleanup.py] ([DatabaseCleaner]),
    together with the fragments of Python, BeautifulSoup, [re] and SQLite
    those files rely on, followed by the properties proved about them. *)

From Stdlib Require Import List ZArith NArith Bool Lia String Ascii.
From Stdlib Require Import Numbers.DecimalString.
From Stdlib Require Import Sorting.Permutation Sorting.Sorted Sorting.Mergesort.
From Stdlib Require Import Structures.Orders Relations.Relation_Definitions.
From Stdlib Require Import Classes.RelationClasses.
Import ListNotations.

Set Implicit Arguments.
Set Warnings "-register-all".

(* ================================================================== *)
(** * Python strings *)
(* ================================================================== *)

(** A Python [str] is a sequence of Unicode code points; the strings
    here are well-formed text (no lone surrogates), which is what reading
    a UTF-8 file gives and what SQLite can store. *)
Module Py.

Definition char := N.
Definition pystr := list char.

(** [u "..."] is the Python literal ['...'] (the literals of the sources
    are ASCII). *)
Definition u (s : string) : pystr :=
  map N_of_ascii (list_ascii_of_string s).

Definition char_eqb (a b : char) : bool := N.eqb a b.

Fixpoint str_eqb (a b : pystr) : bool :=
  match a, b with
  | [], [] => true
  | x :: a', y :: b' => char_eqb x y && str_eqb a' b'
  | _, _ => false
  end.

(** [str.isspace] on one character, which is also what [\s] matches in a
    [str] pattern: U+0009..U+000D, U+001C..U+0020, U+0085, U+00A0, U+1680,
    U+2000..U+200A, U+2028, U+2029, U+202F, U+205F and U+3000. *)
Definition is_space (c : char) : bool :=
  ((9 <=? c) && (c <=? 13) || (28 <=? c) && (c <=? 32)
   || (c =? 133) || (c =? 160) || (c =? 5760)
   || (8192 <=? c) && (c <=? 8202)
   || (c =? 8232) || (c =? 8233) || (c =? 8239) || (c =? 8287)
   || (c =? 12288))%N.

(** [s.lstrip()], [s.rstrip()] and [s.strip()]. *)
Fixpoint lstrip (s : pystr) : pystr :=
  match s with
  | c :: s' => if is_space c then lstrip s' else s
  | [] => []
  end.

Definition rstrip (s : pystr) : pystr := rev (lstrip (rev s)).

Definition strip (s : pystr) : pystr := rstrip (lstrip s).

(** [s.startswith(p)]. *)
Fixpoint startswith (s p : pystr) {struct p} : bool :=
  match p, s with
  | [], _ => true
  | x :: p', y :: s' => char_eqb x y && startswith s' p'
  | _ :: _, [] => false
  end.

(** [p in s] for strings: [p] occurs at some position of [s]. *)
Fixpoint contains (p s : pystr) : bool :=
  startswith s p ||
  match s with
  | [] => false
  | _ :: s' => contains p s'
  end.

(** [s.replace(old, new)] for a non-empty [old]: the occurrences of [old]
    are replaced from left to right, without overlap.  [skip] counts the
    characters of a replaced occurrence that are still to be dropped. *)
Fixpoint replace_from (skip : nat) (old new s : pystr) : pystr :=
  match s with
  | [] => []
  | c :: s' =>
      match skip with
      | S k => replace_from k old new s'
      | O =>
          if startswith s old
          then new ++ replace_from (pred (List.length old)) old new s'
          else c :: replace_from O old new s'
      end
  end.

Definition replace (s old new : pystr) : pystr := replace_from O old new s.

(** The whitespace-separated words of [s] ([s.split()], and [\S+]). *)
Fixpoint words_from (cur : pystr) (s : pystr) : list pystr :=
  match s with
  | [] => match cur with [] => [] | _ => [rev cur] end
  | c :: s' =>
      if is_space c
      then match cur with
           | [] => words_from [] s'
           | _ => rev cur :: words_from [] s'
           end
      else words_from (c :: cur) s'
  end.

Definition words (s : pystr) : list pystr := words_from [] s.

(** [str(n)] for an integer. *)
Definition str_of_Z (z : Z) : pystr :=
  u (NilZero.string_of_int (Z.to_int z)).

(** Lexicographic comparison by code point ([<] on [str]; also the order
    of SQLite's BINARY collation on well-formed text). *)
Fixpoint str_compare (a b : pystr) : comparison :=
  match a, b with
  | [], [] => Eq
  | [], _ :: _ => Lt
  | _ :: _, [] => Gt
  | x :: a', y :: b' =>
      match N.compare x y with
      | Eq => str_compare a' b'
      | c => c
      end
  end.

End Py.

(* ================================================================== *)
(** * Regular expressions *)
(* ================================================================== *)

(** The three patterns of the parser are sequences of literal characters,
    greedy repetitions of a character class, an optional character, and
    capturing groups around one [class+].  [match_here] is [re]'s
    backtracking matcher on such sequences; [search] is [re.search], which
    returns the groups of the leftmost match. *)
Module Re.
Import Py.

Inductive atom : Type :=
| Lit (c : char)                  (* a literal character *)
| Star (cls : char -> bool)       (* [cls*] *)
| Plus (cls : char -> bool)       (* [cls+] *)
| Opt (c : char)                  (* [c?] *)
| Group (cls : char -> bool).     (* [(cls+)] *)

Definition pattern := list atom.

Definition lit (s : string) : pattern := map Lit (u s).

(** Greedy repetition: take one more character of the class when that
    leads to a match, give it back otherwise. *)
Fixpoint greedy {R : Type} (cls : char -> bool)
    (k : pystr -> option R) (s : pystr) : option R :=
  match s with
  | c :: s' =>
      if cls c
      then match greedy cls k s' with
           | Some r => Some r
           | None => k s
           end
      else k s
  | [] => k []
  end.

(** The same, handing the consumed characters to the continuation. *)
Fixpoint greedy_cap {R : Type} (cls : char -> bool)
    (k : pystr -> pystr -> option R) (s : pystr) : option R :=
  match s with
  | c :: s' =>
      if cls c
      then match greedy_cap cls (fun cap rest => k (c :: cap) rest) s' with
           | Some r => Some r
           | None => k [] s
           end
      else k [] s
  | [] => k [] []
  end.

Fixpoint match_here (p : pattern) (s : pystr) {struct p}
    : option (list pystr) :=
  match p with
  | [] => Some []
  | Lit c :: p' =>
      match s with
      | x :: s' => if char_eqb x c then match_here p' s' else None
      | [] => None
      end
  | Star cls :: p' => greedy cls (match_here p') s
  | Plus cls :: p' =>
      match s with
      | x :: s' => if cls x then greedy cls (match_here p') s' else None
      | [] => None
      end
  | Opt c :: p' =>
      match s with
      | x :: s' =>
          if char_eqb x c
          then match match_here p' s' with
               | Some r => Some r
               | None => match_here p' s
               end
          else match_here p' s
      | [] => match_here p' s
      end
  | Group cls :: p' =>
      match s with
      | x :: s' =>
          if cls x
          then greedy_cap cls
                 (fun cap rest =>
                    option_map (cons (x :: cap)) (match_here p' rest)) s'
          else None
      | [] => None
      end
  end.

(** [re.search(p, s)]: the groups of the first position that matches. *)
Fixpoint search (p : pattern) (s : pystr) : option (list pystr) :=
  match match_here p s with
  | Some r => Some r
  | None =>
      match s with
      | [] => None
      | _ :: s' => search p s'
      end
  end.

(** The class [[0-9,.]]. *)
Definition amount_char (c : char) : bool :=
  ((48 <=? c) && (c <=? 57) || (c =? 44) || (c =? 46))%N.

(** [r'Hourly:\s*\$([0-9,.]+)\s*-\s*\$([0-9,.]+)'] *)
Definition hourly_re : pattern :=
  lit "Hourly:" ++ [Star is_space] ++ lit "$" ++ [Group amount_char]
  ++ [Star is_space] ++ lit "-" ++ [Star is_space] ++ lit "$"
  ++ [Group amount_char].

(** [r'Est\. budget:\s*\$([0-9,.]+)'] *)
Definition budget_re : pattern :=
  lit "Est. budget:" ++ [Star is_space] ++ lit "$" ++ [Group amount_char].

End Re.


(* ================================================================== *)
(** * BeautifulSoup documents and CSS selection *)
(* ================================================================== *)

(** The parsed document: text nodes that [get_text] yields
    ([NavigableString], [CData]), string nodes it skips (comments,
    declarations, the contents of script and style elements), and
    elements with their attributes (the value of an attribute is its text;
    attribute and tag names are as the HTML parser normalises them). *)
Module Soup.
Import Py.

Definition attrs := list (pystr * pystr).

Inductive node : Type :=
| Text (s : pystr)
| Hidden (s : pystr)
| Elem (name : pystr) (a : attrs) (children : list node).

(** The name and attributes of an element. *)
Definition head : Type := (pystr * attrs)%type.

(** A [Tag] object: an element of the document together with the chain of
    its ancestors, nearest first.  The [BeautifulSoup] object itself is the
    tag named [[document]] that has no ancestor. *)
Record tag : Type := mkTag {
  ancestors : list head;
  name : pystr;
  attributes : attrs;
  children : list node
}.

Definition soup_of (contents : list node) : tag :=
  mkTag [] (u "[document]") [] contents.

(** [tag.get(key)]: [None] when the attribute is absent. *)
Fixpoint attr_lookup (key : pystr) (a : attrs) : option pystr :=
  match a with
  | [] => None
  | (k, v) :: a' => if str_eqb k key then Some v else attr_lookup key a'
  end.

(** [tag.get(key, default)]. *)
Definition get (t : tag) (key default : pystr) : pystr :=
  match attr_lookup key (attributes t) with
  | Some v => v
  | None => default
  end.

(** An element and the elements below it, in document order. *)
Fixpoint tags_within (anc : list head) (n : node) : list tag :=
  match n with
  | Elem nm a ch =>
      mkTag anc nm a ch :: flat_map (tags_within ((nm, a) :: anc)) ch
  | Text _ | Hidden _ => []
  end.

(** [tag.descendants], restricted to elements. *)
Definition descendants (t : tag) : list tag :=
  flat_map (tags_within ((name t, attributes t) :: ancestors t)) (children t).

(** A compound selector: an optional type selector, class selectors and
    attribute selectors [[name="value"]]. *)
Record compound : Type := mkCompound {
  sel_name : option pystr;
  sel_classes : list pystr;
  sel_attrs : list (pystr * pystr)
}.

(** A complex selector: compound selectors joined by the descendant
    combinator, written in source order (the subject is the last one). *)
Definition selector := list compound.

Definition has_class (cls : pystr) (a : attrs) : bool :=
  match attr_lookup (u "class") a with
  | Some v => existsb (str_eqb cls) (words v)
  | None => false
  end.

Definition has_attr (kv : pystr * pystr) (a : attrs) : bool :=
  match attr_lookup (fst kv) a with
  | Some v => str_eqb v (snd kv)
  | None => false
  end.

Definition matches_compound (c : compound) (h : head) : bool :=
  match sel_name c with
  | Some nm => str_eqb nm (fst h)
  | None => true
  end
  && forallb (fun cls => has_class cls (snd h)) (sel_classes c)
  && forallb (fun kv => has_attr kv (snd h)) (sel_attrs c).

(** The compounds left of the subject, nearest first, each matched by an
    ancestor further out than the previous one. *)
Fixpoint matches_ancestors (cs : list compound) (anc : list head) : bool :=
  match cs with
  | [] => true
  | c :: cs' =>
      (fix find (anc : list head) : bool :=
         match anc with
         | [] => false
         | h :: anc' =>
             if matches_compound c h
             then matches_ancestors cs' anc'
             else find anc'
         end) anc
  end.

Definition matches (sel : selector) (t : tag) : bool :=
  match rev sel with
  | [] => false
  | subject :: outer =>
      matches_compound subject (name t, attributes t)
      && matches_ancestors outer (ancestors t)
  end.

(** [tag.select(sel)] and [tag.select_one(sel)]: the descendants of [tag]
    that match, in document order; ancestors outside [tag] count when the
    selector is matched. *)
Definition select (sel : selector) (t : tag) : list tag :=
  filter (matches sel) (descendants t).

Definition select_one (sel : selector) (t : tag) : option tag :=
  List.hd_error (select sel t).

(** [tag.find(name)]. *)
Definition find (nm : pystr) (t : tag) : option tag :=
  List.hd_error (filter (fun d => str_eqb nm (name d)) (descendants t)).

(** The text nodes below a node, in document order. *)
Fixpoint strings_of (n : node) : list pystr :=
  match n with
  | Text s => [s]
  | Hidden _ => []
  | Elem _ _ ch => flat_map strings_of ch
  end.

(** [tag.get_text(strip=True)]: every text node stripped, the empty ones
    dropped, the rest concatenated. *)
Definition get_text_strip (t : tag) : pystr :=
  List.concat (filter (fun s => negb (str_eqb s []))
            (map strip (flat_map strings_of (children t)))).

(** Selector literals. *)
Definition el (nm : string) : compound := mkCompound (Some (u nm)) [] [].
Definition el_attr (nm k v : string) : compound :=
  mkCompound (Some (u nm)) [] [(u k, u v)].
Definition el_class (nm c : string) : compound :=
  mkCompound (Some (u nm)) [u c] [].
Definition any_attr (k v : string) : compound :=
  mkCompound None [] [(u k, u v)].
Definition any_class (c : string) : compound := mkCompound None [u c] [].

End Soup.

(* ================================================================== *)
(** * Exceptions *)
(* ================================================================== *)

(** A computation that returns a value or raises an exception. *)
Module Exc.

Inductive result (E A : Type) : Type :=
| Ok (a : A)
| Raise (e : E).

Arguments Ok {E A} a.
Arguments Raise {E A} e.

Definition bind {E A B : Type} (m : result E A) (f : A -> result E B)
    : result E B :=
  match m with
  | Ok a => f a
  | Raise e => Raise e
  end.

(** [try: body / except Exception as e: handler(e)]. *)
Definition try_except {E A : Type} (body : result E A)
    (handler : E -> result E A) : result E A :=
  match body with
  | Ok a => Ok a
  | Raise e => handler e
  end.

End Exc.

(* ================================================================== *)
(** * src/scripts/upwork_data_parser.py *)
(* ================================================================== *)

Module Parser.
Import Py Re Soup Exc.

(** The [job_info] dictionary of a job: a key is present when its field
    is [Some]. *)
Record job_info : Type := mkJobInfo {
  ji_type : option pystr;
  ji_hourly_rate_min : option pystr;
  ji_hourly_rate_max : option pystr;
  ji_budget : option pystr;
  ji_experience_level : option pystr;
  ji_duration : option pystr
}.

Definition empty_job_info : job_info :=
  mkJobInfo None None None None None None.

Definition set_type (v : pystr) (i : job_info) : job_info :=
  mkJobInfo (Some v) (ji_hourly_rate_min i) (ji_hourly_rate_max i)
    (ji_budget i) (ji_experience_level i) (ji_duration i).
Definition set_hourly_rate_min (v : pystr) (i : job_info) : job_info :=
  mkJobInfo (ji_type i) (Some v) (ji_hourly_rate_max i)
    (ji_budget i) (ji_experience_level i) (ji_duration i).
Definition set_hourly_rate_max (v : pystr) (i : job_info) : job_info :=
  mkJobInfo (ji_type i) (ji_hourly_rate_min i) (Some v)
    (ji_budget i) (ji_experience_level i) (ji_duration i).
Definition set_budget (v : pystr) (i : job_info) : job_info :=
  mkJobInfo (ji_type i) (ji_hourly_rate_min i) (ji_hourly_rate_max i)
    (Some v) (ji_experience_level i) (ji_duration i).
Definition set_experience_level (v : pystr) (i : job_info) : job_info :=
  mkJobInfo (ji_type i) (ji_hourly_rate_min i) (ji_hourly_rate_max i)
    (ji_budget i) (Some v) (ji_duration i).
Definition set_duration (v : pystr) (i : job_info) : job_info :=
  mkJobInfo (ji_type i) (ji_hourly_rate_min i) (ji_hourly_rate_max i)
    (ji_budget i) (ji_experience_level i) (Some v).

(** [match.group(n)] for [n >= 1]. *)
Definition group (n : nat) (groups : list pystr) : pystr :=
  nth (pred n) groups [].

(** The body of the loop over [job_info_items] (lines 83-110): the effect
    of one item's text on [job_info]. *)
Definition job_info_item (info : job_info) (text : pystr) : job_info :=
  if contains (u "Fixed price") text then
    set_type (u "Fixed price") info
  else if contains (u "Hourly:") text then
    let info := set_type (u "Hourly") info in
    match search hourly_re text with
    | Some rate_match =>
        set_hourly_rate_max (group 2 rate_match)
          (set_hourly_rate_min (group 1 rate_match) info)
    | None => info
    end
  else if contains (u "Est. budget:") text then
    match search budget_re text with
    | Some budget_match => set_budget (group 1 budget_match) info
    | None => info
    end
  else if contains (u "Entry Level") text
          || contains (u "Intermediate") text
          || contains (u "Expert") text then
    if contains (u "Entry Level") text then
      set_experience_level (u "Entry Level") info
    else if contains (u "Intermediate") text then
      set_experience_level (u "Intermediate") info
    else if contains (u "Expert") text then
      set_experience_level (u "Expert") info
    else info
  else if contains (u "Est. time:") text then
    set_duration (strip (replace text (u "Est. time:") [])) info
  else info.

(** The job dictionary built for one job element. *)
Record job_data : Type := mkJobData {
  jd_job_uid : option pystr;
  jd_title : option pystr;
  jd_url : option pystr;
  jd_posted_time : option pystr;
  jd_job_info : job_info;
  jd_description : option pystr;
  jd_skills : list pystr
}.

(** [a] unless it is [None], then [b]: [if not a: a = b]. *)
Definition or_else {A : Type} (a b : option A) : option A :=
  match a with
  | Some _ => a
  | None => b
  end.

(** [xs] unless it is empty, then [ys]. *)
Definition or_if_empty {A : Type} (xs ys : list A) : list A :=
  match xs with
  | [] => ys
  | _ :: _ => xs
  end.

(** Lines 27-33: the job elements of a page. *)
Definition sel_job_tile_article : selector :=
  [el_attr "article" "data-test" "JobTile"].
Definition sel_job_tile_section : selector :=
  [el_attr "section" "data-qa" "job-tile"].
Definition sel_job_tile_any : selector :=
  [any_attr "data-qa" "job-tile"].

Definition job_elements (soup : tag) : list tag :=
  or_if_empty (select sel_job_tile_article soup)
    (or_if_empty (select sel_job_tile_section soup)
       (select sel_job_tile_any soup)).

(** Lines 50-60: the link that carries the title. *)
Definition title_link (job_element : tag) : option tag :=
  or_else
    (select_one [el_class "h2" "job-tile-title";
                 el_attr "a" "data-test" "job-tile-title-link"] job_element)
    (or_else
       (select_one [el "h2"; el_attr "a" "data-qa" "job-title"] job_element)
       (or_else
          (select_one [el "h2"; el "a"] job_element)
          (or_else
             (select_one [el_attr "a" "data-test" "job-tile-title-link"]
                job_element)
             (select_one [el_attr "a" "data-qa" "job-title"] job_element)))).

(** Lines 63-67. *)
Definition job_url (link : tag) : pystr :=
  let href := get link (u "href") [] in
  if negb (str_eqb href []) && negb (startswith href (u "http"))
  then u "https://www.upwork.com" ++ href
  else href.

(** Line 132: the "more" indicators that are no skills. *)
Definition more_indicators : list pystr :=
  [u "+1"; u "+2"; u "+3"; u "+4"; u "+5"].

Definition is_skill (skill_text : pystr) : bool :=
  negb (str_eqb skill_text [])
  && negb (existsb (str_eqb skill_text) more_indicators).

(** Lines 41-134: the dictionary of one job element. *)
Definition parse_job_element (job_element : tag) : job_data :=
  let job_uid := get job_element (u "data-ev-job-uid") [] in
  let link := title_link job_element in
  let posted_time :=
    or_else
      (select_one [el_attr "small" "data-test" "job-pubilshed-date"]
         job_element)
      (select_one [el "small"] job_element) in
  let job_info_items :=
    or_if_empty
      (select [el_attr "ul" "data-test" "JobInfo"; el "li"] job_element)
      (select [el "ul"; el "li"] job_element) in
  let description_elem :=
    or_else
      (select_one [any_attr "data-test" "UpCLineClamp JobDescription";
                   any_class "air3-line-clamp"; el "p"] job_element)
      (or_else
         (select_one [any_class "air3-line-clamp"; el "p"] job_element)
         (select_one [el "p"] job_element)) in
  let skill_elements :=
    or_if_empty
      (select [any_attr "data-test" "TokenClamp JobAttrs";
               any_class "air3-token"; el "span"] job_element)
      (select [any_class "air3-token"; el "span"] job_element) in
  mkJobData
    (if str_eqb job_uid [] then None else Some job_uid)
    (option_map get_text_strip link)
    (option_map job_url link)
    (option_map get_text_strip posted_time)
    (fold_left job_info_item (map get_text_strip job_info_items)
       empty_job_info)
    (option_map get_text_strip description_elem)
    (filter is_skill (map get_text_strip skill_elements)).

(** Line 137: [job_data.get('title')] is truthy. *)
Definition has_title (job : job_data) : bool :=
  match jd_title job with
  | Some t => negb (str_eqb t [])
  | None => false
  end.

(** [parse_upwork_jobs(soup)]: each job element gets a dictionary of its
    own, and is kept when it has a title (what the function prints is
    left out). *)
Definition parse_upwork_jobs (soup : tag) : list job_data :=
  filter has_title (map parse_job_element (job_elements soup)).

(** ** [extract_metadata] and [parse_html_file] *)

(** An exception raised by the host (the file system, the HTML parser);
    [exn_str] is [str(e)]. *)
Record exn : Type := mkExn { exn_str : pystr }.

(** What the functions below take from outside the repository: reading a
    file as UTF-8 text, [BeautifulSoup(html, 'html.parser')],
    [os.path.basename], [datetime.now().isoformat()], and the value of a
    Unicode decimal digit ([\d], [int]). *)
Record host : Type := mkHost {
  read_text : pystr -> result exn pystr;
  html_parser : pystr -> result exn tag;
  basename : pystr -> pystr;
  now_isoformat : pystr;
  decimal_value : char -> option N
}.

Record metadata : Type := mkMetadata {
  md_title : pystr;
  md_url : pystr;
  md_scraped_at : pystr;
  md_total_jobs_found : nat;
  md_jobs_count_text : pystr;
  md_total_jobs_on_page : option N;
  md_source_file : option pystr
}.

(** [soup.find('link', {'rel': 'canonical'})]: [rel] is a multi-valued
    attribute, matched by any of its values. *)
Definition find_canonical (soup : tag) : option tag :=
  List.hd_error
    (filter
       (fun d =>
          str_eqb (u "link") (name d)
          && match attr_lookup (u "rel") (attributes d) with
             | Some v =>
                 existsb (str_eqb (u "canonical")) (words v)
                 || str_eqb v (u "canonical")
             | None => false
             end)
       (descendants soup)).

(** [r'([\d,]+)\s+jobs?\s+found'] *)
Definition jobs_found_re (h : host) : pattern :=
  [Group (fun c => match decimal_value h c with
                   | Some _ => true
                   | None => char_eqb c 44%N
                   end);
   Plus is_space]
  ++ lit "job" ++ [Opt 115%N; Plus is_space] ++ lit "found".

(** [int(s)] on a string of decimal digits; [None] stands for
    [ValueError] (the empty string). *)
Definition int_of_digits (h : host) (s : pystr) : option N :=
  match s with
  | [] => None
  | _ =>
      fold_left
        (fun acc c =>
           match acc, decimal_value h c with
           | Some n, Some d => Some (10 * n + d)%N
           | _, _ => None
           end)
        s (Some 0%N)
  end.

Definition extract_metadata (h : host) (soup : tag) : metadata :=
  let title :=
    match find (u "title") soup with
    | Some t => get_text_strip t
    | None => []
    end in
  let url :=
    match find_canonical soup with
    | Some canonical => get canonical (u "href") []
    | None => []
    end in
  match select_one [any_attr "data-test" "JobsCountQA JobsCount"] soup with
  | Some jobs_count_elem =>
      let count_text := get_text_strip jobs_count_elem in
      mkMetadata title url (now_isoformat h) 0 count_text
        match search (jobs_found_re h) count_text with
        | Some count_match =>
            int_of_digits h (replace (group 1 count_match) (u ",") [])
        | None => None
        end
        None
  | None => mkMetadata title url (now_isoformat h) 0 [] None None
  end.

(** The dictionary [parse_html_file] returns: the keys ['error'] and
    ['source_file'] of the failure case, ['metadata'] and ['jobs'] of the
    success case, and ['parsing_stats'] of both. *)
Record parsing_stats : Type := mkStats {
  html_length : option nat;
  jobs_extracted : option nat;
  parsing_successful : bool
}.

Record parse_result : Type := mkParseResult {
  pr_error : option pystr;
  pr_source_file : option pystr;
  pr_metadata : option metadata;
  pr_jobs : option (list job_data);
  pr_parsing_stats : parsing_stats
}.

(** The [try] block of [parse_html_file] (lines 179-202). *)
Definition parse_html_file_body (h : host) (file_path : pystr)
    : result exn parse_result :=
  bind (read_text h file_path) (fun html_content =>
  bind (html_parser h html_content) (fun soup =>
  let jobs := parse_upwork_jobs soup in
  let metadata := extract_metadata h soup in
  let metadata :=
    mkMetadata (md_title metadata) (md_url metadata)
      (md_scraped_at metadata) (List.length jobs)
      (md_jobs_count_text metadata) (md_total_jobs_on_page metadata)
      (Some (basename h file_path)) in
  Ok (mkParseResult None None (Some metadata) (Some jobs)
        (mkStats (Some (List.length html_content))
           (Some (List.length jobs))
           (Nat.ltb 0 (List.length jobs)))))).

(** [parse_html_file(file_path)] for a path given as a string. *)
Definition parse_html_file (h : host) (file_path : pystr)
    : result exn parse_result :=
  try_except (parse_html_file_body h file_path)
    (fun e =>
       Ok (mkParseResult (Some (exn_str e)) (Some (basename h file_path))
             None None (mkStats None None false))).

End Parser.

(* ================================================================== *)
(** * Python objects read from JSON *)
(* ================================================================== *)

(** The values [json.load] produces, floating-point numbers left out.  A
    [dict] is the list of its items in insertion order (its keys are
    distinct); [json.dumps] writes them in that order. *)
Module PyObj.
Import Py.

Inductive pyval : Type :=
| PNone
| PBool (b : bool)
| PInt (z : Z)
| PStr (s : pystr)
| PList (items : list pyval)
| PDict (items : list (pystr * pyval)).

Fixpoint lookup (key : pystr) (items : list (pystr * pyval))
    : option pyval :=
  match items with
  | [] => None
  | (k, v) :: items' => if str_eqb k key then Some v else lookup key items'
  end.

(** Four lower-case hexadecimal digits: ['{0:04x}'.format(n)]. *)
Definition hex_digit (n : N) : char :=
  (if n <? 10 then 48 + n else 87 + n)%N.

Definition hex4 (n : N) : pystr :=
  [hex_digit (N.land (N.shiftr n 12) 15); hex_digit (N.land (N.shiftr n 8) 15);
   hex_digit (N.land (N.shiftr n 4) 15); hex_digit (N.land n 15)].

(** One character of a JSON string under [ensure_ascii=True]. *)
Definition escape_char (c : char) : pystr :=
  (if c =? 92 then u "\\"
   else if c =? 34 then [92; 34]
   else if c =? 8 then u "\b"
   else if c =? 12 then u "\f"
   else if c =? 10 then u "\n"
   else if c =? 13 then u "\r"
   else if c =? 9 then u "\t"
   else if (32 <=? c) && (c <=? 126) then [c]
   else if c <? 65536 then u "\u" ++ hex4 c
   else
     let n := c - 65536 in
     u "\u" ++ hex4 (N.lor 55296 (N.land (N.shiftr n 10) 1023))
     ++ u "\u" ++ hex4 (N.lor 56320 (N.land n 1023)))%N.

Definition dumps_str (s : pystr) : pystr :=
  [34%N] ++ flat_map escape_char s ++ [34%N].

(** [', '.join(parts)]. *)
Fixpoint join_comma (parts : list pystr) : pystr :=
  match parts with
  | [] => []
  | [p] => p
  | p :: parts' => p ++ u ", " ++ join_comma parts'
  end.

(** [json.dumps(v)] with the default arguments. *)
Fixpoint dumps (v : pyval) : pystr :=
  match v with
  | PNone => u "null"
  | PBool true => u "true"
  | PBool false => u "false"
  | PInt z => str_of_Z z
  | PStr s => dumps_str s
  | PList items => u "[" ++ join_comma (map dumps items) ++ u "]"
  | PDict items =>
      u "{"
      ++ join_comma
           (map (fun kv => dumps_str (fst kv) ++ u ": " ++ dumps (snd kv))
              items)
      ++ u "}"
  end.

End PyObj.

(* ================================================================== *)
(** * SQLite values *)
(* ================================================================== *)

(** The storage classes the tables of this program hold: NULL, INTEGER
    and TEXT (REAL and BLOB values are left out), with SQLite's column
    affinity, three-valued comparisons, sort order and AUTOINCREMENT rule.
    Row ids are unbounded integers here: the table-full error at
    2^63 - 1 is not modelled. *)
Module Sqlite.
Import Py.

Inductive value : Type :=
| Null
| Integer (z : Z)
| Text (s : pystr).

Definition is_null (v : value) : bool :=
  match v with
  | Null => true
  | _ => false
  end.

(** What a column of TEXT affinity stores for a bound value. *)
Definition text_affinity (v : value) : value :=
  match v with
  | Integer z => Text (str_of_Z z)
  | _ => v
  end.

(** [a = b]: [None] is SQL's NULL (unknown). *)
Definition eq (a b : value) : option bool :=
  match a, b with
  | Null, _ | _, Null => None
  | Integer x, Integer y => Some (Z.eqb x y)
  | Text s, Text t => Some (str_eqb s t)
  | _, _ => Some false
  end.

(** A WHERE clause keeps a row when its condition is true. *)
Definition is_true (t : option bool) : bool :=
  match t with
  | Some true => true
  | _ => false
  end.

(** [x IN (set)] and [x NOT IN (set)]. *)
Definition in_set (x : value) (set : list value) : option bool :=
  match set with
  | [] => Some false
  | _ :: _ =>
      match x with
      | Null => None
      | _ =>
          if existsb (fun y => is_true (eq x y)) set then Some true
          else if existsb is_null set then None
          else Some false
      end
  end.

Definition not_in (x : value) (set : list value) : option bool :=
  option_map negb (in_set x set).

(** The order of ORDER BY: NULL, then integers, then text. *)
Definition compare (a b : value) : comparison :=
  match a, b with
  | Null, Null => Eq
  | Null, _ => Lt
  | _, Null => Gt
  | Integer x, Integer y => Z.compare x y
  | Integer _, Text _ => Lt
  | Text _, Integer _ => Gt
  | Text s, Text t => str_compare s t
  end.

Definition leb (a b : value) : bool :=
  match compare a b with
  | Gt => false
  | _ => true
  end.

(** The row id an AUTOINCREMENT table gives to a new row: one more than
    the largest row id of the table (1 when it is empty), and at least one
    more than the table's entry in [sqlite_sequence]. *)
Definition new_rowid (ids : list Z) (seq : Z) : Z :=
  Z.max
    match ids with
    | [] => 1
    | i :: ids' => fold_right Z.max i ids' + 1
    end
    (seq + 1).

End Sqlite.

(* ================================================================== *)
(** * src/data/database_manager.py *)
(* ================================================================== *)

Module Db.
Import Py PyObj Sqlite Exc.

(** ** The tables of [init_database] that the functions below use

    (The tables [proposals], [analytics] and [keywords] are left out:
    nothing below reads or writes them.)  The columns [id] are INTEGER
    PRIMARY KEY AUTOINCREMENT, hence integers. *)

Record scraped_row : Type := mkScraped {
  sd_id : Z;
  sd_scrape_type : value;        (* TEXT NOT NULL *)
  sd_source_url : value;         (* TEXT *)
  sd_scrape_timestamp : value;   (* DATETIME DEFAULT CURRENT_TIMESTAMP *)
  sd_raw_content : value;        (* TEXT NOT NULL *)
  sd_file_path : value;          (* TEXT *)
  sd_status : value;             (* TEXT DEFAULT 'active' *)
  sd_notes : value               (* TEXT *)
}.

Record job_row : Type := mkJob {
  j_id : Z;
  j_scrape_id : value;           (* INTEGER *)
  j_job_uid : value;             (* TEXT UNIQUE *)
  j_job_title : value;           (* TEXT NOT NULL *)
  j_job_url : value;
  j_posted_time : value;
  j_job_type : value;
  j_experience_level : value;
  j_budget : value;
  j_hourly_rate_min : value;
  j_hourly_rate_max : value;
  j_duration : value;
  j_skills : value;
  j_description : value;
  j_parsed_timestamp : value     (* DATETIME DEFAULT CURRENT_TIMESTAMP *)
}.

Record cover_letter_row : Type := mkCoverLetter {
  cl_id : Z;
  cl_job_id : value;             (* INTEGER NOT NULL *)
  cl_ai_provider : value;        (* TEXT NOT NULL *)
  cl_cover_letter_text : value;  (* TEXT NOT NULL *)
  cl_generated_timestamp : value;(* DATETIME DEFAULT CURRENT_TIMESTAMP *)
  cl_status : value;             (* TEXT DEFAULT 'generated' *)
  cl_rating : value;             (* INTEGER *)
  cl_notes : value               (* TEXT *)
}.

(** The database file: the rows of each table in insertion order, and the
    entries of [sqlite_sequence] (0 when a table has none yet).  Foreign
    keys are declared but not enforced: no connection of the program turns
    [PRAGMA foreign_keys] on. *)
Record database : Type := mkDb {
  scraped_data : list scraped_row;
  jobs : list job_row;
  cover_letters : list cover_letter_row;
  seq_scraped_data : Z;
  seq_jobs : Z;
  seq_cover_letters : Z
}.

(** What [init_database] leaves in a new file. *)
Definition empty_database : database := mkDb [] [] [] 0 0 0.

(** The exceptions of this layer, by class. *)
Inductive exn : Type :=
| AttributeError
| TypeError
| OverflowError
| ProgrammingError        (* a parameter of an unsupported type *)
| IntegrityError          (* a constraint failed *)
| FileNotFoundError
| HostError.              (* raised while a file is opened and decoded *)

(** A path of the file system, as [import_from_json_file] sees it. *)
Inductive file : Type :=
| NoFile
| BadFile (e : exn)
| JsonFile (data : pyval).

(** The database with what surrounds it: the readings of
    CURRENT_TIMESTAMP still to come (as text, [YYYY-MM-DD HH:MM:SS]), the
    file system, and [os.path.basename]. *)
Record world : Type := mkWorld {
  w_db : database;
  w_clock : nat -> pystr;
  w_files : pystr -> file;
  w_basename : pystr -> pystr
}.

(** A method of [UpworkDatabase]: it returns or raises, and leaves a
    world behind in both cases (every statement is committed on its own
    connection, so what was committed before an exception stays). *)
Definition M (A : Type) : Type := world -> result exn A * world.

Definition ret {A : Type} (a : A) : M A := fun w => (Ok a, w).

Definition raise {A : Type} (e : exn) : M A := fun w => (Raise e, w).

Definition mbind {A B : Type} (m : M A) (f : A -> M B) : M B :=
  fun w =>
    match m w with
    | (Ok a, w') => f a w'
    | (Raise e, w') => (Raise e, w')
    end.

Notation "x <- c1 ;; c2" := (mbind c1 (fun x => c2))
  (at level 61, c1 at next level, right associativity).

Definition lift {A : Type} (r : result exn A) : M A := fun w => (r, w).

Definition get_db : M database := fun w => (Ok (w_db w), w).

Definition put_db (db : database) : M unit :=
  fun w => (Ok tt, mkWorld db (w_clock w) (w_files w) (w_basename w)).

(** CURRENT_TIMESTAMP: the next reading of the clock. *)
Definition current_timestamp : M value :=
  fun w =>
    (Ok (Text (w_clock w 0)),
     mkWorld (w_db w) (fun n => w_clock w (S n)) (w_files w) (w_basename w)).

(** ** Parameters *)

(** How [sqlite3] binds a Python object to a [?].  A [str] is passed as
    UTF-8: for one that holds a lone surrogate [sqlite3] raises
    UnicodeEncodeError, and such a string is outside this definition.
    The statements about strings that come from a file, a page or a
    directory are made for strings without one ([Storable.encodable]). *)
Definition bind_param (v : pyval) : result exn value :=
  match v with
  | PNone => Ok Null
  | PBool b => Ok (Integer (if b then 1 else 0))
  | PInt z =>
      if ((- 2 ^ 63 <=? z) && (z <? 2 ^ 63))%Z then Ok (Integer z)
      else Raise OverflowError
  | PStr s => Ok (Text s)
  | PList _ | PDict _ => Raise ProgrammingError
  end.

(** An argument annotated [int] is a row id or a rating: an integer of
    SQLite's range, or [None]. *)
Definition sql_int (o : option Z) : value :=
  match o with
  | Some z => Integer z
  | None => Null
  end.

(** An argument annotated [str], with [None] for one that is left out. *)
Definition py_str (o : option pystr) : pyval :=
  match o with
  | Some s => PStr s
  | None => PNone
  end.

(** [d.get(key, default)]; an object that is no [dict] has no [get]. *)
Definition py_get (d : pyval) (key : pystr) (default : pyval)
    : result exn pyval :=
  match d with
  | PDict items =>
      match lookup key items with
      | Some v => Ok v
      | None => Ok default
      end
  | _ => Raise AttributeError
  end.

(** [for x in v]: the elements of a list, the keys of a dict, the
    characters of a string. *)
Definition py_iter (v : pyval) : result exn (list pyval) :=
  match v with
  | PList items => Ok items
  | PDict items => Ok (map (fun kv => PStr (fst kv)) items)
  | PStr s => Ok (map (fun c => PStr [c]) s)
  | PNone | PBool _ | PInt _ => Raise TypeError
  end.

(** ** [add_scraped_data] (lines 177-196) *)

Definition add_scraped_data
    (scrape_type raw_content source_url file_path notes : pyval) : M Z :=
  scrape_type <- lift (bind_param scrape_type) ;;
  source_url <- lift (bind_param source_url) ;;
  raw_content <- lift (bind_param raw_content) ;;
  file_path <- lift (bind_param file_path) ;;
  notes <- lift (bind_param notes) ;;
  now <- current_timestamp ;;
  db <- get_db ;;
  if is_null scrape_type || is_null raw_content then raise IntegrityError
  else
    let id := new_rowid (map sd_id (scraped_data db)) (seq_scraped_data db) in
    let row :=
      mkScraped id (text_affinity scrape_type) (text_affinity source_url)
        now (text_affinity raw_content) (text_affinity file_path)
        (Text (u "active")) (text_affinity notes) in
    _ <- put_db (mkDb (scraped_data db ++ [row]) (jobs db) (cover_letters db)
                   id (seq_jobs db) (seq_cover_letters db)) ;;
    ret id.

(** ** [add_job] (lines 199-229) *)

(** The thirteen values of the INSERT, as bound. *)
Record job_values : Type := mkJobValues {
  v_scrape_id : value;
  v_job_uid : value;
  v_job_title : value;
  v_job_url : value;
  v_posted_time : value;
  v_job_type : value;
  v_experience_level : value;
  v_budget : value;
  v_hourly_rate_min : value;
  v_hourly_rate_max : value;
  v_duration : value;
  v_skills : value;
  v_description : value
}.

Notation "x <~ c1 ;; c2" := (Exc.bind c1 (fun x => c2))
  (at level 61, c1 at next level, right associativity).

(** Lines 205-224: the arguments are read off [job_data] first, then
    bound in order.  [scrape_id] is the id of a scrape, an integer of
    SQLite's range ([Storable.sqlite_integer]). *)
Definition job_parameters (scrape_id : Z) (job_data : pyval)
    : result exn job_values :=
  skills <~ py_get job_data (u "skills") (PList []) ;;
  let skills_json := dumps skills in
  job_uid <~ py_get job_data (u "job_uid") PNone ;;
  title <~ py_get job_data (u "title") PNone ;;
  url <~ py_get job_data (u "url") PNone ;;
  posted_time <~ py_get job_data (u "posted_time") PNone ;;
  job_info <~ py_get job_data (u "job_info") (PDict []) ;;
  type <~ py_get job_info (u "type") PNone ;;
  experience_level <~ py_get job_info (u "experience_level") PNone ;;
  budget <~ py_get job_info (u "budget") PNone ;;
  hourly_rate_min <~ py_get job_info (u "hourly_rate_min") PNone ;;
  hourly_rate_max <~ py_get job_info (u "hourly_rate_max") PNone ;;
  duration <~ py_get job_info (u "duration") PNone ;;
  description <~ py_get job_data (u "description") PNone ;;
  job_uid <~ bind_param job_uid ;;
  title <~ bind_param title ;;
  url <~ bind_param url ;;
  posted_time <~ bind_param posted_time ;;
  type <~ bind_param type ;;
  experience_level <~ bind_param experience_level ;;
  budget <~ bind_param budget ;;
  hourly_rate_min <~ bind_param hourly_rate_min ;;
  hourly_rate_max <~ bind_param hourly_rate_max ;;
  duration <~ bind_param duration ;;
  skills_json <~ bind_param (PStr skills_json) ;;
  description <~ bind_param description ;;
  Ok (mkJobValues (Integer scrape_id) job_uid title url posted_time type
        experience_level budget hourly_rate_min hourly_rate_max duration
        skills_json description).

(** The row the INSERT builds: the columns have TEXT affinity, but for
    [scrape_id]; [parsed_timestamp] takes its default. *)
Definition job_row_of (v : job_values) (now : value) (id : Z) : job_row :=
  mkJob id (v_scrape_id v) (text_affinity (v_job_uid v))
    (text_affinity (v_job_title v)) (text_affinity (v_job_url v))
    (text_affinity (v_posted_time v)) (text_affinity (v_job_type v))
    (text_affinity (v_experience_level v)) (text_affinity (v_budget v))
    (text_affinity (v_hourly_rate_min v)) (text_affinity (v_hourly_rate_max v))
    (text_affinity (v_duration v)) (text_affinity (v_skills v))
    (text_affinity (v_description v)) now.

(** UNIQUE(job_uid): some row already holds the same non-null value. *)
Definition job_uid_taken (uid : value) (rows : list job_row) : bool :=
  existsb (fun r => is_true (eq (j_job_uid r) uid)) rows.

(** INSERT OR IGNORE INTO jobs: a row that fails NOT NULL or UNIQUE is
    skipped without an error.  The result is [cursor.lastrowid] on the
    connection [add_job] has just opened: the new row id, and 0 when no
    row was inserted.  [sqlite_sequence] moves on in both cases. *)
Definition insert_or_ignore_job (row : Z -> job_row) (db : database)
    : database * Z :=
  let id := new_rowid (map j_id (jobs db)) (seq_jobs db) in
  if is_null (j_job_title (row id))
     || job_uid_taken (j_job_uid (row id)) (jobs db)
  then (mkDb (scraped_data db) (jobs db) (cover_letters db)
          (seq_scraped_data db) id (seq_cover_letters db), 0%Z)
  else (mkDb (scraped_data db) (jobs db ++ [row id]) (cover_letters db)
          (seq_scraped_data db) id (seq_cover_letters db), id).

Definition add_job (scrape_id : Z) (job_data : pyval) : M Z :=
  parameters <- lift (job_parameters scrape_id job_data) ;;
  now <- current_timestamp ;;
  db <- get_db ;;
  let (db', job_id) := insert_or_ignore_job (job_row_of parameters now) db in
  _ <- put_db db' ;;
  ret job_id.

(** ** Cover letters (lines 258-345) *)

Definition add_cover_letter (job_id : option Z)
    (ai_provider cover_letter_text notes : pyval) : M Z :=
  let job_id := sql_int job_id in
  ai_provider <- lift (bind_param ai_provider) ;;
  cover_letter_text <- lift (bind_param cover_letter_text) ;;
  notes <- lift (bind_param notes) ;;
  now <- current_timestamp ;;
  db <- get_db ;;
  if is_null job_id || is_null ai_provider || is_null cover_letter_text
  then raise IntegrityError
  else
    let id :=
      new_rowid (map cl_id (cover_letters db)) (seq_cover_letters db) in
    let row :=
      mkCoverLetter id job_id (text_affinity ai_provider)
        (text_affinity cover_letter_text) now (Text (u "generated")) Null
        (text_affinity notes) in
    _ <- put_db (mkDb (scraped_data db) (jobs db) (cover_letters db ++ [row])
                   (seq_scraped_data db) (seq_jobs db) id) ;;
    ret id.

(** The dictionaries [get_cover_letters_for_job] returns. *)
Record cover_letter_dict : Type := mkCoverLetterDict {
  cd_id : Z;
  cd_ai_provider : value;
  cd_cover_letter_text : value;
  cd_generated_timestamp : value;
  cd_status : value;
  cd_rating : value;
  cd_notes : value
}.

Definition cover_letter_dict_of (r : cover_letter_row) : cover_letter_dict :=
  mkCoverLetterDict (cl_id r) (cl_ai_provider r) (cl_cover_letter_text r)
    (cl_generated_timestamp r) (cl_status r) (cl_rating r) (cl_notes r).

(** ORDER BY generated_timestamp DESC, as a merge sort.  Rows of equal
    timestamp come out in the order of this sort, which need not be the
    order SQLite returns them in (SQLite does not say which it is);
    nothing below depends on it. *)
Module NewestFirst <: TotalLeBool.
Definition t := cover_letter_row.
Definition leb (a b : t) : bool :=
  Sqlite.leb (cl_generated_timestamp b) (cl_generated_timestamp a).
Lemma str_compare_antisym (a b : pystr) :
  str_compare b a = CompOpp (str_compare a b).
Proof.
  revert b; induction a as [|x a IH]; intros [|y b]; simpl; auto.
  rewrite (N.compare_antisym x y).
  destruct (N.compare x y); simpl; auto.
Qed.
Lemma compare_antisym (a b : value) :
  Sqlite.compare b a = CompOpp (Sqlite.compare a b).
Proof.
  destruct a, b; simpl; auto using Z.compare_antisym, str_compare_antisym.
Qed.
Theorem leb_total (a b : t) : leb a b = true \/ leb b a = true.
Proof.
  unfold leb, Sqlite.leb.
  rewrite (compare_antisym (cl_generated_timestamp b)
             (cl_generated_timestamp a)).
  destruct (Sqlite.compare (cl_generated_timestamp b)
              (cl_generated_timestamp a)); simpl; auto.
Qed.
End NewestFirst.

Module OrderBy := Sort NewestFirst.

(** [get_cover_letters_for_job] (lines 272-294). *)
Definition get_cover_letters_for_job (job_id : Z) (db : database)
    : list cover_letter_dict :=
  map cover_letter_dict_of
    (OrderBy.sort
       (filter (fun r => is_true (eq (cl_job_id r) (Integer job_id)))
          (cover_letters db))).

(** [update_cover_letter_status] (lines 326-335). *)
Definition update_cover_letter_status (cover_letter_id : Z)
    (status : pyval) (rating : option Z) (notes : pyval) : M unit :=
  status <- lift (bind_param status) ;;
  let rating := sql_int rating in
  notes <- lift (bind_param notes) ;;
  db <- get_db ;;
  put_db
    (mkDb (scraped_data db) (jobs db)
       (map (fun r =>
               if Z.eqb (cl_id r) cover_letter_id
               then mkCoverLetter (cl_id r) (cl_job_id r) (cl_ai_provider r)
                      (cl_cover_letter_text r) (cl_generated_timestamp r)
                      (text_affinity status) rating (text_affinity notes)
               else r)
          (cover_letters db))
       (seq_scraped_data db) (seq_jobs db) (seq_cover_letters db)).

(** [delete_cover_letter] (lines 337-345). *)
Definition delete_cover_letter (cover_letter_id : Z) : M unit :=
  db <- get_db ;;
  put_db
    (mkDb (scraped_data db) (jobs db)
       (filter (fun r => negb (Z.eqb (cl_id r) cover_letter_id))
          (cover_letters db))
       (seq_scraped_data db) (seq_jobs db) (seq_cover_letters db)).

(** ** [import_from_json_file] (lines 576-600) *)

(** [os.path.exists], [open] and [json.load]. *)
Definition load_json (file_path : pystr) : M pyval :=
  fun w =>
    match w_files w file_path with
    | NoFile => (Raise FileNotFoundError, w)
    | BadFile e => (Raise e, w)
    | JsonFile data => (Ok data, w)
    end.

Definition basename (file_path : pystr) : M pystr :=
  fun w => (Ok (w_basename w file_path), w).

(** The loop of lines 596-598. *)
Fixpoint add_jobs (scrape_id : Z) (jobs : list pyval) (jobs_added : nat)
    : M nat :=
  match jobs with
  | [] => ret jobs_added
  | job :: rest =>
      _ <- add_job scrape_id job ;;
      add_jobs scrape_id rest (S jobs_added)
  end.

Definition import_from_json_file (file_path : pystr) (scrape_type : pyval)
    : M (Z * nat) :=
  data <- load_json file_path ;;
  let raw_content := dumps data in
  metadata <- lift (py_get data (u "metadata") (PDict [])) ;;
  source_url <- lift (py_get metadata (u "url") PNone) ;;
  name <- basename file_path ;;
  scrape_id <-
    add_scraped_data scrape_type (PStr raw_content) source_url
      (PStr file_path) (PStr (u "Imported from " ++ name)) ;;
  jobs_added <-
    match data with
    | PDict items =>
        match lookup (u "jobs") items with
        | Some js =>
            js <- lift (py_iter js) ;;
            add_jobs scrape_id js 0
        | None => ret 0
        end
    | _ => raise AttributeError   (* not reached: [data.get] has raised *)
    end ;;
  ret (scrape_id, jobs_added).

End Db.

(* ================================================================== *)
(** * src/data/database_cleanup.py *)
(* ================================================================== *)

Module Cleanup.
Import Py PyObj Sqlite Exc Db.

(** The counters of [DatabaseCleaner.cleanup_stats] written below. *)
Record cleanup_stats : Type := mkCleanupStats {
  scraped_data_deleted : nat;
  jobs_deleted : nat;
  cover_letters_deleted : nat
}.

(** [cleanup_scraped_data(keep_ids)] (lines 88-119). *)
Definition cleanup_scraped_data (keep_ids : list Z) (st : cleanup_stats)
    (db : database) : cleanup_stats * database :=
  match keep_ids with
  | [] => (st, db)
  | _ :: _ =>
      let old r :=
        is_true (not_in (Integer (sd_id r)) (map Integer keep_ids)) in
      let delete_count := List.length (filter old (scraped_data db)) in
      if Nat.ltb 0 delete_count
      then (mkCleanupStats delete_count (jobs_deleted st)
              (cover_letters_deleted st),
            mkDb (filter (fun r => negb (old r)) (scraped_data db))
              (jobs db) (cover_letters db) (seq_scraped_data db)
              (seq_jobs db) (seq_cover_letters db))
      else (st, db)
  end.

(** [cleanup_jobs(keep_scrape_ids)] (lines 121-151). *)
Definition cleanup_jobs (keep_scrape_ids : list Z) (st : cleanup_stats)
    (db : database) : cleanup_stats * database :=
  match keep_scrape_ids with
  | [] => (st, db)
  | _ :: _ =>
      let old r :=
        is_true (not_in (j_scrape_id r) (map Integer keep_scrape_ids)) in
      let delete_count := List.length (filter old (jobs db)) in
      if Nat.ltb 0 delete_count
      then (mkCleanupStats (scraped_data_deleted st) delete_count
              (cover_letters_deleted st),
            mkDb (scraped_data db) (filter (fun r => negb (old r)) (jobs db))
              (cover_letters db) (seq_scraped_data db)
              (seq_jobs db) (seq_cover_letters db))
      else (st, db)
  end.

(** The rows of [cover_letters cl LEFT JOIN jobs j ON cl.job_id = j.id]
    for one cover letter: the [j.id] of each job that matches, or one
    row whose [j.id] is NULL when none does. *)
Definition left_join_jobs (cl : cover_letter_row) (js : list job_row)
    : list value :=
  match filter (fun j => is_true (eq (cl_job_id cl) (Integer (j_id j)))) js
  with
  | [] => [Null]
  | matching => map (fun j => Integer (j_id j)) matching
  end.

(** [cleanup_orphaned_cover_letters()] (lines 189-220). *)
Definition cleanup_orphaned_cover_letters (st : cleanup_stats)
    (db : database) : cleanup_stats * database :=
  let orphaned_count :=
    List.length
      (filter is_null
         (flat_map (fun cl => left_join_jobs cl (jobs db))
            (cover_letters db))) in
  if Nat.ltb 0 orphaned_count
  then
    let ids := map (fun j => Integer (j_id j)) (jobs db) in
    (mkCleanupStats (scraped_data_deleted st) (jobs_deleted st)
       orphaned_count,
     mkDb (scraped_data db) (jobs db)
       (filter (fun cl => negb (is_true (not_in (cl_job_id cl) ids)))
          (cover_letters db))
       (seq_scraped_data db) (seq_jobs db) (seq_cover_letters db))
  else (st, db).

End Cleanup.

(* ================================================================== *)
(** * The states the program can reach *)
(* ================================================================== *)

(** Every statement of the repository that writes to [scraped_data],
    [jobs] or [cover_letters] is in one of the methods above (the scripts
    go through them); a reachable database is what a sequence of their
    calls, with any arguments and in any surroundings, makes of a new
    file. *)
Module Api.
Import Py PyObj Sqlite Exc Db Cleanup.

Inductive call : Type :=
| AddScrapedData
    (scrape_type raw_content source_url file_path notes : pyval)
| AddJob (scrape_id : Z) (job_data : pyval)
| AddCoverLetter (job_id : option Z)
    (ai_provider cover_letter_text notes : pyval)
| UpdateCoverLetterStatus (cover_letter_id : Z) (status : pyval)
    (rating : option Z) (notes : pyval)
| DeleteCoverLetter (cover_letter_id : Z)
| ImportFromJsonFile (file_path : pystr) (scrape_type : pyval)
| CleanupScrapedData (keep_ids : list Z)
| CleanupJobs (keep_scrape_ids : list Z)
| CleanupOrphanedCoverLetters.

Definition with_db (w : world) (db : database) : world :=
  mkWorld db (w_clock w) (w_files w) (w_basename w).

Definition no_stats : cleanup_stats := mkCleanupStats 0 0 0.

Definition run (c : call) (w : world) : world :=
  match c with
  | AddScrapedData scrape_type raw_content source_url file_path notes =>
      snd (add_scraped_data scrape_type raw_content source_url file_path
             notes w)
  | AddJob scrape_id job_data => snd (add_job scrape_id job_data w)
  | AddCoverLetter job_id ai_provider cover_letter_text notes =>
      snd (add_cover_letter job_id ai_provider cover_letter_text notes w)
  | UpdateCoverLetterStatus cover_letter_id status rating notes =>
      snd (update_cover_letter_status cover_letter_id status rating notes w)
  | DeleteCoverLetter cover_letter_id =>
      snd (delete_cover_letter cover_letter_id w)
  | ImportFromJsonFile file_path scrape_type =>
      snd (import_from_json_file file_path scrape_type w)
  | CleanupScrapedData keep_ids =>
      with_db w (snd (cleanup_scraped_data keep_ids no_stats (w_db w)))
  | CleanupJobs keep_scrape_ids =>
      with_db w (snd (cleanup_jobs keep_scrape_ids no_stats (w_db w)))
  | CleanupOrphanedCoverLetters =>
      with_db w (snd (cleanup_orphaned_cover_letters no_stats (w_db w)))
  end.

Inductive reachable : database -> Prop :=
| reachable_new : reachable empty_database
| reachable_call (c : call) (w : world) :
    reachable (w_db w) -> reachable (w_db (run c w)).

End Api.

(* ================================================================== *)
(** * Queries with ORDER BY and LIMIT *)
(* ================================================================== *)

(** The SELECT statements of [database_manager.py],
    [database_cleanup.py] and the scripts that sort by a timestamp and
    cut the result off.  Rows of equal timestamp come in table order
    here; SQLite does not promise an order for them, and nothing below
    depends on it. *)
Module Queries.
Import Py PyObj Sqlite Exc Db Cleanup.

(** ORDER BY [key] DESC. *)
Fixpoint insert_desc {A : Type} (key : A -> value) (x : A) (l : list A)
    : list A :=
  match l with
  | [] => [x]
  | y :: l' =>
      if leb (key y) (key x) then x :: l else y :: insert_desc key x l'
  end.

Definition order_by_desc {A : Type} (key : A -> value) (l : list A)
    : list A :=
  fold_right (insert_desc key) [] l.

(** LIMIT [n], for an integer [n]: no limit when [n] is negative. *)
Definition sql_limit {A : Type} (n : Z) (l : list A) : list A :=
  if (n <? 0)%Z then l else firstn (Z.to_nat n) l.

(** ** [UpworkDatabase.get_latest_jobs] (database_manager.py, lines
    494-508): the tuples [(id, job_title, description)]. *)
Definition get_latest_jobs (limit : Z) (db : database)
    : list (Z * value * value) :=
  map (fun r => (j_id r, j_job_title r, j_description r))
    (sql_limit limit (order_by_desc j_parsed_timestamp (jobs db))).

(** ** [UpworkDatabase.get_recent_cover_letters] (lines 297-324) *)

Record recent_cover_letter : Type := mkRecentCoverLetter {
  rc_id : Z;
  rc_ai_provider : value;
  rc_cover_letter_text : value;
  rc_generated_timestamp : value;
  rc_status : value;
  rc_rating : value;
  rc_notes : value;
  rc_job_title : value;
  rc_job_type : value;
  rc_budget : value
}.

(** [cover_letters cl JOIN jobs j ON cl.job_id = j.id]. *)
Definition join_jobs (cls : list cover_letter_row) (js : list job_row)
    : list (cover_letter_row * job_row) :=
  flat_map
    (fun cl =>
       map (fun j => (cl, j))
         (filter (fun j => is_true (eq (cl_job_id cl) (Integer (j_id j))))
            js))
    cls.

Definition recent_cover_letter_of (row : cover_letter_row * job_row)
    : recent_cover_letter :=
  let (cl, j) := row in
  mkRecentCoverLetter (cl_id cl) (cl_ai_provider cl)
    (cl_cover_letter_text cl) (cl_generated_timestamp cl) (cl_status cl)
    (cl_rating cl) (cl_notes cl) (j_job_title j) (j_job_type j) (j_budget j).

Definition get_recent_cover_letters (limit : Z) (db : database)
    : list recent_cover_letter :=
  map recent_cover_letter_of
    (sql_limit limit
       (order_by_desc (fun row => cl_generated_timestamp (fst row))
          (join_jobs (cover_letters db) (jobs db)))).

(** ** [DatabaseCleaner.get_scrapes_to_keep] (database_cleanup.py, lines
    72-86): [self.keep_scrapes], an [int], is bound to [LIMIT ?], and
    [sqlite3] raises OverflowError for one outside 64 bits. *)
Definition get_scrapes_to_keep (keep_scrapes : Z) (db : database)
    : result exn (list Z) :=
  match bind_param (PInt keep_scrapes) with
  | Ok _ =>
      Ok (map sd_id
            (sql_limit keep_scrapes
               (order_by_desc sd_scrape_timestamp (scraped_data db))))
  | Raise e => Raise e
  end.

(** ** [DatabaseCleaner.run_cleanup] (lines 296-351)

    The database file exists, with its tables (the method begins with
    [get_database_stats], whose [sqlite3.connect] creates the file, so the
    test of lines 306-308 passes).  The steps on [proposals], [analytics]
    and [keywords], VACUUM and the log are left out: they read and write
    nothing of the three tables here.  An exception of
    [get_scrapes_to_keep] is caught by lines 347-351, which return
    [False].  The result is the value returned with the counters and the
    database left behind. *)
Definition run_cleanup (keep_scrapes : Z) (st : cleanup_stats)
    (db : database) : bool * cleanup_stats * database :=
  match get_scrapes_to_keep keep_scrapes db with
  | Raise _ => (false, st, db)
  | Ok [] => (false, st, db)
  | Ok keep_scrape_ids =>
      let (st1, db1) := cleanup_jobs keep_scrape_ids st db in
      let (st2, db2) := cleanup_scraped_data keep_scrape_ids st1 db1 in
      let (st3, db3) := cleanup_orphaned_cover_letters st2 db2 in
      (true, st3, db3)
  end.

End Queries.

(* ================================================================== *)
(** * src/scripts *)
(* ================================================================== *)

Module Scripts.
Import Py PyObj Sqlite Exc Db Queries.

(** ** [import_jobs_to_db.py], lines 69-78, and [parse_from_db.py],
    lines 87-95: the loop that saves the jobs

    [try: job_id = db.add_job(scrape_id, job); jobs_added += 1 ...
     except Exception: continue] (what the loop prints is left out; the
    counter is incremented before anything is printed). *)
Fixpoint add_jobs_or_skip (scrape_id : Z) (jobs : list pyval)
    (jobs_added : nat) (w : world) : nat * world :=
  match jobs with
  | [] => (jobs_added, w)
  | job :: rest =>
      match add_job scrape_id job w with
      | (Ok _, w') => add_jobs_or_skip scrape_id rest (S jobs_added) w'
      | (Raise _, w') => add_jobs_or_skip scrape_id rest jobs_added w'
      end
  end.

(** ** [get_latest_job_without_cover_letter.py], lines 35-45: the row
    [fetchone] returns *)

Record pending_job : Type := mkPendingJob {
  pj_id : Z;
  pj_job_title : value;
  pj_description : value;
  pj_job_url : value;
  pj_budget : value;
  pj_skills : value;
  pj_job_type : value;
  pj_experience_level : value;
  pj_parsed_timestamp : value
}.

(** The rows of [jobs j LEFT JOIN cover_letters cl ON j.id = cl.job_id]
    for one job: the [cl.job_id] of each cover letter that matches, or
    one row whose [cl.job_id] is NULL when none does. *)
Definition left_join_cover_letters (j : job_row)
    (cls : list cover_letter_row) : list value :=
  match filter (fun cl => is_true (eq (Integer (j_id j)) (cl_job_id cl))) cls
  with
  | [] => [Null]
  | matching => map cl_job_id matching
  end.

Definition pending_job_of (j : job_row) : pending_job :=
  mkPendingJob (j_id j) (j_job_title j) (j_description j) (j_job_url j)
    (j_budget j) (j_skills j) (j_job_type j) (j_experience_level j)
    (j_parsed_timestamp j).

Definition latest_job_without_cover_letter (db : database)
    : option pending_job :=
  List.hd_error
    (map (fun row => pending_job_of (fst row))
       (sql_limit 1
          (order_by_desc (fun row => j_parsed_timestamp (fst row))
             (filter (fun row => is_null (snd row))
                (flat_map
                   (fun j =>
                      map (fun v => (j, v))
                        (left_join_cover_letters j (cover_letters db)))
                   (jobs db)))))).

End Scripts.

(* ================================================================== *)
(** * Loading a directory of parsed files *)
(* ================================================================== *)

Module Loader.
Import Py PyObj Sqlite Exc Db.

(** [s.endswith(suffix)]. *)
Definition endswith (s suffix : pystr) : bool :=
  startswith (rev s) (rev suffix).




End Loader.

(* ================================================================== *)
(** * From the parser to the database *)
(* ================================================================== *)

Module Pipeline.
Import Py PyObj Sqlite Exc Parser Db Scripts.

(** The dictionary [parse_upwork_jobs] builds for a job is the object
    [parse_from_db.py] hands to [add_job]: here, the record of the parser
    as the dictionary of its keys.  (The keys of ['job_info'] come in a
    fixed order here, not in the order of their first assignment; [add_job]
    reads them by name.) *)
Definition item (key : string) (o : option pystr) : list (pystr * pyval) :=
  match o with
  | Some s => [(u key, PStr s)]
  | None => []
  end.

Definition dict_of_job_info (i : job_info) : pyval :=
  PDict
    (item "type" (ji_type i)
     ++ item "hourly_rate_min" (ji_hourly_rate_min i)
     ++ item "hourly_rate_max" (ji_hourly_rate_max i)
     ++ item "budget" (ji_budget i)
     ++ item "experience_level" (ji_experience_level i)
     ++ item "duration" (ji_duration i)).

Definition dict_of_job (job : job_data) : pyval :=
  PDict
    (item "job_uid" (jd_job_uid job)
     ++ item "title" (jd_title job)
     ++ item "url" (jd_url job)
     ++ item "posted_time" (jd_posted_time job)
     ++ [(u "job_info", dict_of_job_info (jd_job_info job))]
     ++ item "description" (jd_description job)
     ++ [(u "skills", PList (map PStr (jd_skills job)))]).

(** [parse_from_db.py], lines 63-95: the jobs of the parsed page are
    saved one by one under the id of the scrape. *)
Definition save_parsed_jobs (scrape_id : Z) (soup : Soup.tag) (w : world)
    : nat * world :=
  add_jobs_or_skip scrape_id (map dict_of_job (parse_upwork_jobs soup)) 0 w.

(** NULL for a key that is absent. *)
Definition text_or_null (o : option pystr) : value :=
  match o with
  | Some s => Text s
  | None => Null
  end.

(** The values [add_job] binds for a parsed job. *)
Definition values_of_job (scrape_id : Z) (job : job_data) : job_values :=
  mkJobValues (Integer scrape_id)
    (text_or_null (jd_job_uid job))
    (text_or_null (jd_title job))
    (text_or_null (jd_url job))
    (text_or_null (jd_posted_time job))
    (text_or_null (ji_type (jd_job_info job)))
    (text_or_null (ji_experience_level (jd_job_info job)))
    (text_or_null (ji_budget (jd_job_info job)))
    (text_or_null (ji_hourly_rate_min (jd_job_info job)))
    (text_or_null (ji_hourly_rate_max (jd_job_info job)))
    (text_or_null (ji_duration (jd_job_info job)))
    (Text (dumps (PList (map PStr (jd_skills job)))))
    (text_or_null (jd_description job)).

End Pipeline.

(* ================================================================== *)
(** * src/scripts/smart_cover_letter_generator.py *)
(* ================================================================== *)

(** [UpworkDatabase()] runs [init_database], which changes nothing once
    the tables exist; the model, the tokenizer, NLTK and the clock are
    outside the repository and come in as a [generator]. *)

Module Smart.
Import Py PyObj Sqlite Exc Db Queries Scripts Loader.

(** ** Texts *)

(** [s.split(sep)] for a separator that is not empty: the pieces between
    the occurrences of [sep], found from left to right.  [skip] counts the
    characters of a found separator that are still to be dropped, [cur]
    holds the piece being read, last character first. *)
Fixpoint split_from (skip : nat) (sep cur s : pystr) : list pystr :=
  match s with
  | [] => [rev cur]
  | c :: s' =>
      match skip with
      | S k => split_from k sep cur s'
      | O =>
          if startswith s sep
          then rev cur :: split_from (pred (List.length sep)) sep [] s'
          else split_from O sep (c :: cur) s'
      end
  end.

Definition split_on (s sep : pystr) : list pystr := split_from O sep [] s.

(** [sep.join(parts)]. *)
Fixpoint join (sep : pystr) (parts : list pystr) : pystr :=
  match parts with
  | [] => []
  | [p] => p
  | p :: parts' => p ++ sep ++ join sep parts'
  end.

(** [sentence and len(sentence) > 10]. *)
Definition keep_sentence (sentence : pystr) : bool :=
  negb (str_eqb sentence []) && Nat.ltb 10 (List.length sentence).

(** [SmartCoverLetterGenerator._basic_clean_text] (lines 354-366). *)
Definition basic_clean_text (text : pystr) : pystr :=
  join (u ". ")
    (firstn 6 (filter keep_sentence (map strip (split_on text (u "."))))).

Definition closing_phrases : list pystr :=
  [u "Best regards"; u "Sincerely"; u "Thank you"].

(** ["\n\nBest regards,\n[Your Name]"] *)
Definition signature : pystr :=
  [10%N; 10%N] ++ u "Best regards," ++ [10%N] ++ u "[Your Name]".

(** [SmartCoverLetterGenerator._clean_text] (lines 310-348).  [nltk] is
    [sent_tokenize] when NLTK is available. *)
Definition clean_text (nltk : option (pystr -> result exn (list pystr)))
    (text : pystr) : pystr :=
  let result :=
    match nltk with
    | Some sent_tokenize =>
        match sent_tokenize text with
        | Ok sentences =>
            join (u ". ")
              (firstn 6
                 (map (fun sentence => join (u " ") (words sentence))
                    (filter keep_sentence (map strip sentences))))
        | Raise _ => basic_clean_text text
        end
    | None => basic_clean_text text
    end in
  let result :=
    if negb (str_eqb result []) && negb (endswith result (u "."))
    then result ++ u "."
    else result in
  if existsb (fun phrase => contains phrase result) closing_phrases
  then result
  else result ++ signature.

(** ** The jobs that wait *)

(** [jobs j LEFT JOIN cover_letters cl ON j.id = cl.job_id WHERE
    cl.job_id IS NULL]. *)
Definition pending_jobs (db : database) : list (job_row * value) :=
  filter (fun row => is_null (snd row))
    (flat_map
       (fun j =>
          map (fun v => (j, v))
            (left_join_cover_letters j (cover_letters db)))
       (jobs db)).

(** [check_if_cover_letter_needed] (lines 87-110). *)
Definition check_if_cover_letter_needed (db : database) : bool * nat :=
  let count := List.length (pending_jobs db) in
  (Nat.ltb 0 count, count).

(** The dictionary of [get_latest_job_without_cover_letter] (lines
    120-152). *)
Record job_dict : Type := mkJobDict {
  sj_id : Z;
  sj_job_title : value;
  sj_job_type : value;
  sj_budget : value;
  sj_experience_level : value;
  sj_skills : value;
  sj_description : value;
  sj_parsed_timestamp : value
}.

Definition job_dict_of (j : job_row) : job_dict :=
  mkJobDict (j_id j) (j_job_title j) (j_job_type j) (j_budget j)
    (j_experience_level j) (j_skills j) (j_description j)
    (j_parsed_timestamp j).

Definition get_latest_job_without_cover_letter (db : database)
    : option job_dict :=
  List.hd_error
    (map (fun row => job_dict_of (fst row))
       (sql_limit 1
          (order_by_desc (fun row => j_parsed_timestamp (fst row))
             (pending_jobs db)))).

(** ** Generating *)

(** What the generator takes from outside the repository: whether the
    trained model loads ([load_model_temporarily]), the text the
    tokenizer and the model produce for the prompt of a job (or the
    exception they raise), NLTK's [sent_tokenize] when NLTK is installed,
    and the time written into the notes. *)
Record generator : Type := mkGenerator {
  model_loads : bool;
  generated_text : job_dict -> result exn pystr;
  sent_tokenize : option (pystr -> result exn (list pystr));
  now_text : pystr
}.

(** [generate_cover_letter] (lines 220-300), once the model is loaded:
    [None] when an exception is caught. *)
Definition generate_cover_letter (g : generator) (job_data : job_dict)
    : option pystr :=
  match generated_text g job_data with
  | Raise _ => None
  | Ok text =>
      let cover_letter :=
        if contains (u "Cover Letter:") text
        then strip (nth 1 (split_on text (u "Cover Letter:")) [])
        else strip text in
      Some (clean_text (sent_tokenize g) cover_letter)
  end.

(** [smart_generate_cover_letter] (lines 377-438): the value returned
    and the world left behind. *)
Definition smart_generate_cover_letter (g : generator) (w : world)
    : bool * world :=
  let (needed, count) := check_if_cover_letter_needed (w_db w) in
  if negb needed then (true, w)
  else
    match get_latest_job_without_cover_letter (w_db w) with
    | None => (false, w)
    | Some job_data =>
        if negb (model_loads g) then (false, w)
        else
          match generate_cover_letter g job_data with
          | None => (false, w)
          | Some cover_letter =>
              if str_eqb cover_letter [] then (false, w)
              else
                match
                  add_cover_letter (Some (sj_id job_data))
                    (PStr (u "trained_gpt2_smart")) (PStr cover_letter)
                    (PStr (u "Smart generated on " ++ now_text g)) w
                with
                | (Ok _, w') => (true, w')
                | (Raise _, w') => (false, w')
                end
          end
    end.

End Smart.

(* ================================================================== *)
(** * Predicates of the statements *)
(* ================================================================== *)

(** What the properties below are stated with, next to the definitions
    of the program itself. *)
Module Spec.
Import Py PyObj Re Sqlite Exc Db Cleanup Api.

(** ** Texts *)

(** [s] does not begin with a character of the class. *)
Definition stops (cls : char -> bool) (s : pystr) : Prop :=
  match s with
  | [] => True
  | c :: _ => cls c = false
  end.

(** An amount: a non-empty run of digits, commas and dots. *)
Definition amount (a : pystr) : Prop :=
  a <> [] /\ Forall (fun c => amount_char c = true) a.

Definition spaces (ws : pystr) : Prop :=
  Forall (fun c => is_space c = true) ws.

(** ** Rows *)

(** The non-null [job_uid]s of the table, row by row. *)
Definition job_uids (rows : list job_row) : list value :=
  filter (fun v => negb (is_null v)) (map j_job_uid rows).

(** A row that holds the data of a job: its thirteen inserted columns are
    the values bound for the job. *)
Definition holds (r : job_row) (v : job_values) : Prop :=
  r = job_row_of v (j_parsed_timestamp r) (j_id r).

(** UNIQUE(job_uid) on [jobs], NOT NULL on [cover_letters.job_id], and
    PRIMARY KEY on [jobs.id]. *)
Definition constraints_hold (db : database) : Prop :=
  NoDup (job_uids (jobs db))
  /\ Forall (fun cl => cl_job_id cl <> Null) (cover_letters db)
  /\ NoDup (map j_id (jobs db)).

(** The WHERE clause [job_id = ?] keeps the rows whose [job_id] is that
    integer. *)
Definition job_id_is (job_id : Z) (cl : cover_letter_row) : bool :=
  match cl_job_id cl with
  | Integer z => Z.eqb z job_id
  | _ => false
  end.

(** The cover letter's [job_id] is the [id] of a row of [jobs]. *)
Definition references_a_job (js : list job_row) (cl : cover_letter_row)
    : bool :=
  match cl_job_id cl with
  | Integer z => existsb (fun j => Z.eqb (j_id j) z) js
  | _ => false
  end.

(** A job object whose fields can be read and bound, whatever the scrape
    it is attached to. *)
Definition bindable (job : pyval) : Prop :=
  forall scrape_id : Z, exists v, job_parameters scrape_id job = Ok v.

(** The table holds the posting itself, or a row with the posting's
    non-null [job_uid]. *)
Definition stored_or_duplicate (rows : list job_row) (v : job_values)
    : Prop :=
  (exists r, In r rows /\ holds r v)
  \/ (v_job_uid v <> Null
      /\ exists r, In r rows /\ j_job_uid r = text_affinity (v_job_uid v)).

End Spec.

(* ================================================================== *)
(** * Example states *)
(* ================================================================== *)

Module Examples.
Import Py PyObj Sqlite Exc Db Cleanup Api.

(** A page with two job tiles of the first format, the second without
    text in its title, and one tile of the second format. *)
Definition page : Soup.tag :=
  Soup.soup_of
    [Soup.Elem (u "html") []
       [Soup.Elem (u "article")
          [(u "data-test", u "JobTile"); (u "data-ev-job-uid", u "123")]
          [Soup.Elem (u "h2") [(u "class", u "h5 job-tile-title")]
             [Soup.Elem (u "a")
                [(u "data-test", u "job-tile-title-link");
                 (u "href", u "/jobs/~01")]
                [Soup.Text (u "  Build a scraper ")]];
           Soup.Elem (u "small") []
             [Soup.Text (u "Posted ");
              Soup.Elem (u "span") [] [Soup.Text (u " 2 days ago ")]];
           Soup.Elem (u "ul") [(u "data-test", u "JobInfo")]
             [Soup.Elem (u "li") [] [Soup.Text (u "Hourly: $10 - $20")];
              Soup.Elem (u "li") [] [Soup.Text (u "Expert")];
              Soup.Elem (u "li") [] [Soup.Text (u "Est. time: 3 months")]];
           Soup.Elem (u "p") [] [Soup.Text (u "Scrape some pages.")];
           Soup.Elem (u "div") [(u "class", u "air3-token")]
             [Soup.Elem (u "span") [] [Soup.Text (u "Python")];
              Soup.Elem (u "span") [] [Soup.Text (u "+2")]]];
        Soup.Elem (u "article") [(u "data-test", u "JobTile")]
          [Soup.Elem (u "h2") []
             [Soup.Elem (u "a") [] [Soup.Text (u "  ")]]];
        Soup.Elem (u "section") [(u "data-qa", u "job-tile")]
          [Soup.Elem (u "h2") []
             [Soup.Elem (u "a") [] [Soup.Text (u "Other format")]]]]].

(** A new database, a clock that reads [2025-01-01 00:00:0n] at its
    [n]-th reading, no files. *)
Definition new_world : world :=
  mkWorld empty_database
    (fun n => u "2025-01-01 00:00:0" ++ str_of_Z (Z.of_nat n))
    (fun _ => NoFile) (fun path => path).

Definition job_a_first : pyval :=
  PDict [(u "job_uid", PStr (u "a")); (u "title", PStr (u "First"))].

Definition job_a_second : pyval :=
  PDict [(u "job_uid", PStr (u "a")); (u "title", PStr (u "Second"))].

(** The world after [add_job(1, job_a_first)]. *)
Definition world_with_job_a : world := run (AddJob 1 job_a_first) new_world.

(** The world after two cover letters for job 1 and one for job 2. *)
Definition world_with_cover_letters : world :=
  run (AddCoverLetter (Some 2%Z) (PStr (u "gpt2")) (PStr (u "Hi")) PNone)
    (run (AddCoverLetter (Some 1%Z) (PStr (u "gpt2")) (PStr (u "Hello"))
            PNone)
       (run (AddCoverLetter (Some 1%Z) (PStr (u "gpt2")) (PStr (u "Dear"))
               PNone)
          new_world)).

(** The world after [add_job] (scrape 1), [add_cover_letter] for that
    job, and [cleanup_jobs] keeping scrape 2 only. *)
Definition world_with_orphan : world :=
  run (CleanupJobs [2%Z])
    (run (AddCoverLetter (Some 1%Z) (PStr (u "gpt2")) (PStr (u "Dear"))
            PNone)
       world_with_job_a).

(** One job (id 7) and two cover letters, the second for a job 9 that
    does not exist. *)
Definition database_with_orphan : database :=
  mkDb []
    [job_row_of
       (mkJobValues (Integer 1) (Text (u "a")) (Text (u "First"))
          Null Null Null Null Null Null Null Null (Text (u "[]")) Null)
       (Text (u "2025-01-01 00:00:00")) 7]
    [mkCoverLetter 1 (Integer 7) (Text (u "gpt2")) (Text (u "Dear"))
       (Text (u "2025-01-01 00:00:01")) (Text (u "generated")) Null Null;
     mkCoverLetter 2 (Integer 9) (Text (u "gpt2")) (Text (u "Hello"))
       (Text (u "2025-01-01 00:00:02")) (Text (u "generated")) Null Null]
    0 7 2.

(** A file [parsed.json] with one posting, whose [job_uid] the database
    already has. *)
Definition parsed_file : pyval :=
  PDict [(u "metadata",
          PDict [(u "url", PStr (u "https://www.upwork.com/nx/search/jobs/"))]);
         (u "jobs", PList [job_a_second])].

Definition world_with_file : world :=
  mkWorld (w_db world_with_job_a) (w_clock world_with_job_a)
    (fun path =>
       if str_eqb path (u "parsed.json") then JsonFile parsed_file
       else NoFile)
    (fun path => path).

(** The same file beside a new database. *)
Definition new_world_with_file : world :=
  mkWorld empty_database (w_clock new_world)
    (fun path =>
       if str_eqb path (u "parsed.json") then JsonFile parsed_file
       else NoFile)
    (fun path => path).

End Examples.

(* ================================================================== *)
(** * The shape of parsed jobs *)
(* ================================================================== *)

(** What the properties of [parse_upwork_jobs] further below are stated
    with. *)
Module Shape.
Import Py Re Soup Exc Parser Spec.

(** The classes of the capturing groups of a pattern, in order. *)
Fixpoint group_classes (p : pattern) : list (char -> bool) :=
  match p with
  | [] => []
  | Group cls :: p' => cls :: group_classes p'
  | _ :: p' => group_classes p'
  end.

(** A text a group [(cls+)] can capture. *)
Definition captured (cls : char -> bool) (g : pystr) : Prop :=
  g <> [] /\ Forall (fun c => cls c = true) g.

(** A value of a dictionary, when the key is present. *)
Definition when_present {A : Type} (P : A -> Prop) (o : option A) : Prop :=
  match o with
  | Some a => P a
  | None => True
  end.

(** A text that [strip] leaves as it is. *)
Definition stripped (s : pystr) : Prop := strip s = s.

(** An absolute URL, as far as the parser checks it. *)
Definition absolute (url : pystr) : Prop := startswith url (u "http") = true.

(** What [parse_upwork_jobs] can put into a [job_info]. *)
Definition job_info_shape (i : job_info) : Prop :=
  when_present (fun t => t = u "Fixed price" \/ t = u "Hourly") (ji_type i)
  /\ when_present
       (fun l => l = u "Entry Level" \/ l = u "Intermediate" \/ l = u "Expert")
       (ji_experience_level i)
  /\ (ji_hourly_rate_min i = None <-> ji_hourly_rate_max i = None)
  /\ (ji_hourly_rate_min i <> None -> ji_type i <> None)
  /\ when_present amount (ji_hourly_rate_min i)
  /\ when_present amount (ji_hourly_rate_max i)
  /\ when_present amount (ji_budget i)
  /\ when_present stripped (ji_duration i).

End Shape.

(* ================================================================== *)
(** * Rows and their ids *)
(* ================================================================== *)

(** What the further properties of the database are stated with. *)
Module Rows.
Import Py PyObj Sqlite Exc Db Cleanup Api Spec.

(** The row ids of an AUTOINCREMENT table: distinct, positive, and none
    above the table's entry in [sqlite_sequence]. *)
Definition ids_hold (ids : list Z) (seq : Z) : Prop :=
  NoDup ids /\ (0 <= seq)%Z /\ Forall (fun id => (0 < id <= seq)%Z) ids.

Definition primary_keys_hold (db : database) : Prop :=
  ids_hold (map sd_id (scraped_data db)) (seq_scraped_data db)
  /\ ids_hold (map j_id (jobs db)) (seq_jobs db)
  /\ ids_hold (map cl_id (cover_letters db)) (seq_cover_letters db).

(** What [update_cover_letter_status] makes of a returned dictionary. *)
Definition with_status (cover_letter_id : Z) (status rating notes : value)
    (d : cover_letter_dict) : cover_letter_dict :=
  if Z.eqb (cd_id d) cover_letter_id
  then mkCoverLetterDict (cd_id d) (cd_ai_provider d)
         (cd_cover_letter_text d) (cd_generated_timestamp d)
         status rating notes
  else d.

(** Rows were added at the end of [scraped_data] and of [jobs], and
    nothing else has changed in the three tables. *)
Definition only_appended (before after : database) : Prop :=
  (exists rows, scraped_data after = scraped_data before ++ rows)
  /\ (exists rows, jobs after = jobs before ++ rows)
  /\ cover_letters after = cover_letters before.

(** A job object with a ['job_uid'] that is a string. *)
Definition has_job_uid (job : pyval) : Prop :=
  exists items uid,
    job = PDict items /\ lookup (u "job_uid") items = Some (PStr uid).

End Rows.

(* ================================================================== *)
(** * The latest rows *)
(* ================================================================== *)

(** What the properties of the queries and of the cleanup are stated
    with. *)
Module Latest.
Import Py PyObj Sqlite Exc Db Cleanup Queries Scripts.

(** Rows from the latest to the earliest value of [key]. *)
Definition newest_first {A : Type} (key : A -> value) (rows : list A)
    : Prop :=
  StronglySorted (fun a b => leb (key b) (key a) = true) rows.

(** [latest] are rows of [all], and no other row of [all] is later than
    one of them. *)
Definition latest_of {A : Type} (key : A -> value) (latest all : list A)
    : Prop :=
  exists rest,
    Permutation (latest ++ rest) all
    /\ forall x y, In x latest -> In y rest -> leb (key y) (key x) = true.

(** The number of rows LIMIT [n] lets through, out of [count]. *)
Definition limited (n : Z) (count : nat) : nat :=
  if (n <? 0)%Z then count else Nat.min (Z.to_nat n) count.

(** What the WHERE clause of [cleanup_jobs] keeps. *)
Definition scrape_is_kept (keep_scrape_ids : list Z) (scrape_id : value)
    : bool :=
  match scrape_id with
  | Null => true
  | Integer z => existsb (Z.eqb z) keep_scrape_ids
  | Text _ => false
  end.

(** No cover letter is for this job. *)
Definition without_cover_letter (cls : list cover_letter_row) (j : job_row)
    : Prop :=
  forall cl, In cl cls -> cl_job_id cl <> Integer (j_id j).

(** [job_parameters] returns for this job. *)
Definition can_be_bound (scrape_id : Z) (job : pyval) : bool :=
  match job_parameters scrape_id job with
  | Ok _ => true
  | Raise _ => false
  end.

(** Two scrapes, a job of each, and a cover letter for each job. *)
Definition database_with_scrapes : database :=
  mkDb
    [mkScraped 1 (Text (u "browser")) Null (Text (u "2025-01-01 00:00:00"))
       (Text (u "<html></html>")) Null (Text (u "active")) Null;
     mkScraped 2 (Text (u "browser")) Null (Text (u "2025-01-02 00:00:00"))
       (Text (u "<html></html>")) Null (Text (u "active")) Null]
    [job_row_of
       (mkJobValues (Integer 1) (Text (u "a")) (Text (u "First"))
          Null Null Null Null Null Null Null Null (Text (u "[]")) Null)
       (Text (u "2025-01-01 00:00:01")) 1;
     job_row_of
       (mkJobValues (Integer 2) (Text (u "b")) (Text (u "Second"))
          Null Null Null Null Null Null Null Null (Text (u "[]")) Null)
       (Text (u "2025-01-02 00:00:01")) 2]
    [mkCoverLetter 1 (Integer 1) (Text (u "gpt2")) (Text (u "Dear"))
       (Text (u "2025-01-01 00:00:02")) (Text (u "generated")) Null Null;
     mkCoverLetter 2 (Integer 2) (Text (u "gpt2")) (Text (u "Hello"))
       (Text (u "2025-01-02 00:00:02")) (Text (u "generated")) Null Null]
    2 2 2.

End Latest.

(* ================================================================== *)
(** * The jobs that wait for a cover letter *)
(* ================================================================== *)

Module Waiting.
Import Py PyObj Sqlite Exc Db Smart.

(** No row of [cover_letters] has the job's id as [job_id]: the job is
    one of those [check_if_cover_letter_needed] counts. *)
Definition has_no_cover_letter (cls : list cover_letter_row) (j : job_row)
    : bool :=
  forallb
    (fun cl => negb (is_true (eq (Integer (j_id j)) (cl_job_id cl)))) cls.

(** A generator whose model loads and produces [text] for every job,
    without NLTK. *)
Definition generator_of_text (text : pystr) : generator :=
  mkGenerator true (fun _ => Ok text) None (u "2025-01-01 00:00:00").

End Waiting.

(* ================================================================== *)
(** * What SQLite can store *)
(* ================================================================== *)

Module Storable.
Import Py PyObj Sqlite Exc Db.

(** A code point that UTF-8 encodes: any but the surrogates U+D800 to
    U+DFFF. *)
Definition encodable_char (c : char) : bool :=
  ((c <? 55296) || ((57343 <? c) && (c <? 1114112)))%N.

(** A [str] that [sqlite3] can bind: it holds no lone surrogate. *)
Definition encodable (s : pystr) : bool := forallb encodable_char s.

(** An argument that is a [str] or is left out. *)
Definition encodable_or_none (o : option pystr) : bool :=
  match o with
  | Some s => encodable s
  | None => true
  end.

(** An [int] that [sqlite3] can bind: it fits 64 bits. *)
Definition sqlite_integer (z : Z) : bool :=
  ((- 2 ^ 63 <=? z) && (z <? 2 ^ 63))%Z.

(** A value that can be bound and stored. *)
Definition storable (v : value) : bool :=
  match v with
  | Null => true
  | Integer z => sqlite_integer z
  | Text s => encodable s
  end.

(** The twelve values of a job that are read off [job_data]. *)
Definition fields_storable (v : job_values) : bool :=
  forallb storable
    [v_job_uid v; v_job_title v; v_job_url v; v_posted_time v; v_job_type v;
     v_experience_level v; v_budget v; v_hourly_rate_min v;
     v_hourly_rate_max v; v_duration v; v_skills v; v_description v].

(** A job object whose fields [add_job] can read and [sqlite3] can bind,
    whatever the scrape it is attached to. *)
Definition can_be_stored (job : pyval) : Prop :=
  forall scrape_id : Z,
    exists v, job_parameters scrape_id job = Ok v /\ fields_storable v = true.

End Storable.

(* ================================================================== *)
(** * Properties of strings and patterns *)
(* ================================================================== *)

Module PyFacts.
Import Py.

Lemma char_eqb_refl (c : char) : char_eqb c c = true.
Proof. apply N.eqb_refl. Qed.

Lemma str_eqb_eq (a b : pystr) : str_eqb a b = true <-> a = b.
Proof.
  revert b; induction a as [|x a IH]; intros [|y b]; simpl;
    try (split; [discriminate | congruence]); try tauto.
  rewrite andb_true_iff, IH. unfold char_eqb. rewrite N.eqb_eq.
  split; [intros [-> ->]; reflexivity | intros H; injection H; auto].
Qed.

Lemma str_eqb_refl (a : pystr) : str_eqb a a = true.
Proof. apply str_eqb_eq; reflexivity. Qed.

Lemma str_eqb_nil (a : pystr) : str_eqb a [] = false <-> a <> [].
Proof. destruct a; simpl; split; congruence. Qed.

Lemma startswith_app (p s : pystr) : startswith (p ++ s) p = true.
Proof.
  induction p as [|x p IH]; simpl; [reflexivity|].
  rewrite char_eqb_refl; exact IH.
Qed.

Lemma contains_app (p pre s : pystr) : contains p (pre ++ p ++ s) = true.
Proof.
  induction pre as [|x pre IH]; simpl.
  - pose proof (startswith_app p s) as H.
    destruct (p ++ s); simpl; rewrite H; reflexivity.
  - rewrite IH. apply orb_true_r.
Qed.

Lemma str_compare_trans (a b c : pystr) :
  str_compare a b <> Gt -> str_compare b c <> Gt -> str_compare a c <> Gt.
Proof.
  revert b c; induction a as [|x a IH]; intros [|y b] [|z c]; simpl;
    try congruence.
  destruct (N.compare_spec x y), (N.compare_spec y z), (N.compare_spec x z);
    subst; try lia; try congruence.
  apply IH.
Qed.

End PyFacts.

(** The patterns on the shapes they were written for. *)
Module ReFacts.
Import Py Re Spec PyFacts.

Lemma match_here_lit (l : pystr) (p : pattern) (s : pystr) :
  match_here (map Lit l ++ p) (l ++ s) = match_here p s.
Proof.
  induction l as [|c l IH]; simpl; [reflexivity|].
  rewrite char_eqb_refl; exact IH.
Qed.

(** [re.search] finds a match that starts the text. *)
Lemma search_at_start (p : pattern) (s : pystr) (groups : list pystr) :
  match_here p s = Some groups -> search p s = Some groups.
Proof. intros H. destruct s; simpl; rewrite H; reflexivity. Qed.

Section Greedy.

Variable cls : char -> bool.

Lemma greedy_stops {R : Type} (k : pystr -> option R) (s : pystr) :
  stops cls s -> greedy cls k s = k s.
Proof. destruct s as [|c s]; simpl; [reflexivity | intros ->; reflexivity]. Qed.

Lemma greedy_longest {R : Type} (k : pystr -> option R) (run s : pystr)
    (r : R) :
  Forall (fun c => cls c = true) run -> stops cls s -> k s = Some r ->
  greedy cls k (run ++ s) = Some r.
Proof.
  intros Hrun Hs Hk. induction Hrun as [|c run Hc _ IH]; simpl.
  - rewrite greedy_stops; assumption.
  - rewrite Hc, IH. reflexivity.
Qed.

Lemma greedy_cap_longest {R : Type} (run s : pystr) :
  Forall (fun c => cls c = true) run -> stops cls s ->
  forall (k : pystr -> pystr -> option R) (r : R),
    k run s = Some r -> greedy_cap cls k (run ++ s) = Some r.
Proof.
  intros Hrun Hs. induction Hrun as [|c run Hc _ IH]; intros k r Hk; simpl.
  - destruct s as [|c s]; simpl in *; [|rewrite Hs]; exact Hk.
  - rewrite Hc, (IH (fun cap rest => k (c :: cap) rest) r Hk). reflexivity.
Qed.

Lemma match_here_group (p : pattern)
    (c : char) (run s : pystr) (groups : list pystr) :
  Forall (fun c => cls c = true) (c :: run) -> stops cls s ->
  match_here p s = Some groups ->
  match_here (Group cls :: p) (c :: run ++ s) = Some ((c :: run) :: groups).
Proof.
  intros Hrun Hs Hp. inversion Hrun as [|? ? Hc Hrun']; subst. simpl.
  rewrite Hc. apply greedy_cap_longest; try assumption.
  rewrite Hp; reflexivity.
Qed.

Lemma match_here_star (p : pattern)
    (run s : pystr) (groups : list pystr) :
  Forall (fun c => cls c = true) run -> stops cls s ->
  match_here p s = Some groups ->
  match_here (Star cls :: p) (run ++ s) = Some groups.
Proof. intros. simpl. apply greedy_longest; assumption. Qed.

End Greedy.

(** At a text that begins with [Hourly:], white space, [$A], white space,
    [-], white space, [$B], where the amount [B] ends at [rest], the
    pattern matches with the groups [A] and [B]. *)
Lemma match_here_hourly (ws1 a ws2 ws3 b rest : pystr) :
  spaces ws1 -> amount a -> spaces ws2 -> spaces ws3 -> amount b ->
  stops amount_char rest ->
  match_here hourly_re
    (u "Hourly:" ++ ws1 ++ u "$" ++ a ++ ws2 ++ u "-" ++ ws3 ++ u "$"
       ++ b ++ rest)
  = Some [a; b].
Proof.
  intros H1 [Na Ha] H2 H3 [Nb Hb] Hrest.
  destruct a as [|ca a]; [congruence|]. destruct b as [|cb b]; [congruence|].
  unfold hourly_re, lit.
  rewrite match_here_lit.
  apply match_here_star; [assumption | reflexivity |].
  change (u "$" ++ (ca :: a) ++ ws2 ++ u "-" ++ ws3 ++ u "$" ++ (cb :: b)
            ++ rest)
    with (u "$" ++ ca :: a
            ++ (ws2 ++ u "-" ++ ws3 ++ u "$" ++ (cb :: b) ++ rest)).
  rewrite (match_here_lit (u "$")).
  apply match_here_group; [assumption | |].
  { destruct ws2 as [|w ws2]; simpl; [reflexivity|].
    inversion H2 as [|? ? Hw _]; subst.
    destruct (amount_char w) eqn:E; [|reflexivity].
    unfold amount_char, is_space in *.
    repeat rewrite ?orb_true_iff, ?andb_true_iff, ?N.leb_le, ?N.eqb_eq in *.
    lia. }
  apply match_here_star; [assumption | reflexivity |].
  rewrite (match_here_lit (u "-")).
  apply match_here_star; [assumption | reflexivity |].
  change (u "$" ++ (cb :: b) ++ rest) with (u "$" ++ cb :: b ++ rest).
  rewrite (match_here_lit (u "$")).
  apply match_here_group; [assumption | assumption | reflexivity].
Qed.

Lemma match_here_budget (ws c rest : pystr) :
  spaces ws -> amount c -> stops amount_char rest ->
  match_here budget_re (u "Est. budget:" ++ ws ++ u "$" ++ c ++ rest)
  = Some [c].
Proof.
  intros H1 [Nc Hc] Hrest.
  destruct c as [|cc c]; [congruence|].
  unfold budget_re, lit.
  rewrite match_here_lit.
  apply match_here_star; [assumption | reflexivity |].
  change (u "$" ++ (cc :: c) ++ rest) with (u "$" ++ cc :: c ++ rest).
  rewrite (match_here_lit (u "$")).
  apply match_here_group; [assumption | assumption | reflexivity].
Qed.

Lemma search_hourly_skip (pre s : pystr) :
  Forall (fun c => c <> 72%N) pre ->
  search hourly_re (pre ++ s) = search hourly_re s.
Proof.
  induction 1 as [|c pre Hc _ IH]; [reflexivity|].
  assert (E : match_here hourly_re (c :: pre ++ s) = None).
  { simpl. apply N.eqb_neq in Hc. unfold char_eqb. rewrite Hc. reflexivity. }
  change (search hourly_re ((c :: pre) ++ s))
    with (match match_here hourly_re (c :: pre ++ s) with
          | Some r => Some r
          | None => search hourly_re (pre ++ s)
          end).
  rewrite E. exact IH.
Qed.

(** The shape the hourly pattern was written for: [Hourly: $A - $B],
    after any text without an [H]. *)
Lemma search_hourly (pre ws1 a ws2 ws3 b rest : pystr) :
  Forall (fun c => c <> 72%N) pre ->
  spaces ws1 -> amount a -> spaces ws2 -> spaces ws3 -> amount b ->
  stops amount_char rest ->
  search hourly_re
    (pre ++ u "Hourly:" ++ ws1 ++ u "$" ++ a ++ ws2 ++ u "-" ++ ws3
       ++ u "$" ++ b ++ rest)
  = Some [a; b].
Proof.
  intros Hpre H1 Ha H2 H3 Hb Hrest.
  rewrite search_hourly_skip by assumption.
  apply search_at_start, match_here_hourly; assumption.
Qed.

Lemma search_budget_skip (pre s : pystr) :
  Forall (fun c => c <> 69%N) pre ->
  search budget_re (pre ++ s) = search budget_re s.
Proof.
  induction 1 as [|c pre Hc _ IH]; [reflexivity|].
  assert (E : match_here budget_re (c :: pre ++ s) = None).
  { simpl. apply N.eqb_neq in Hc. unfold char_eqb. rewrite Hc. reflexivity. }
  change (search budget_re ((c :: pre) ++ s))
    with (match match_here budget_re (c :: pre ++ s) with
          | Some r => Some r
          | None => search budget_re (pre ++ s)
          end).
  rewrite E. exact IH.
Qed.

Lemma search_budget (pre ws c rest : pystr) :
  Forall (fun x => x <> 69%N) pre ->
  spaces ws -> amount c -> stops amount_char rest ->
  search budget_re (pre ++ u "Est. budget:" ++ ws ++ u "$" ++ c ++ rest)
  = Some [c].
Proof.
  intros Hpre H1 Hc Hrest.
  rewrite search_budget_skip by assumption.
  apply search_at_start, match_here_budget; assumption.
Qed.

End ReFacts.

(* ================================================================== *)
(** * Properties of the parser *)
(* ================================================================== *)

Module ParserFacts.
Import Py Re Soup Exc Parser Spec PyFacts ReFacts.

(** ** Job elements *)


(** The members of [select] for a selector without combinator. *)
Lemma in_select_compound (c : compound) (t root : tag) :
  In t (select [c] root) <->
  In t (descendants root) /\ matches_compound c (name t, attributes t) = true.
Proof.
  unfold select. rewrite filter_In. unfold matches; simpl.
  rewrite andb_true_r. reflexivity.
Qed.

(** What [tag[key="value"]] and [[key="value"]] match. *)
Lemma matches_el_attr (nm k v : string) (h : head) :
  matches_compound (el_attr nm k v) h = true <->
  fst h = u nm /\ attr_lookup (u k) (snd h) = Some (u v).
Proof.
  unfold matches_compound, el_attr, has_attr; simpl.
  rewrite !andb_true_r, andb_true_iff, str_eqb_eq.
  destruct (attr_lookup (u k) (snd h)) as [x|].
  - rewrite str_eqb_eq. split; intros [H1 H2]; split; congruence.
  - split; intros [H1 H2]; discriminate.
Qed.

Lemma matches_any_attr (k v : string) (h : head) :
  matches_compound (any_attr k v) h = true <->
  attr_lookup (u k) (snd h) = Some (u v).
Proof.
  unfold matches_compound, any_attr, has_attr; simpl.
  rewrite !andb_true_r.
  destruct (attr_lookup (u k) (snd h)) as [x|].
  - rewrite str_eqb_eq. split; congruence.
  - split; discriminate.
Qed.

(** The three selectors of the cascade, spelled out. *)
Lemma in_job_tile_selects (t soup : tag) :
  (In t (select sel_job_tile_article soup) <->
   In t (descendants soup) /\ name t = u "article"
   /\ attr_lookup (u "data-test") (attributes t) = Some (u "JobTile"))
  /\ (In t (select sel_job_tile_section soup) <->
      In t (descendants soup) /\ name t = u "section"
      /\ attr_lookup (u "data-qa") (attributes t) = Some (u "job-tile"))
  /\ (In t (select sel_job_tile_any soup) <->
      In t (descendants soup)
      /\ attr_lookup (u "data-qa") (attributes t) = Some (u "job-tile")).
Proof.
  unfold sel_job_tile_article, sel_job_tile_section, sel_job_tile_any.
  rewrite !in_select_compound, !matches_el_attr, matches_any_attr.
  simpl. tauto.
Qed.


Lemma has_title_iff (job : job_data) :
  has_title job = true <-> exists t, jd_title job = Some t /\ t <> [].
Proof.
  unfold has_title. destruct (jd_title job) as [t|].
  - rewrite negb_true_iff, str_eqb_nil. split.
    + intros H; exists t; auto.
    + intros [t' [E H]]; congruence.
  - split; [discriminate | intros [t [E _]]; discriminate].
Qed.

Lemma filter_as_flat_map {A : Type} (f : A -> bool) (l : list A) :
  filter f l = flat_map (fun x => if f x then [x] else []) l.
Proof.
  induction l as [|x l IH]; simpl; [reflexivity|].
  rewrite IH. destruct (f x); reflexivity.
Qed.

(** C4. Every job of the returned list has a non-empty ['title'], and a
    job element whose title link is missing, or has no text but white
    space, adds nothing to the list. *)
Theorem parsed_jobs_have_a_title (soup : tag) :
  Forall (fun job => exists t, jd_title job = Some t /\ t <> [])
    (parse_upwork_jobs soup)
  /\ parse_upwork_jobs soup
     = flat_map
         (fun job_element =>
            match option_map get_text_strip (title_link job_element) with
            | Some (_ :: _) => [parse_job_element job_element]
            | Some [] | None => []
            end)
         (job_elements soup).
Proof.
  unfold parse_upwork_jobs. split.
  - apply Forall_forall. intros job H.
    apply filter_In in H. apply has_title_iff, H.
  - rewrite filter_as_flat_map, flat_map_concat_map, map_map.
    rewrite <- flat_map_concat_map.
    apply flat_map_ext. intros e.
    unfold has_title, parse_job_element; simpl.
    destruct (option_map get_text_strip (title_link e)) as [[|c t]|];
      reflexivity.
Qed.

(** The page of the examples: the tile of the second format is not
    read, and the tile without a title is dropped. *)
Example parse_upwork_jobs_page :
  parse_upwork_jobs Examples.page
  = [mkJobData (Some (u "123")) (Some (u "Build a scraper"))
       (Some (u "https://www.upwork.com/jobs/~01"))
       (Some (u "Posted2 days ago"))
       (mkJobInfo (Some (u "Hourly")) (Some (u "10")) (Some (u "20")) None
          (Some (u "Expert")) (Some (u "3 months")))
       (Some (u "Scrape some pages.")) [u "Python"]].
Proof. vm_compute. reflexivity. Qed.

(** ** Job-info items *)

(** An item of the shape [Hourly: $A - $B] that has no ['Fixed price']
    in it (and no [H] before [Hourly:]). *)
Lemma job_info_item_hourly (info : job_info)
    (pre ws1 a ws2 ws3 b rest : pystr) :
  contains (u "Fixed price")
    (pre ++ u "Hourly:" ++ ws1 ++ u "$" ++ a ++ ws2 ++ u "-" ++ ws3
       ++ u "$" ++ b ++ rest) = false ->
  Forall (fun c => c <> 72%N) pre ->
  spaces ws1 -> amount a -> spaces ws2 -> spaces ws3 -> amount b ->
  stops amount_char rest ->
  job_info_item info
    (pre ++ u "Hourly:" ++ ws1 ++ u "$" ++ a ++ ws2 ++ u "-" ++ ws3
       ++ u "$" ++ b ++ rest)
  = set_hourly_rate_max b
      (set_hourly_rate_min a (set_type (u "Hourly") info)).
Proof.
  intros Hfp Hpre H1 Ha H2 H3 Hb Hrest.
  unfold job_info_item.
  rewrite Hfp, contains_app, search_hourly by assumption.
  reflexivity.
Qed.

(** C5, as the code has it.  An item whose text contains ['Fixed price']
    sets the type to ['Fixed price'] and nothing else.  An item without
    ['Fixed price'] whose text contains ['Hourly:'] and matches the hourly
    pattern with the groups [A] and [B] sets the type to ['Hourly'],
    [hourly_rate_min] to [A] and [hourly_rate_max] to [B].  An item with
    neither ['Fixed price'] nor ['Hourly:'] whose text contains
    ['Est. budget:'] and matches the budget pattern with the group [C]
    sets [budget] to [C]. *)
Theorem job_info_item_fields (info : job_info) (text : pystr) :
  (contains (u "Fixed price") text = true ->
   job_info_item info text = set_type (u "Fixed price") info)
  /\ (forall a b : pystr,
        contains (u "Fixed price") text = false ->
        contains (u "Hourly:") text = true ->
        search hourly_re text = Some [a; b] ->
        job_info_item info text
        = set_hourly_rate_max b
            (set_hourly_rate_min a (set_type (u "Hourly") info)))
  /\ (forall c : pystr,
        contains (u "Fixed price") text = false ->
        contains (u "Hourly:") text = false ->
        contains (u "Est. budget:") text = true ->
        search budget_re text = Some [c] ->
        job_info_item info text = set_budget c info).
Proof.
  unfold job_info_item. repeat split.
  - intros ->. reflexivity.
  - intros a b -> -> ->. reflexivity.
  - intros c -> -> -> ->. reflexivity.
Qed.

Lemma job_info_item_fields_example :
  job_info_item empty_job_info (u "Fixed price")
  = set_type (u "Fixed price") empty_job_info
  /\ job_info_item empty_job_info (u "Hourly: $15.00 - $30.00")
     = set_hourly_rate_max (u "30.00")
         (set_hourly_rate_min (u "15.00")
            (set_type (u "Hourly") empty_job_info))
  /\ job_info_item empty_job_info (u "Est. budget: $1,500")
     = set_budget (u "1,500") empty_job_info.
Proof.
  split; [|split].
  - apply (job_info_item_fields empty_job_info (u "Fixed price")).
    reflexivity.
  - apply (job_info_item_fields empty_job_info
             (u "Hourly: $15.00 - $30.00")); reflexivity.
  - apply (job_info_item_fields empty_job_info (u "Est. budget: $1,500"));
      reflexivity.
Defined.

(** C5 as stated fails on an item that also contains ['Fixed price']:
    its text contains ['Hourly:'] and matches the hourly pattern with the
    groups [10] and [20], yet the type becomes ['Fixed price'] and no
    hourly rate is set. *)
Lemma hourly_item_with_fixed_price :
  contains (u "Hourly:") (u "Fixed price or Hourly: $10 - $20") = true
  /\ search hourly_re (u "Fixed price or Hourly: $10 - $20")
     = Some [u "10"; u "20"]
  /\ ji_type
       (job_info_item empty_job_info (u "Fixed price or Hourly: $10 - $20"))
     = Some (u "Fixed price")
  /\ ji_hourly_rate_min
       (job_info_item empty_job_info (u "Fixed price or Hourly: $10 - $20"))
     = None
  /\ ji_hourly_rate_max
       (job_info_item empty_job_info (u "Fixed price or Hourly: $10 - $20"))
     = None.
Proof. repeat split; reflexivity. Qed.

(** The same for the budget: an item with ['Hourly:'] in its text never
    reaches the budget pattern. *)
Lemma budget_item_with_hourly :
  contains (u "Est. budget:") (u "Hourly: Est. budget: $500") = true
  /\ search budget_re (u "Hourly: Est. budget: $500") = Some [u "500"]
  /\ ji_budget (job_info_item empty_job_info (u "Hourly: Est. budget: $500"))
     = None.
Proof. repeat split; reflexivity. Qed.

(** ** [parse_html_file] *)

(** C9. [parse_html_file] returns a dictionary for every path.  When
    reading the file or parsing the HTML raises, the dictionary has the
    key ['error'] (the text of the exception) and
    [parsing_successful = False].  When both succeed it has no ['error'],
    its jobs are those of [parse_upwork_jobs], and [parsing_successful]
    is true exactly when that list is not empty. *)
Theorem parse_html_file_returns (h : host) (file_path : pystr) :
  exists d : parse_result,
    parse_html_file h file_path = Ok d
    /\ (forall e, read_text h file_path = Raise e ->
        pr_error d = Some (exn_str e)
        /\ parsing_successful (pr_parsing_stats d) = false)
    /\ (forall html e,
        read_text h file_path = Ok html -> html_parser h html = Raise e ->
        pr_error d = Some (exn_str e)
        /\ parsing_successful (pr_parsing_stats d) = false)
    /\ (forall html soup,
        read_text h file_path = Ok html -> html_parser h html = Ok soup ->
        pr_error d = None
        /\ pr_jobs d = Some (parse_upwork_jobs soup)
        /\ jobs_extracted (pr_parsing_stats d)
           = Some (List.length (parse_upwork_jobs soup))
        /\ (parsing_successful (pr_parsing_stats d) = true <->
            parse_upwork_jobs soup <> [])).
Proof.
  unfold parse_html_file, parse_html_file_body.
  destruct (read_text h file_path) as [html|e] eqn:Hread; simpl.
  - destruct (html_parser h html) as [soup|e] eqn:Hparse; simpl.
    + eexists; split; [reflexivity|].
      split; [discriminate|]. split.
      * intros html' e' H1 H2. injection H1 as <-. congruence.
      * intros html' soup' H1 H2. injection H1 as <-.
        rewrite Hparse in H2. injection H2 as <-. simpl.
        split; [reflexivity|]. split; [reflexivity|].
        split; [reflexivity|].
        destruct (parse_upwork_jobs soup); unfold Nat.ltb; simpl; split;
          intros; congruence.
    + eexists; split; [reflexivity|].
      split; [discriminate|]. split.
      * intros html' e' H1 H2. injection H1 as <-.
        rewrite Hparse in H2. injection H2 as <-. split; reflexivity.
      * intros html' soup' H1 H2. injection H1 as <-. congruence.
  - eexists; split; [reflexivity|].
    split; [|split; discriminate].
    intros e' H. injection H as <-. split; reflexivity.
Qed.

End ParserFacts.

(* ================================================================== *)
(** * Properties of SQLite values *)
(* ================================================================== *)

Module SqliteFacts.
Import Py Sqlite PyFacts.

Lemma is_true_eq (a b : value) :
  is_true (eq a b) = true <-> a <> Null /\ a = b.
Proof.
  destruct a as [|x|s], b as [|y|t]; simpl;
    try (split; [discriminate | intros [H E]; congruence]).
  - destruct (Z.eqb_spec x y).
    + subst; split; auto. split; [discriminate | reflexivity].
    + split; [discriminate | intros [_ E]; congruence].
  - destruct (str_eqb s t) eqn:E.
    + apply str_eqb_eq in E; subst. split; auto.
      split; [discriminate | reflexivity].
    + split; [discriminate|]. intros [_ E']. injection E' as ->.
      rewrite str_eqb_refl in E; discriminate.
Qed.

Lemma is_null_text_affinity (x : value) :
  is_null (text_affinity x) = is_null x.
Proof. destruct x; reflexivity. Qed.

Lemma existsb_map {A B : Type} (f : A -> B) (p : B -> bool) (l : list A) :
  existsb p (map f l) = existsb (fun x => p (f x)) l.
Proof. induction l; simpl; congruence. Qed.

(** [x IN (set)] when neither [x] nor a member of the set is NULL. *)
Lemma in_set_no_null (x : value) (set : list value) :
  x <> Null -> existsb is_null set = false ->
  in_set x set = Some (existsb (fun y => is_true (eq x y)) set).
Proof.
  intros Hx Hs. destruct set as [|y set]; [reflexivity|].
  unfold in_set. rewrite Hs. clear Hs.
  destruct x; [congruence| |];
    destruct (existsb _ (y :: set)); reflexivity.
Qed.

Lemma compare_trans (a b c : value) :
  Sqlite.compare a b <> Gt -> Sqlite.compare b c <> Gt ->
  Sqlite.compare a c <> Gt.
Proof.
  destruct a as [|x|s], b as [|y|t], c as [|z|r]; simpl; try congruence.
  - destruct (Z.compare_spec x y), (Z.compare_spec y z),
      (Z.compare_spec x z); subst; try lia; congruence.
  - apply str_compare_trans.
Qed.

Lemma leb_trans (a b c : value) :
  Sqlite.leb a b = true -> Sqlite.leb b c = true -> Sqlite.leb a c = true.
Proof.
  unfold Sqlite.leb. intros H1 H2.
  pose proof (@compare_trans a b c) as H.
  destruct (Sqlite.compare a b), (Sqlite.compare b c),
    (Sqlite.compare a c); try reflexivity; try discriminate;
    exfalso; apply H; congruence.
Qed.

Lemma fold_max_upper (i : Z) (ids : list Z) (x : Z) :
  In x (i :: ids) -> (x <= fold_right Z.max i ids)%Z.
Proof.
  induction ids as [|y ids IH]; simpl.
  - intros [->|[]]; lia.
  - intros [->|[->|H]].
    + specialize (IH (or_introl eq_refl)). lia.
    + lia.
    + specialize (IH (or_intror H)). lia.
Qed.

(** A new row id is larger than every row id of the table. *)
Lemma new_rowid_above (ids : list Z) (seq x : Z) :
  In x ids -> (x < new_rowid ids seq)%Z.
Proof.
  unfold new_rowid. destruct ids as [|i ids]; [intros []|].
  intros H. apply fold_max_upper in H. lia.
Qed.

Lemma new_rowid_fresh (ids : list Z) (seq : Z) :
  ~ In (new_rowid ids seq) ids.
Proof. intros H. apply (new_rowid_above _ seq) in H. lia. Qed.

End SqliteFacts.

(* ================================================================== *)
(** * Properties of the database layer *)
(* ================================================================== *)

Module DbFacts.
Import Py PyObj Sqlite Exc Db Cleanup Api Spec Storable Examples.
Import PyFacts SqliteFacts.

(** ** What each method changes *)

Lemma bind_param_str (s : pystr) : bind_param (PStr s) = Ok (Text s).
Proof. reflexivity. Qed.

Lemma bind_param_py_str (o : option pystr) :
  bind_param (py_str o)
  = Ok match o with Some s => Text s | None => Null end.
Proof. destruct o; reflexivity. Qed.

(** The database after [insert_or_ignore_job]. *)
Lemma insert_or_ignore_job_spec (row : Z -> job_row) (db : database) :
  let id := new_rowid (map j_id (jobs db)) (seq_jobs db) in
  let db' := fst (insert_or_ignore_job row db) in
  scraped_data db' = scraped_data db
  /\ cover_letters db' = cover_letters db
  /\ ((is_null (j_job_title (row id))
       || job_uid_taken (j_job_uid (row id)) (jobs db) = true
       /\ jobs db' = jobs db /\ snd (insert_or_ignore_job row db) = 0%Z)
      \/ (is_null (j_job_title (row id)) = false
          /\ job_uid_taken (j_job_uid (row id)) (jobs db) = false
          /\ jobs db' = jobs db ++ [row id]
          /\ snd (insert_or_ignore_job row db) = id)).
Proof.
  unfold insert_or_ignore_job. cbv zeta.
  destruct (is_null (j_job_title _)) eqn:E1; simpl.
  - repeat split; left; repeat split.
  - destruct (job_uid_taken _ _) eqn:E2; simpl; repeat split;
      [left | right]; repeat split.
Qed.

(** [add_job] as one step on the database. *)
Lemma add_job_unfold (scrape_id : Z) (job_data : pyval) (w : world) :
  add_job scrape_id job_data w
  = match job_parameters scrape_id job_data with
    | Raise e => (Raise e, w)
    | Ok v =>
        let r := insert_or_ignore_job
                   (job_row_of v (Text (w_clock w 0))) (w_db w) in
        (Ok (snd r),
         mkWorld (fst r) (fun n => w_clock w (S n)) (w_files w)
           (w_basename w))
    end.
Proof.
  unfold add_job, mbind, lift, current_timestamp, get_db, put_db, ret.
  destruct (job_parameters scrape_id job_data) as [v|e]; [|reflexivity].
  simpl. destruct (insert_or_ignore_job _ _); reflexivity.
Qed.

(** [add_scraped_data] writes to [scraped_data] only. *)
Lemma add_scraped_data_frame
    (scrape_type raw_content source_url file_path notes : pyval) (w : world) :
  let w' := snd (add_scraped_data scrape_type raw_content source_url
                   file_path notes w) in
  jobs (w_db w') = jobs (w_db w)
  /\ cover_letters (w_db w') = cover_letters (w_db w).
Proof.
  unfold add_scraped_data, mbind, lift, current_timestamp, get_db, put_db,
    ret, raise.
  destruct (bind_param scrape_type); simpl; auto.
  destruct (bind_param source_url); simpl; auto.
  destruct (bind_param raw_content); simpl; auto.
  destruct (bind_param file_path); simpl; auto.
  destruct (bind_param notes); simpl; auto.
  destruct (is_null _ || is_null _); simpl; auto.
Qed.

(** ** The parameters of [add_job] *)

Ltac bind_ok H :=
  match type of H with
  | Exc.bind ?m _ = Ok _ =>
      let E := fresh "E" in
      destruct m eqn:E; cbn [Exc.bind] in H; [|discriminate H]
  end.

Ltac bind_raise H solve_with :=
  match type of H with
  | Exc.bind ?m _ = Raise _ =>
      let E := fresh "E" in
      destruct m eqn:E; cbn [Exc.bind] in H;
      [|injection H as <-; solve_with E]
  end.

Lemma py_get_raise (d : pyval) (key : pystr) (default : pyval) (e : exn) :
  py_get d key default = Raise e -> e = AttributeError.
Proof.
  destruct d; simpl; try (intros H; injection H as <-; reflexivity).
  destruct (lookup key items); discriminate.
Qed.

Lemma bind_param_raise (v : pyval) (e : exn) :
  bind_param v = Raise e -> e = OverflowError \/ e = ProgrammingError.
Proof.
  destruct v; simpl; try discriminate;
    try (intros H; injection H as <-; auto).
  destruct (_ && _)%bool; [discriminate|].
  intros H; injection H as <-; auto.
Qed.

(** Building the parameters never fails on a constraint. *)
Lemma job_parameters_raise (scrape_id : Z) (job_data : pyval) (e : exn) :
  job_parameters scrape_id job_data = Raise e -> e <> IntegrityError.
Proof.
  unfold job_parameters. intros H.
  repeat (bind_raise H
            ltac:(fun E =>
                    first [ apply py_get_raise in E; subst; discriminate
                          | apply bind_param_raise in E;
                            destruct E; subst; discriminate ])).
  discriminate H.
Qed.

(** The bound [job_uid] is the one of the dictionary. *)
Lemma job_parameters_job_uid (scrape_id : Z) (items : list (pystr * pyval))
    (v : job_values) (uid : pyval) :
  job_parameters scrape_id (PDict items) = Ok v ->
  lookup (u "job_uid") items = Some uid ->
  bind_param uid = Ok (v_job_uid v).
Proof.
  unfold job_parameters. intros H Huid.
  repeat bind_ok H. injection H as <-. simpl.
  unfold py_get in E0. rewrite Huid in E0. injection E0 as <-.
  assumption.
Qed.

Lemma job_uid_taken_true (uid : value) (rows : list job_row) :
  job_uid_taken uid rows = true <->
  uid <> Null /\ exists r, In r rows /\ j_job_uid r = uid.
Proof.
  unfold job_uid_taken. rewrite existsb_exists. split.
  - intros [r [Hin H]]. apply is_true_eq in H as [Hn E].
    split; [congruence | exists r; auto].
  - intros [Hn [r [Hin E]]]. exists r. split; [assumption|].
    apply is_true_eq. split; congruence.
Qed.

(** An [add_job] whose [job_uid] is already in the table changes no row
    and raises no constraint error. *)
Lemma add_job_duplicate (w : world) (scrape_id : Z)
    (items : list (pystr * pyval)) (uid : pystr) (row : job_row) :
  In row (jobs (w_db w)) ->
  j_job_uid row = Text uid ->
  lookup (u "job_uid") items = Some (PStr uid) ->
  jobs (w_db (snd (add_job scrape_id (PDict items) w))) = jobs (w_db w)
  /\ fst (add_job scrape_id (PDict items) w) <> Raise IntegrityError
  /\ (forall v, job_parameters scrape_id (PDict items) = Ok v ->
      fst (add_job scrape_id (PDict items) w) = Ok 0%Z).
Proof.
  intros Hin Hrow Huid. rewrite add_job_unfold.
  destruct (job_parameters scrape_id (PDict items)) as [v|e] eqn:Hv.
  - pose proof (job_parameters_job_uid _ _ Hv Huid) as Hb.
    simpl in Hb. injection Hb as Hb.
    destruct (insert_or_ignore_job_spec
                (job_row_of v (Text (w_clock w 0))) (w_db w))
      as [_ [_ [[_ [Hj Hr]] | [_ [Hfree _]]]]].
    + cbn [fst snd w_db]. rewrite Hj, Hr.
      split; [reflexivity|]. split; [discriminate|].
      intros v' _; reflexivity.
    + exfalso. simpl in Hfree. rewrite <- Hb in Hfree. simpl in Hfree.
      assert (job_uid_taken (Text uid) (jobs (w_db w)) = true) as Ht.
      { apply job_uid_taken_true. split; [discriminate|].
        exists row; auto. }
      congruence.
  - simpl. split; [reflexivity|]. split; [|discriminate].
    intros H; injection H as ->.
    exact (job_parameters_raise _ _ Hv eq_refl).
Qed.

(** ** The constraints of the schema are invariants *)

Lemma job_uids_app (a b : list job_row) :
  job_uids (a ++ b) = job_uids a ++ job_uids b.
Proof. unfold job_uids. rewrite map_app, filter_app. reflexivity. Qed.

Lemma in_job_uids (x : value) (rows : list job_row) :
  In x (job_uids rows) <->
  x <> Null /\ exists r, In r rows /\ j_job_uid r = x.
Proof.
  unfold job_uids. rewrite filter_In, in_map_iff, negb_true_iff. split.
  - intros [[r [E Hin]] Hn]. split; [destruct x; simpl in *; congruence|].
    exists r; auto.
  - intros [Hn [r [Hin E]]]. split; [exists r; auto|].
    destruct x; simpl; congruence.
Qed.

Lemma NoDup_job_uids_filter (f : job_row -> bool) (rows : list job_row) :
  NoDup (job_uids rows) -> NoDup (job_uids (filter f rows)).
Proof.
  induction rows as [|r rows IH]; simpl; [auto|].
  unfold job_uids in *. simpl.
  destruct (negb (is_null (j_job_uid r))) eqn:En.
  - intros H. inversion H as [|? ? Hnin Hnd]; subst.
    destruct (f r); simpl; [|auto].
    rewrite En. constructor; [|auto].
    intros Hin. apply Hnin.
    apply in_job_uids in Hin as [Hn [r' [Hin E]]].
    apply in_job_uids. split; [assumption|].
    exists r'. split; [|assumption].
    apply filter_In in Hin; tauto.
  - intros H. destruct (f r); simpl; [rewrite En|]; auto.
Qed.

Lemma NoDup_job_uids_insert (row : job_row) (rows : list job_row) :
  NoDup (job_uids rows) ->
  job_uid_taken (j_job_uid row) rows = false ->
  NoDup (job_uids (rows ++ [row])).
Proof.
  intros Hnd Hfree. rewrite job_uids_app.
  apply NoDup_app; [assumption | |].
  - unfold job_uids; simpl. destruct (negb _); repeat constructor; auto.
  - intros x Hx Hrow.
    unfold job_uids in Hrow; simpl in Hrow.
    destruct (negb _); [|contradiction].
    destruct Hrow as [<-|[]].
    apply in_job_uids in Hx.
    apply job_uid_taken_true in Hx. congruence.
Qed.

(** Deleting rows keeps the row ids distinct. *)
Lemma NoDup_ids_filter (keep : job_row -> bool) (rows : list job_row) :
  NoDup (map j_id rows) -> NoDup (map j_id (filter keep rows)).
Proof.
  induction rows as [|r rows IH]; simpl; [auto|].
  intros H. inversion H as [|? ? Hnin Hnd]; subst.
  destruct (keep r); simpl; [|auto].
  constructor; [|auto].
  intros Hin. apply Hnin. apply in_map_iff in Hin as [r' [E Hr']].
  apply in_map_iff. exists r'. split; [assumption|].
  apply filter_In in Hr'; tauto.
Qed.

Lemma insert_or_ignore_job_constraints (row : Z -> job_row) (db : database) :
  (forall id, j_id (row id) = id) ->
  constraints_hold db -> constraints_hold (fst (insert_or_ignore_job row db)).
Proof.
  intros Hid [Hu [Hc Hk]].
  destruct (insert_or_ignore_job_spec row db)
    as [_ [Hcl [[_ [Hj _]] | [_ [Hfree [Hj _]]]]]];
    unfold constraints_hold; rewrite Hcl, Hj; auto.
  split; [apply NoDup_job_uids_insert; assumption|].
  split; [assumption|].
  rewrite map_app. apply NoDup_app; [assumption | |].
  - simpl. repeat constructor. intros [].
  - simpl. intros x Hx [<-|[]]. rewrite Hid in Hx.
    exact (new_rowid_fresh _ _ Hx).
Qed.

Lemma add_job_constraints (scrape_id : Z) (job_data : pyval) (w : world) :
  constraints_hold (w_db w) ->
  constraints_hold (w_db (snd (add_job scrape_id job_data w))).
Proof.
  intros H. rewrite add_job_unfold.
  destruct (job_parameters scrape_id job_data); simpl; [|assumption].
  apply insert_or_ignore_job_constraints; [reflexivity | assumption].
Qed.

Lemma add_jobs_constraints (scrape_id : Z) (js : list pyval) :
  forall (n : nat) (w : world),
    constraints_hold (w_db w) ->
    constraints_hold (w_db (snd (add_jobs scrape_id js n w))).
Proof.
  induction js as [|job js IH]; intros n w H; simpl; [assumption|].
  unfold mbind.
  pose proof (add_job_constraints scrape_id job w H) as H'.
  destruct (add_job scrape_id job w) as [[a|e] w']; simpl in *.
  - apply IH; assumption.
  - assumption.
Qed.

Lemma add_cover_letter_constraints (job_id : option Z)
    (ai_provider cover_letter_text notes : pyval) (w : world) :
  constraints_hold (w_db w) ->
  constraints_hold
    (w_db (snd (add_cover_letter job_id ai_provider cover_letter_text
                  notes w))).
Proof.
  intros H.
  unfold add_cover_letter, mbind, lift, current_timestamp, get_db, put_db,
    ret, raise.
  destruct (bind_param ai_provider); simpl; [|assumption].
  destruct (bind_param cover_letter_text); simpl; [|assumption].
  destruct (bind_param notes); simpl; [|assumption].
  destruct job_id as [z|]; simpl; [|assumption].
  destruct (is_null _ || is_null _); simpl; [assumption|].
  destruct H as [Hu [Hc Hk]]. repeat split; auto.
  apply Forall_app; split; [assumption|].
  repeat constructor. discriminate.
Qed.

Lemma update_cover_letter_status_constraints (cover_letter_id : Z)
    (status : pyval) (rating : option Z) (notes : pyval) (w : world) :
  constraints_hold (w_db w) ->
  constraints_hold
    (w_db (snd (update_cover_letter_status cover_letter_id status rating
                  notes w))).
Proof.
  intros H.
  unfold update_cover_letter_status, mbind, lift, get_db, put_db.
  destruct (bind_param status); simpl; [|assumption].
  destruct (bind_param notes); simpl; [|assumption].
  destruct H as [Hu [Hc Hk]]. repeat split; auto.
  apply Forall_map. eapply Forall_impl; [|exact Hc].
  intros cl H. destruct (Z.eqb _ _); assumption.
Qed.

Lemma Forall_filter_keeps {A : Type} (P : A -> Prop) (f : A -> bool)
    (l : list A) :
  Forall P l -> Forall P (filter f l).
Proof.
  rewrite !Forall_forall. intros H x Hx.
  apply filter_In in Hx. apply H, Hx.
Qed.

Lemma import_from_json_file_constraints (file_path : pystr)
    (scrape_type : pyval) (w : world) :
  constraints_hold (w_db w) ->
  constraints_hold (w_db (snd (import_from_json_file file_path scrape_type w))).
Proof.
  intros H.
  unfold import_from_json_file, mbind at 1, load_json.
  destruct (w_files w file_path) as [|e|data]; simpl; try assumption.
  unfold mbind at 1, lift.
  destruct (py_get data _ _) as [metadata|]; simpl; [|assumption].
  unfold mbind at 1.
  destruct (py_get metadata _ _) as [source_url|]; simpl; [|assumption].
  unfold mbind at 1, basename. simpl.
  unfold mbind at 1.
  pose proof (add_scraped_data_frame scrape_type (PStr (dumps data))
                source_url (PStr file_path)
                (PStr (u "Imported from " ++ w_basename w file_path)) w)
    as [Hj Hc].
  destruct (add_scraped_data _ _ _ _ _ w) as [[scrape_id|e] w1];
    simpl in Hj, Hc.
  2: { simpl. unfold constraints_hold. rewrite Hj, Hc. exact H. }
  assert (constraints_hold (w_db w1)) as H1.
  { unfold constraints_hold. rewrite Hj, Hc. exact H. }
  unfold mbind at 1.
  destruct data as [| | | | |items]; simpl; try assumption.
  destruct (lookup _ items) as [js|]; simpl; [|assumption].
  unfold mbind at 1, lift.
  destruct (py_iter js) as [l|]; simpl; [|assumption].
  pose proof (add_jobs_constraints scrape_id l 0 w1 H1) as H2.
  destruct (add_jobs scrape_id l 0 w1) as [[n|e] w2]; simpl in *;
    assumption.
Qed.

(** Every call keeps the constraints. *)
Lemma run_constraints (c : call) (w : world) :
  constraints_hold (w_db w) -> constraints_hold (w_db (run c w)).
Proof.
  intros H. destruct c; simpl.
  - destruct (add_scraped_data_frame scrape_type raw_content source_url
                file_path notes w) as [Hj Hc].
    unfold constraints_hold. rewrite Hj, Hc. exact H.
  - apply add_job_constraints; assumption.
  - apply add_cover_letter_constraints; assumption.
  - apply update_cover_letter_status_constraints; assumption.
  - destruct H as [Hu [Hc Hk]]. repeat split; auto.
    apply Forall_filter_keeps; assumption.
  - apply import_from_json_file_constraints; assumption.
  - unfold cleanup_scraped_data.
    destruct keep_ids; [assumption|].
    destruct (Nat.ltb _ _); assumption.
  - unfold cleanup_jobs.
    destruct keep_scrape_ids; [assumption|].
    destruct (Nat.ltb _ _); [|assumption].
    destruct H as [Hu [Hc Hk]]. repeat split; simpl; auto.
    + apply NoDup_job_uids_filter; assumption.
    + apply NoDup_ids_filter; assumption.
  - unfold cleanup_orphaned_cover_letters.
    destruct (Nat.ltb _ _); [|assumption].
    destruct H as [Hu [Hc Hk]]. repeat split; auto.
    apply Forall_filter_keeps; assumption.
Qed.

Lemma reachable_constraints (db : database) :
  reachable db -> constraints_hold db.
Proof.
  induction 1 as [|c w _ IH].
  - repeat split; constructor.
  - apply run_constraints; assumption.
Qed.

(** ** [job_uid] is unique *)

(** C1. [job_uid] is unique in [jobs].  In every state with a row whose
    [job_uid] is the text [uid], [add_job] with a job whose [job_uid] is
    [uid] leaves the rows of [jobs] as they are and raises no constraint
    error; and in every reachable state the non-null [job_uid]s of the
    rows of [jobs] are pairwise different. *)
Theorem job_uid_unique :
  (forall (w : world) (scrape_id : Z) (items : list (pystr * pyval))
          (uid : pystr) (row : job_row),
      In row (jobs (w_db w)) ->
      j_job_uid row = Text uid ->
      lookup (u "job_uid") items = Some (PStr uid) ->
      jobs (w_db (snd (add_job scrape_id (PDict items) w))) = jobs (w_db w)
      /\ fst (add_job scrape_id (PDict items) w) <> Raise IntegrityError)
  /\ (forall db : database, reachable db -> NoDup (job_uids (jobs db))).
Proof.
  split.
  - intros w scrape_id items uid row Hin Hrow Huid.
    destruct (@add_job_duplicate w scrape_id items uid row Hin Hrow Huid)
      as [H1 [H2 _]].
    split; assumption.
  - intros db H. apply reachable_constraints, H.
Qed.

Lemma job_uid_unique_example :
  (jobs (w_db (snd (add_job 2 job_a_second world_with_job_a)))
   = jobs (w_db world_with_job_a)
   /\ fst (add_job 2 job_a_second world_with_job_a) <> Raise IntegrityError)
  /\ NoDup (job_uids (jobs (w_db world_with_job_a))).
Proof.
  split.
  - apply (proj1 job_uid_unique world_with_job_a 2%Z
             [(u "job_uid", PStr (u "a")); (u "title", PStr (u "Second"))]
             (u "a")
             (job_row_of
                (mkJobValues (Integer 1) (Text (u "a")) (Text (u "First"))
                   Null Null Null Null Null Null Null Null
                   (Text (u "[]")) Null)
                (Text (u "2025-01-01 00:00:00")) 1%Z)).
    + left. reflexivity.
    + reflexivity.
    + reflexivity.
  - apply (proj2 job_uid_unique).
    apply (reachable_call (AddJob 1 job_a_first) new_world).
    apply reachable_new.
Defined.

(** ** What [add_job] returns *)

(** C8, as the code has it.  The value [add_job] returns tells whether
    the job was inserted.  On a database whose job ids are positive (as
    in every state the program reaches), for a job whose fields can be
    read and bound, [add_job] returns 0 exactly when [jobs] is left as it
    was, and 0 is the [id] of no row; it returns 0 whenever the [job_uid]
    is that of a row already there; and a result that is not 0 is the
    [id] of the one row appended, which holds the job's data and whose
    [id] no row had. *)
Theorem add_job_result_tells_insertion (w : world) (scrape_id : Z)
    (job_data : pyval) (v : job_values) :
  job_parameters scrape_id job_data = Ok v ->
  sqlite_integer scrape_id = true ->
  fields_storable v = true ->
  (0 <= seq_jobs (w_db w))%Z ->
  Forall (fun r => (0 < j_id r)%Z) (jobs (w_db w)) ->
  exists (i : Z) (w' : world),
    add_job scrape_id job_data w = (Ok i, w')
    /\ (i = 0%Z <-> jobs (w_db w') = jobs (w_db w))
    /\ (i = 0%Z -> forall r, In r (jobs (w_db w')) -> j_id r <> i)
    /\ (i <> 0%Z ->
        exists r,
          jobs (w_db w') = jobs (w_db w) ++ [r]
          /\ j_id r = i
          /\ holds r v
          /\ ~ In i (map j_id (jobs (w_db w))))
    /\ ((exists row, In row (jobs (w_db w))
                     /\ j_job_uid row = text_affinity (v_job_uid v)
                     /\ j_job_uid row <> Null) ->
        i = 0%Z).
Proof.
  intros Hv _ _ Hseq Hpos. rewrite add_job_unfold, Hv. cbv zeta.
  do 2 eexists. split; [reflexivity|]. cbn [w_db].
  set (row := job_row_of v (Text (w_clock w 0))).
  assert (0 < new_rowid (map j_id (jobs (w_db w))) (seq_jobs (w_db w)))%Z
    as Hnew by (unfold new_rowid; lia).
  destruct (insert_or_ignore_job_spec row (w_db w))
    as [_ [_ [[Hskip [Hj Hr]] | [Ht [Hu [Hj Hr]]]]]].
  - (* ignored *)
    rewrite Hr, Hj.
    split; [split; reflexivity|].
    split.
    { intros _ r Hin E. rewrite Forall_forall in Hpos.
      specialize (Hpos r Hin). lia. }
    split; [intros H; exfalso; apply H; reflexivity|].
    intros _. reflexivity.
  - (* inserted *)
    rewrite Hr, Hj.
    split.
    { split; [lia|]. intros E. exfalso.
      apply (f_equal (@List.length job_row)) in E.
      rewrite length_app in E. simpl in E. lia. }
    split; [lia|].
    split.
    { intros _. eexists. split; [reflexivity|].
      split; [reflexivity|]. split; [reflexivity|].
      apply new_rowid_fresh. }
    intros [r [Hin [E Hn]]]. exfalso.
    assert (job_uid_taken (text_affinity (v_job_uid v)) (jobs (w_db w))
            = true) as Htaken.
    { apply job_uid_taken_true. split; [rewrite <- E; exact Hn|].
      exists r. split; [exact Hin | exact E]. }
    cbn [row job_row_of j_job_uid] in Hu. rewrite Hu in Htaken.
    discriminate Htaken.
Qed.

Lemma add_job_result_tells_insertion_example :
  exists (i : Z) (w' : world),
    add_job 2 job_a_second world_with_job_a = (Ok i, w')
    /\ (i = 0%Z <-> jobs (w_db w') = jobs (w_db world_with_job_a))
    /\ (i = 0%Z -> forall r, In r (jobs (w_db w')) -> j_id r <> i)
    /\ (i <> 0%Z ->
        exists r,
          jobs (w_db w') = jobs (w_db world_with_job_a) ++ [r]
          /\ j_id r = i
          /\ holds r
               (mkJobValues (Integer 2) (Text (u "a")) (Text (u "Second"))
                  Null Null Null Null Null Null Null Null (Text (u "[]"))
                  Null)
          /\ ~ In i (map j_id (jobs (w_db world_with_job_a))))
    /\ ((exists row, In row (jobs (w_db world_with_job_a))
                     /\ j_job_uid row = text_affinity (Text (u "a"))
                     /\ j_job_uid row <> Null) ->
        i = 0%Z).
Proof.
  apply (@add_job_result_tells_insertion world_with_job_a 2%Z job_a_second
           (mkJobValues (Integer 2) (Text (u "a")) (Text (u "Second"))
              Null Null Null Null Null Null Null Null (Text (u "[]")) Null)).
  - reflexivity.
  - reflexivity.
  - reflexivity.
  - vm_compute. discriminate.
  - vm_compute. repeat constructor.
Defined.

(** C8 as stated fails in its conclusion, that a caller cannot tell from
    the value returned whether the job was inserted.  [add_job] of a job
    into a new database inserts the row of [id] 1 and returns 1; [add_job]
    of a second job with the same [job_uid] leaves [jobs] as it is and
    returns 0: the two results differ, and 0 is the [id] of no row. *)
Lemma ignored_insert_is_told_apart :
  fst (add_job 1 job_a_first new_world) = Ok 1%Z
  /\ map j_id (jobs (w_db (snd (add_job 1 job_a_first new_world)))) = [1%Z]
  /\ w_db (snd (add_job 1 job_a_first new_world)) = w_db world_with_job_a
  /\ fst (add_job 2 job_a_second world_with_job_a) = Ok 0%Z
  /\ jobs (w_db (snd (add_job 2 job_a_second world_with_job_a)))
     = jobs (w_db world_with_job_a).
Proof. repeat split; vm_compute; reflexivity. Qed.

(** ** Scrapes *)

(** C6, as the code has it.  A call of [add_scraped_data] whose
    [scrape_type] and [raw_content] are strings, all its strings being
    without a lone surrogate, inserts exactly one row
    into [scraped_data] and returns its [id], which no other row has.  The
    row holds the given [raw_content], the current time as
    [scrape_timestamp], the status ['active'], and as [source_url] the
    argument of that name: the given URL, or NULL when the caller gives
    none. *)
Theorem add_scraped_data_inserts_one_row (w : world)
    (scrape_type raw_content : pystr)
    (source_url file_path notes : option pystr) :
  encodable scrape_type = true ->
  encodable raw_content = true ->
  encodable_or_none source_url = true ->
  encodable_or_none file_path = true ->
  encodable_or_none notes = true ->
  exists (id : Z) (w' : world) (row : scraped_row),
    add_scraped_data (PStr scrape_type) (PStr raw_content)
      (py_str source_url) (py_str file_path) (py_str notes) w
    = (Ok id, w')
    /\ scraped_data (w_db w') = scraped_data (w_db w) ++ [row]
    /\ sd_id row = id
    /\ ~ In id (map sd_id (scraped_data (w_db w)))
    /\ sd_raw_content row = Text raw_content
    /\ sd_scrape_timestamp row = Text (w_clock w 0)
    /\ sd_source_url row
       = match source_url with Some url => Text url | None => Null end
    /\ sd_status row = Text (u "active").
Proof.
  intros _ _ _ _ _.
  unfold add_scraped_data, mbind, lift, current_timestamp, get_db, put_db,
    ret.
  rewrite !bind_param_str, !bind_param_py_str. simpl.
  do 3 eexists. split; [reflexivity|]. simpl.
  repeat split.
  - apply new_rowid_fresh.
  - destruct source_url; reflexivity.
Qed.

Lemma add_scraped_data_inserts_one_row_example :
  exists (id : Z) (w' : world) (row : scraped_row),
    add_scraped_data (PStr (u "browser")) (PStr (u "<html></html>"))
      (py_str (Some (u "https://www.upwork.com/nx/search/jobs/")))
      (py_str (Some (u "data/raw/page.html"))) (py_str None) new_world
    = (Ok id, w')
    /\ scraped_data (w_db w') = scraped_data (w_db new_world) ++ [row]
    /\ sd_id row = id
    /\ ~ In id (map sd_id (scraped_data (w_db new_world)))
    /\ sd_raw_content row = Text (u "<html></html>")
    /\ sd_scrape_timestamp row = Text (w_clock new_world 0)
    /\ sd_source_url row = Text (u "https://www.upwork.com/nx/search/jobs/")
    /\ sd_status row = Text (u "active").
Proof.
  apply (@add_scraped_data_inserts_one_row new_world (u "browser")
           (u "<html></html>")
           (Some (u "https://www.upwork.com/nx/search/jobs/"))
           (Some (u "data/raw/page.html")) None); reflexivity.
Defined.

(** C6 as stated fails for a scrape saved without a source URL, as the
    module does when it is run as a script
    ([add_scraped_data(scrape_type="test", raw_content=..., notes=...)]):
    the one row it stores has NULL for [source_url]. *)
Lemma scrape_without_source_url :
  fst (add_scraped_data (PStr (u "test")) (PStr (u "{}")) PNone PNone
         (PStr (u "Test data")) new_world)
  = Ok 1%Z
  /\ map sd_id
       (scraped_data
          (w_db (snd (add_scraped_data (PStr (u "test")) (PStr (u "{}"))
                        PNone PNone (PStr (u "Test data")) new_world))))
     = [1%Z]
  /\ map sd_source_url
       (scraped_data
          (w_db (snd (add_scraped_data (PStr (u "test")) (PStr (u "{}"))
                        PNone PNone (PStr (u "Test data")) new_world))))
     = [Null].
Proof. repeat split; reflexivity. Qed.

(** ** Importing a file *)

Lemma stored_or_duplicate_app (rows new_rows : list job_row)
    (v : job_values) :
  stored_or_duplicate rows v -> stored_or_duplicate (rows ++ new_rows) v.
Proof.
  intros [[r [Hin H]] | [Hn [r [Hin H]]]]; [left | right; split; auto];
    exists r; split; auto; apply in_or_app; auto.
Qed.

(** One [add_job] of a posting with a title. *)
Lemma add_job_stores (scrape_id : Z) (job : pyval) (v : job_values)
    (w : world) :
  job_parameters scrape_id job = Ok v ->
  exists (i : Z) (w' : world) (new_rows : list job_row),
    add_job scrape_id job w = (Ok i, w')
    /\ scraped_data (w_db w') = scraped_data (w_db w)
    /\ jobs (w_db w') = jobs (w_db w) ++ new_rows
    /\ (v_job_title v <> Null -> stored_or_duplicate (jobs (w_db w')) v).
Proof.
  intros Hv. rewrite add_job_unfold, Hv. cbv zeta.
  destruct (insert_or_ignore_job_spec
              (job_row_of v (Text (w_clock w 0))) (w_db w))
    as [Hs [_ [[Hskip [Hj _]] | [_ [_ [Hj _]]]]]].
  - do 2 eexists. exists []. split; [reflexivity|]. cbn [w_db].
    rewrite Hs, Hj, app_nil_r. repeat split.
    intros Ht. right.
    simpl in Hskip. rewrite is_null_text_affinity in Hskip.
    destruct (is_null (v_job_title v)) eqn:En;
      [destruct (v_job_title v); simpl in En; congruence|].
    simpl in Hskip. apply job_uid_taken_true in Hskip as [Hn [r [Hin E]]].
    split; [intros E'; rewrite E' in Hn; apply Hn; reflexivity|].
    exists r; auto.
  - do 2 eexists. eexists [_]. split; [reflexivity|]. cbn [w_db].
    rewrite Hs, Hj. repeat split.
    intros _. left. eexists. split; [apply in_or_app; right; left|];
      reflexivity.
Qed.

Lemma add_jobs_stores (scrape_id : Z) (js : list pyval) :
  Forall bindable js ->
  forall (n : nat) (w : world),
  exists (w' : world) (new_rows : list job_row),
    add_jobs scrape_id js n w = (Ok (n + List.length js), w')
    /\ scraped_data (w_db w') = scraped_data (w_db w)
    /\ jobs (w_db w') = jobs (w_db w) ++ new_rows
    /\ (forall job v,
          In job js -> job_parameters scrape_id job = Ok v ->
          v_job_title v <> Null ->
          stored_or_duplicate (jobs (w_db w')) v).
Proof.
  induction 1 as [|job js Hjob _ IH]; intros n w; simpl.
  - exists w, []. rewrite Nat.add_0_r, app_nil_r. repeat split.
    intros job v [].
  - destruct (Hjob scrape_id) as [v0 Hv0].
    destruct (@add_job_stores scrape_id job v0 w Hv0)
      as [i [w1 [rows1 [Ha [Hs1 [Hj1 Hst1]]]]]].
    destruct (IH (S n) w1) as [w' [rows2 [Hb [Hs2 [Hj2 Hst2]]]]].
    exists w', (rows1 ++ rows2). unfold mbind. rewrite Ha, Hb.
    split; [f_equal; f_equal; lia|].
    split; [congruence|].
    split; [rewrite Hj2, Hj1, app_assoc; reflexivity|].
    intros job' v [<-|Hin] Hv Ht.
    + rewrite Hv0 in Hv. injection Hv as <-.
      rewrite Hj2. apply stored_or_duplicate_app, Hst1, Ht.
    + exact (Hst2 job' v Hin Hv Ht).
Qed.

Lemma can_be_stored_bindable (js : list pyval) :
  Forall can_be_stored js -> Forall bindable js.
Proof.
  intros H. apply Forall_forall. intros job Hin scrape_id.
  rewrite Forall_forall in H.
  destruct (H job Hin scrape_id) as [v [Hv _]]. exists v. exact Hv.
Qed.

(** C3, as the code has it.  For a file that holds a JSON object whose
    ['metadata'] (if any) is an object with a ['url'] that can be bound,
    and whose ['jobs'] (if any) is a list of job objects that can be
    read and bound, the path, the scrape type and every string bound
    being without a lone surrogate and every integer within 64 bits,
    [import_from_json_file] returns [(scrape_id, jobs_added)]:
    [scrape_id] is the [id] of the one row it adds to [scraped_data], and
    [jobs_added] is the length of the ['jobs'] list (0 without that key).
    It removes no row of [jobs]; and for every posting of the list with a
    title, [jobs] then holds the posting or a row with the posting's
    non-null [job_uid].  (A posting without a title, or whose [job_uid]
    is taken, is skipped, and counted all the same.) *)
Theorem import_from_json_file_counts (w : world)
    (file_path scrape_type : pystr) (items : list (pystr * pyval))
    (js : list pyval) :
  w_files w file_path = JsonFile (PDict items) ->
  encodable file_path = true ->
  encodable (w_basename w file_path) = true ->
  encodable scrape_type = true ->
  (exists metadata url url_value,
      py_get (PDict items) (u "metadata") (PDict []) = Ok metadata
      /\ py_get metadata (u "url") PNone = Ok url
      /\ bind_param url = Ok url_value
      /\ storable url_value = true) ->
  (lookup (u "jobs") items = Some (PList js)
   \/ lookup (u "jobs") items = None /\ js = []) ->
  Forall can_be_stored js ->
  exists (scrape_id : Z) (w' : world) (scrape : scraped_row)
         (new_rows : list job_row),
    import_from_json_file file_path (PStr scrape_type) w
    = (Ok (scrape_id, List.length js), w')
    /\ scraped_data (w_db w') = scraped_data (w_db w) ++ [scrape]
    /\ sd_id scrape = scrape_id
    /\ jobs (w_db w') = jobs (w_db w) ++ new_rows
    /\ (forall job v,
          In job js -> job_parameters scrape_id job = Ok v ->
          v_job_title v <> Null ->
          stored_or_duplicate (jobs (w_db w')) v).
Proof.
  intros Hfile _ _ _ [metadata [url [url_value [Hm [Hu [Hb _]]]]]] Hjobs Hjs.
  apply can_be_stored_bindable in Hjs.
  unfold import_from_json_file, mbind at 1, load_json. rewrite Hfile.
  unfold mbind at 1, lift. rewrite Hm.
  unfold mbind at 1. rewrite Hu.
  unfold mbind at 1, basename. cbn [w_basename].
  unfold mbind at 1.
  unfold add_scraped_data at 1, mbind, lift, current_timestamp, get_db,
    put_db, ret.
  rewrite !bind_param_str, Hb. cbn [is_null orb fst snd w_db].
  set (w1 := mkWorld _ _ _ _).
  destruct Hjobs as [Hl | [Hl ->]]; rewrite Hl.
  - destruct (@add_jobs_stores
                (new_rowid (map sd_id (scraped_data (w_db w)))
                   (seq_scraped_data (w_db w))) js Hjs 0 w1)
      as [w' [rows [Ha [Hs [Hj Hst]]]]].
    cbn [py_iter]. rewrite Ha.
    do 4 eexists. split; [reflexivity|].
    split; [rewrite Hs; reflexivity|].
    split; [reflexivity|].
    split; [rewrite Hj; reflexivity|].
    exact Hst.
  - do 3 eexists. exists []. split; [reflexivity|].
    split; [reflexivity|]. split; [reflexivity|].
    split; [cbn [w_db jobs]; rewrite app_nil_r; reflexivity|].
    intros job v [].
Qed.

Lemma job_a_second_can_be_stored : can_be_stored job_a_second.
Proof. intros scrape_id. eexists. split; reflexivity. Qed.

(** The file's posting is stored by this import: the database is new. *)
Lemma import_from_json_file_counts_example :
  exists (scrape_id : Z) (w' : world) (scrape : scraped_row)
         (new_rows : list job_row),
    import_from_json_file (u "parsed.json") (PStr (u "imported"))
      new_world_with_file
    = (Ok (scrape_id, 1), w')
    /\ scraped_data (w_db w')
       = scraped_data (w_db new_world_with_file) ++ [scrape]
    /\ sd_id scrape = scrape_id
    /\ jobs (w_db w') = jobs (w_db new_world_with_file) ++ new_rows
    /\ (forall job v,
          In job [job_a_second] -> job_parameters scrape_id job = Ok v ->
          v_job_title v <> Null ->
          stored_or_duplicate (jobs (w_db w')) v).
Proof.
  apply (@import_from_json_file_counts new_world_with_file (u "parsed.json")
           (u "imported")
           [(u "metadata",
             PDict [(u "url",
                     PStr (u "https://www.upwork.com/nx/search/jobs/"))]);
            (u "jobs", PList [job_a_second])]
           [job_a_second]).
  - reflexivity.
  - reflexivity.
  - reflexivity.
  - reflexivity.
  - do 3 eexists. split; [reflexivity|]. split; [reflexivity|].
    split; reflexivity.
  - left. reflexivity.
  - constructor; [exact job_a_second_can_be_stored | constructor].
Defined.

(** C3 as stated fails when a posting is skipped: the file's only
    posting has the [job_uid] of a row of [jobs]; the import returns
    [jobs_added = 1], the length of the list, yet [jobs] is what it was
    and holds no row with the posting's data. *)
Lemma import_counts_a_skipped_posting :
  w_files world_with_file (u "parsed.json") = JsonFile parsed_file
  /\ fst (import_from_json_file (u "parsed.json") (PStr (u "imported"))
            world_with_file)
     = Ok (1%Z, 1)
  /\ jobs (w_db (snd (import_from_json_file (u "parsed.json")
                        (PStr (u "imported")) world_with_file)))
     = jobs (w_db world_with_file)
  /\ (forall r v,
        In r (jobs (w_db (snd (import_from_json_file (u "parsed.json")
                                 (PStr (u "imported")) world_with_file)))) ->
        job_parameters 1 job_a_second = Ok v -> ~ holds r v).
Proof.
  split; [reflexivity|]. split; [vm_compute; reflexivity|].
  split; [vm_compute; reflexivity|].
  intros r v Hin Hv Hh.
  vm_compute in Hv. injection Hv as <-.
  vm_compute in Hin. destruct Hin as [<-|[]].
  unfold holds in Hh. vm_compute in Hh. discriminate Hh.
Qed.

(** ** Cover letters of a job *)

Lemma newest_first_transitive :
  Transitive (fun a b => Datatypes.is_true (NewestFirst.leb a b)).
Proof.
  intros a b c H1 H2. unfold Datatypes.is_true, NewestFirst.leb in *.
  eapply leb_trans; eassumption.
Qed.

Lemma StronglySorted_map {A B : Type} (f : A -> B) (R : B -> B -> Prop)
    (l : list A) :
  StronglySorted (fun x y => R (f x) (f y)) l -> StronglySorted R (map f l).
Proof.
  induction 1 as [|x l _ IH HF]; simpl; constructor; [assumption|].
  apply Forall_map. exact HF.
Qed.

Lemma where_job_id (job_id : Z) (cl : cover_letter_row) :
  is_true (eq (cl_job_id cl) (Integer job_id)) = job_id_is job_id cl.
Proof.
  unfold job_id_is. destruct (cl_job_id cl); simpl; try reflexivity.
  destruct (Z.eqb z job_id); reflexivity.
Qed.

Lemma NoDup_map_injective {A B : Type} (f : A -> B) (l : list A)
    (a b : A) :
  NoDup (map f l) -> In a l -> In b l -> f a = f b -> a = b.
Proof.
  induction l as [|x l IH]; simpl; [intros _ []|].
  intros H Ha Hb E. inversion H as [|? ? Hnin Hnd]; subst.
  destruct Ha as [->|Ha], Hb as [->|Hb]; auto.
  - exfalso. apply Hnin. rewrite E. apply in_map, Hb.
  - exfalso. apply Hnin. rewrite <- E. apply in_map, Ha.
Qed.

(** C7, as the code has it.  In every reachable state each cover letter
    has a non-null [job_id], which is the [id] of at most one row of
    [jobs]; and [get_cover_letters_for_job(j)] returns the stored cover
    letters whose [job_id] is [j], each once, ordered by
    [generated_timestamp] from the latest to the earliest. *)
Theorem cover_letters_for_job (db : database) (job_id : Z) :
  reachable db ->
  Forall (fun cl => cl_job_id cl <> Null) (cover_letters db)
  /\ (forall cl j1 j2,
        In cl (cover_letters db) -> In j1 (jobs db) -> In j2 (jobs db) ->
        cl_job_id cl = Integer (j_id j1) ->
        cl_job_id cl = Integer (j_id j2) -> j1 = j2)
  /\ Permutation (get_cover_letters_for_job job_id db)
       (map cover_letter_dict_of
          (filter (job_id_is job_id) (cover_letters db)))
  /\ StronglySorted
       (fun a b =>
          Sqlite.leb (cd_generated_timestamp b) (cd_generated_timestamp a)
          = true)
       (get_cover_letters_for_job job_id db).
Proof.
  intros Hr.
  destruct (reachable_constraints Hr) as [_ [Hc Hk]].
  split; [exact Hc|]. split.
  { intros cl j1 j2 _ H1 H2 E1 E2.
    apply (NoDup_map_injective j_id (jobs db)); try assumption.
    congruence. }
  unfold get_cover_letters_for_job.
  rewrite (filter_ext _ _ (where_job_id job_id)).
  split.
  - apply Permutation_map, Permutation_sym, OrderBy.Permuted_sort.
  - apply StronglySorted_map.
    apply (OrderBy.StronglySorted_sort
             (filter (job_id_is job_id) (cover_letters db))
             newest_first_transitive).
Qed.

Lemma cover_letters_for_job_example :
  Forall (fun cl => cl_job_id cl <> Null)
    (cover_letters (w_db world_with_cover_letters))
  /\ (forall cl j1 j2,
        In cl (cover_letters (w_db world_with_cover_letters)) ->
        In j1 (jobs (w_db world_with_cover_letters)) ->
        In j2 (jobs (w_db world_with_cover_letters)) ->
        cl_job_id cl = Integer (j_id j1) ->
        cl_job_id cl = Integer (j_id j2) -> j1 = j2)
  /\ Permutation
       (get_cover_letters_for_job 1 (w_db world_with_cover_letters))
       (map cover_letter_dict_of
          (filter (job_id_is 1)
             (cover_letters (w_db world_with_cover_letters))))
  /\ StronglySorted
       (fun a b =>
          Sqlite.leb (cd_generated_timestamp b) (cd_generated_timestamp a)
          = true)
       (get_cover_letters_for_job 1 (w_db world_with_cover_letters)).
Proof.
  apply (@cover_letters_for_job (w_db world_with_cover_letters) 1%Z).
  unfold world_with_cover_letters.
  repeat apply reachable_call. apply reachable_new.
Defined.

Example get_cover_letters_for_job_newest_first :
  map cd_id (get_cover_letters_for_job 1 (w_db world_with_cover_letters))
  = [2%Z; 1%Z]
  /\ map cd_generated_timestamp
       (get_cover_letters_for_job 1 (w_db world_with_cover_letters))
     = [Text (u "2025-01-01 00:00:01"); Text (u "2025-01-01 00:00:00")].
Proof. split; vm_compute; reflexivity. Qed.

(** C7 as stated fails once a job is gone: after [add_job], an
    [add_cover_letter] for that job and a [cleanup_jobs] that deletes the
    job, the cover letter is still there, with the [job_id] of no row of
    [jobs]. *)
Lemma cover_letter_without_job :
  reachable (w_db world_with_orphan)
  /\ map cl_job_id (cover_letters (w_db world_with_orphan)) = [Integer 1]
  /\ jobs (w_db world_with_orphan) = [].
Proof.
  split; [|split; reflexivity].
  unfold world_with_orphan, world_with_job_a.
  repeat apply reachable_call. apply reachable_new.
Qed.

(** ** Orphaned cover letters *)

Lemma references_a_job_iff (js : list job_row) (cl : cover_letter_row) :
  references_a_job js cl = true <->
  exists j, In j js /\ cl_job_id cl = Integer (j_id j).
Proof.
  unfold references_a_job. destruct (cl_job_id cl) as [|z|s].
  - split; [discriminate | intros [j [_ H]]; discriminate].
  - rewrite existsb_exists. split.
    + intros [j [Hin E]]. apply Z.eqb_eq in E. subst. exists j; auto.
    + intros [j [Hin E]]. injection E as ->. exists j.
      split; [assumption | apply Z.eqb_refl].
  - split; [discriminate | intros [j [_ H]]; discriminate].
Qed.

(** [job_id NOT IN (SELECT id FROM jobs)] on a non-null [job_id]. *)
Lemma not_in_job_ids (js : list job_row) (cl : cover_letter_row) :
  cl_job_id cl <> Null ->
  is_true (not_in (cl_job_id cl) (map (fun j => Integer (j_id j)) js))
  = negb (references_a_job js cl).
Proof.
  intros Hn. unfold not_in.
  rewrite in_set_no_null; [|assumption|].
  2: { rewrite existsb_map. induction js; simpl; auto. }
  rewrite existsb_map. unfold references_a_job.
  destruct (cl_job_id cl) as [|z|s]; [congruence| |].
  - assert (existsb (fun j => is_true (eq (Integer z) (Integer (j_id j)))) js
            = existsb (fun j => Z.eqb (j_id j) z) js) as E.
    { induction js as [|j js IH]; simpl; [reflexivity|].
      rewrite <- IH, (Z.eqb_sym z (j_id j)).
      destruct (Z.eqb (j_id j) z); reflexivity. }
    rewrite E. clear E. destruct (existsb _ js); reflexivity.
  - assert (existsb (fun j => is_true (eq (Text s) (Integer (j_id j)))) js
            = false) as E.
    { induction js; simpl; auto. }
    rewrite E. reflexivity.
Qed.

(** The rows of the LEFT JOIN with [j.id IS NULL] for one cover letter. *)
Lemma left_join_orphan (js : list job_row) (cl : cover_letter_row) :
  filter is_null (left_join_jobs cl js)
  = if references_a_job js cl then [] else [Null].
Proof.
  unfold left_join_jobs.
  destruct (filter _ js) as [|j m] eqn:F.
  - destruct (references_a_job js cl) eqn:R; [|reflexivity].
    apply references_a_job_iff in R as [j [Hin E]].
    assert (In j []) as []. rewrite <- F. apply filter_In.
    split; [assumption|]. apply is_true_eq.
    split; [congruence | assumption].
  - assert (references_a_job js cl = true) as ->.
    { assert (In j (j :: m)) as Hin by (left; reflexivity).
      rewrite <- F in Hin. apply filter_In in Hin as [Hin E].
      apply is_true_eq in E as [_ E].
      apply references_a_job_iff. exists j; auto. }
    generalize (j :: m). intros l. induction l; simpl; auto.
Qed.

Lemma no_orphan_counted (js : list job_row) (cls : list cover_letter_row) :
  List.length
    (filter is_null (flat_map (fun cl => left_join_jobs cl js) cls)) = 0 ->
  filter (references_a_job js) cls = cls.
Proof.
  induction cls as [|cl cls IH]; simpl; [reflexivity|].
  rewrite filter_app, length_app, left_join_orphan.
  destruct (references_a_job js cl); simpl.
  - intros H. rewrite IH; auto.
  - discriminate.
Qed.

(** C10. On a database whose cover letters have a non-null [job_id] (the
    schema's NOT NULL), [cleanup_orphaned_cover_letters] leaves [jobs] as
    it is and keeps, in their order and unchanged, exactly the cover
    letters whose [job_id] is the [id] of a row of [jobs]. *)
Theorem cleanup_orphaned_cover_letters_exact (st : cleanup_stats)
    (db : database) :
  Forall (fun cl => cl_job_id cl <> Null) (cover_letters db) ->
  jobs (snd (cleanup_orphaned_cover_letters st db)) = jobs db
  /\ cover_letters (snd (cleanup_orphaned_cover_letters st db))
     = filter (references_a_job (jobs db)) (cover_letters db)
  /\ (forall cl,
        In cl (cover_letters (snd (cleanup_orphaned_cover_letters st db)))
        <-> In cl (cover_letters db)
            /\ exists j, In j (jobs db) /\ cl_job_id cl = Integer (j_id j)).
Proof.
  intros Hn.
  assert (jobs (snd (cleanup_orphaned_cover_letters st db)) = jobs db
          /\ cover_letters (snd (cleanup_orphaned_cover_letters st db))
             = filter (references_a_job (jobs db)) (cover_letters db))
    as [Hj Hc].
  { unfold cleanup_orphaned_cover_letters.
    destruct (Nat.ltb 0 _) eqn:E; simpl.
    - split; [reflexivity|].
      apply filter_ext_in. intros cl Hin.
      rewrite not_in_job_ids, negb_involutive; [reflexivity|].
      rewrite Forall_forall in Hn. apply Hn, Hin.
    - split; [reflexivity|].
      symmetry. apply no_orphan_counted.
      apply Nat.ltb_ge in E. lia. }
  split; [exact Hj|]. split; [exact Hc|].
  intros cl. rewrite Hc, filter_In, references_a_job_iff. reflexivity.
Qed.

Lemma cleanup_orphaned_cover_letters_example :
  jobs (snd (cleanup_orphaned_cover_letters no_stats database_with_orphan))
  = jobs database_with_orphan
  /\ cover_letters
       (snd (cleanup_orphaned_cover_letters no_stats database_with_orphan))
     = filter (references_a_job (jobs database_with_orphan))
         (cover_letters database_with_orphan)
  /\ (forall cl,
        In cl (cover_letters
                 (snd (cleanup_orphaned_cover_letters no_stats
                         database_with_orphan)))
        <-> In cl (cover_letters database_with_orphan)
            /\ exists j, In j (jobs database_with_orphan)
                         /\ cl_job_id cl = Integer (j_id j)).
Proof.
  apply (@cleanup_orphaned_cover_letters_exact no_stats
           database_with_orphan).
  repeat constructor; discriminate.
Defined.

End DbFacts.

(* ================================================================== *)
(** * More about the parser *)
(* ================================================================== *)

Module ParserProps.
Import Py Re Soup Exc Parser Spec Shape PyFacts ReFacts.

(** ** Texts without surrounding whitespace *)

Lemma lstrip_stops (s : pystr) : stops is_space (lstrip s).
Proof.
  induction s as [|c s IH]; simpl; [exact I|].
  destruct (is_space c) eqn:E; simpl; assumption.
Qed.

Lemma lstrip_fixed (s : pystr) : stops is_space s -> lstrip s = s.
Proof. destruct s as [|c s]; simpl; [auto|]. intros ->. reflexivity. Qed.

(** [lstrip] drops a prefix. *)
Lemma lstrip_suffix (s : pystr) : exists ws, s = ws ++ lstrip s.
Proof.
  induction s as [|c s [ws IH]]; simpl; [exists []; reflexivity|].
  destruct (is_space c).
  - exists (c :: ws). simpl. congruence.
  - exists []. reflexivity.
Qed.

Lemma stops_prefix (a b : pystr) :
  stops is_space (a ++ b) -> stops is_space a.
Proof. destruct a; simpl; auto. Qed.

Lemma strip_ends (s : pystr) :
  stops is_space (strip s) /\ stops is_space (rev (strip s)).
Proof.
  unfold strip, rstrip. split.
  - destruct (lstrip_suffix (rev (lstrip s))) as [ws E].
    apply (f_equal (@rev char)) in E.
    rewrite rev_involutive, rev_app_distr in E.
    pose proof (lstrip_stops s) as H. rewrite E in H.
    exact (stops_prefix _ _ H).
  - rewrite rev_involutive. apply lstrip_stops.
Qed.

Lemma strip_fixed (s : pystr) :
  stops is_space s -> stops is_space (rev s) -> strip s = s.
Proof.
  intros H1 H2. unfold strip, rstrip.
  rewrite (lstrip_fixed _ H1), (lstrip_fixed _ H2).
  apply rev_involutive.
Qed.

Lemma strip_strip (s : pystr) : strip (strip s) = strip s.
Proof. destruct (strip_ends s). apply strip_fixed; assumption. Qed.

Lemma stops_concat (l : list pystr) :
  Forall (fun s => s <> [] /\ stops is_space s) l ->
  stops is_space (List.concat l).
Proof.
  destruct 1 as [|s l [Hn Hs] _]; simpl; [exact I|].
  destruct s; [contradiction|]. exact Hs.
Qed.

Lemma rev_concat (l : list pystr) :
  rev (List.concat l) = List.concat (rev (map (@rev char) l)).
Proof.
  induction l as [|s l IH]; simpl; [reflexivity|].
  rewrite rev_app_distr, IH, concat_app. simpl.
  rewrite app_nil_r. reflexivity.
Qed.

Lemma get_text_strip_fixed (t : tag) :
  strip (get_text_strip t) = get_text_strip t.
Proof.
  unfold get_text_strip.
  set (pieces := flat_map strings_of (children t)).
  assert (Forall (fun s => s <> [] /\ stops is_space s
                           /\ stops is_space (rev s))
            (filter (fun s => negb (str_eqb s [])) (map strip pieces))) as H.
  { apply Forall_forall. intros s Hs.
    apply filter_In in Hs as [Hin Hne].
    apply in_map_iff in Hin as [x [<- _]].
    split.
    - apply str_eqb_nil. apply negb_true_iff. exact Hne.
    - apply strip_ends. }
  apply strip_fixed.
  - apply stops_concat. eapply Forall_impl; [|exact H]. simpl. tauto.
  - rewrite rev_concat. apply stops_concat.
    apply Forall_rev. apply Forall_map.
    eapply Forall_impl; [|exact H]. simpl.
    intros s [Hn [_ Hr]]. split; [|assumption].
    intros E. apply Hn. apply (f_equal (@rev char)) in E.
    rewrite rev_involutive in E. exact E.
Qed.

(** ** What the groups of a match hold *)

Lemma greedy_gives {R : Type} (cls : char -> bool) (k : pystr -> option R)
    (s : pystr) (r : R) :
  greedy cls k s = Some r -> exists s', k s' = Some r.
Proof.
  induction s as [|c s IH]; simpl.
  - intros H. exists []. exact H.
  - destruct (cls c).
    + destruct (greedy cls k s) as [r'|] eqn:E.
      * intros H. injection H as ->. apply IH. reflexivity.
      * intros H. exists (c :: s). exact H.
    + intros H. exists (c :: s). exact H.
Qed.

Lemma greedy_cap_gives {R : Type} (cls : char -> bool) (s : pystr) :
  forall (k : pystr -> pystr -> option R) (r : R),
    greedy_cap cls k s = Some r ->
    exists cap rest,
      Forall (fun c => cls c = true) cap /\ k cap rest = Some r.
Proof.
  induction s as [|c s IH]; intros k r; simpl.
  - intros H. exists [], []. split; [constructor | exact H].
  - destruct (cls c) eqn:Ec.
    + destruct (greedy_cap cls (fun cap rest => k (c :: cap) rest) s)
        as [r'|] eqn:E.
      * intros H. injection H as ->.
        apply IH in E as [cap [rest [Hc Hk]]].
        exists (c :: cap), rest. split; [constructor; assumption | exact Hk].
      * intros H. exists [], (c :: s). split; [constructor | exact H].
    + intros H. exists [], (c :: s). split; [constructor | exact H].
Qed.

Lemma match_here_groups (p : pattern) :
  forall (s : pystr) (groups : list pystr),
    match_here p s = Some groups ->
    Forall2 captured (group_classes p) groups.
Proof.
  induction p as [|a p IH]; intros s groups; simpl.
  - intros H. injection H as <-. constructor.
  - destruct a as [c|cls|cls|c|cls]; simpl.
    + destruct s as [|x s]; [discriminate|].
      destruct (char_eqb x c); [apply IH | discriminate].
    + intros H. apply greedy_gives in H as [s' H]. exact (IH _ _ H).
    + destruct s as [|x s]; [discriminate|].
      destruct (cls x); [|discriminate].
      intros H. apply greedy_gives in H as [s' H]. exact (IH _ _ H).
    + destruct s as [|x s]; [apply IH|].
      destruct (char_eqb x c); [|apply IH].
      destruct (match_here p s) as [r|] eqn:E; [|apply IH].
      intros H. injection H as <-. exact (IH _ _ E).
    + destruct s as [|x s]; [discriminate|].
      destruct (cls x) eqn:Ex; [|discriminate].
      intros H. apply greedy_cap_gives in H as [cap [rest [Hc H]]].
      destruct (match_here p rest) as [r|] eqn:E; [|discriminate].
      simpl in H. injection H as <-.
      constructor; [|exact (IH _ _ E)].
      split; [discriminate | constructor; assumption].
Qed.

Lemma search_groups (p : pattern) (s : pystr) (groups : list pystr) :
  search p s = Some groups -> Forall2 captured (group_classes p) groups.
Proof.
  induction s as [|c s IH]; simpl.
  - destruct (match_here p []) as [r|] eqn:E; [|discriminate].
    intros H. injection H as <-. exact (match_here_groups _ _ E).
  - destruct (match_here p (c :: s)) as [r|] eqn:E; [|exact IH].
    intros H. injection H as <-. exact (match_here_groups _ _ E).
Qed.

Lemma search_hourly_groups (text : pystr) (groups : list pystr) :
  search hourly_re text = Some groups ->
  amount (group 1 groups) /\ amount (group 2 groups).
Proof.
  intros H. apply search_groups in H.
  change (group_classes hourly_re) with [amount_char; amount_char] in H.
  inversion H as [|? a ? l1 Ha H1]; subst.
  inversion H1 as [|? b ? l2 Hb H2]; subst.
  inversion H2; subst. split; assumption.
Qed.

Lemma search_budget_groups (text : pystr) (groups : list pystr) :
  search budget_re text = Some groups -> amount (group 1 groups).
Proof.
  intros H. apply search_groups in H.
  change (group_classes budget_re) with [amount_char] in H.
  inversion H as [|? a ? l1 Ha H1]; subst.
  inversion H1; subst. assumption.
Qed.

(** ** The shape of a parsed job *)

Lemma job_info_item_shape (info : job_info) (text : pystr) :
  job_info_shape info -> job_info_shape (job_info_item info text).
Proof.
  unfold job_info_shape, job_info_item.
  intros [Ht [He [Hmm [Hmt [Hmin [Hmax [Hb Hd]]]]]]].
  destruct (contains (u "Fixed price") text).
  { simpl. repeat split; try tauto; try discriminate. }
  destruct (contains (u "Hourly:") text).
  { destruct (search hourly_re text) as [rate_match|] eqn:E.
    - destruct (search_hourly_groups _ E) as [[? ?] [? ?]].
      simpl. repeat split; try tauto; try discriminate.
    - simpl. repeat split; try tauto; try discriminate. }
  destruct (contains (u "Est. budget:") text).
  { destruct (search budget_re text) as [budget_match|] eqn:E.
    - destruct (search_budget_groups _ E) as [? ?].
      simpl. repeat split; tauto.
    - repeat split; tauto. }
  destruct (contains (u "Entry Level") text).
  { simpl. repeat split; tauto. }
  destruct (contains (u "Intermediate") text).
  { simpl. repeat split; tauto. }
  destruct (contains (u "Expert") text).
  { simpl. repeat split; tauto. }
  simpl.
  destruct (contains (u "Est. time:") text).
  { simpl. repeat split; try tauto. apply strip_strip. }
  repeat split; tauto.
Qed.

Lemma fold_job_info_shape (texts : list pystr) :
  forall info : job_info,
    job_info_shape info ->
    job_info_shape (fold_left job_info_item texts info).
Proof.
  induction texts as [|text texts IH]; intros info H; simpl; [exact H|].
  apply IH, job_info_item_shape, H.
Qed.

Lemma in_parse_upwork_jobs (job : job_data) (soup : tag) :
  In job (parse_upwork_jobs soup) ->
  exists job_element, job = parse_job_element job_element.
Proof.
  unfold parse_upwork_jobs. intros H.
  apply filter_In in H as [H _].
  apply in_map_iff in H as [e [<- _]]. exists e. reflexivity.
Qed.

(** X1. The [job_info] of every job [parse_upwork_jobs] returns: [type]
    is ['Fixed price'] or ['Hourly'] when present, [experience_level] one
    of the three levels, [hourly_rate_min] and [hourly_rate_max] are
    present together and only for a job that has a [type], the rates and
    the budget are non-empty runs of digits, commas and dots, and
    [duration] has no white space around it. *)
Theorem parsed_job_info_shape (soup : tag) :
  Forall (fun job => job_info_shape (jd_job_info job))
    (parse_upwork_jobs soup).
Proof.
  apply Forall_forall. intros job H.
  apply in_parse_upwork_jobs in H as [e ->].
  unfold parse_job_element; cbn [jd_job_info].
  apply fold_job_info_shape.
  unfold job_info_shape; simpl. repeat split; auto; discriminate.
Qed.

(** X2. The texts of every job [parse_upwork_jobs] returns (title, posted
    time, description and skills) have no white space at either end. *)
Theorem parsed_texts_are_stripped (soup : tag) :
  Forall (fun job =>
            when_present stripped (jd_title job)
            /\ when_present stripped (jd_posted_time job)
            /\ when_present stripped (jd_description job)
            /\ Forall stripped (jd_skills job))
    (parse_upwork_jobs soup).
Proof.
  apply Forall_forall. intros job H.
  apply in_parse_upwork_jobs in H as [e ->].
  unfold parse_job_element; cbn [jd_title jd_posted_time jd_description
                                   jd_skills].
  assert (forall o, when_present stripped (option_map get_text_strip o)) as Ho.
  { intros [t|]; simpl; [apply get_text_strip_fixed | exact I]. }
  repeat split; try apply Ho.
  apply Forall_forall. intros s Hs.
  apply filter_In in Hs as [Hs _].
  apply in_map_iff in Hs as [t [<- _]]. apply get_text_strip_fixed.
Qed.

(** X3. The [url] of every job [parse_upwork_jobs] returns is the [href]
    of the title link when that is empty or begins with [http], and
    [https://www.upwork.com] followed by the [href] otherwise: it is
    empty or begins with [http]. *)
Theorem parsed_job_url_is_absolute (soup : tag) :
  Forall (fun job =>
            when_present (fun url => url = [] \/ absolute url) (jd_url job))
    (parse_upwork_jobs soup).
Proof.
  apply Forall_forall. intros job H.
  apply in_parse_upwork_jobs in H as [e ->].
  unfold parse_job_element; cbn [jd_url].
  destruct (title_link e) as [link|]; [|exact I].
  unfold option_map, when_present, job_url, absolute.
  generalize (get link (u "href") []). intros [|c href]; [auto|].
  cbn [str_eqb negb andb].
  destruct (startswith (c :: href) (u "http")) eqn:Es; cbn [negb]; auto.
Qed.

(** X4. No skill of a job [parse_upwork_jobs] returns is empty or one of
    the indicators ['+1'] to ['+5'], and the [job_uid], when the job has
    one, is not empty. *)
Theorem parsed_skills_are_no_indicators (soup : tag) :
  Forall (fun job =>
            Forall (fun s => s <> [] /\ ~ In s more_indicators)
              (jd_skills job)
            /\ when_present (fun uid => uid <> []) (jd_job_uid job))
    (parse_upwork_jobs soup).
Proof.
  apply Forall_forall. intros job H.
  apply in_parse_upwork_jobs in H as [e ->].
  unfold parse_job_element; cbn [jd_skills jd_job_uid]. split.
  - apply Forall_forall. intros s Hs.
    apply filter_In in Hs as [_ Hs]. unfold is_skill in Hs.
    apply andb_true_iff in Hs as [H1 H2].
    apply negb_true_iff in H1, H2. split.
    + apply str_eqb_nil. exact H1.
    + intros Hin.
      assert (existsb (str_eqb s) more_indicators = true) as Hex.
      { apply existsb_exists. exists s. split; [exact Hin|].
        apply str_eqb_refl. }
      congruence.
  - destruct (str_eqb (get e (u "data-ev-job-uid") []) []) eqn:E; simpl;
      [exact I|].
    apply str_eqb_nil. exact E.
Qed.

End ParserProps.

(* ================================================================== *)
(** * More about the database *)
(* ================================================================== *)

Module DbProps.
Import Py PyObj Sqlite Exc Db Cleanup Api Spec Rows Storable Examples.
Import PyFacts SqliteFacts DbFacts.

(** ** Sorting rows whose timestamps are left alone *)

Section SortMap.
Variable f : cover_letter_row -> cover_letter_row.
Hypothesis f_timestamp :
  forall r, cl_generated_timestamp (f r) = cl_generated_timestamp r.

Lemma merge_map (l1 : list cover_letter_row) :
  forall l2,
    OrderBy.merge (map f l1) (map f l2) = map f (OrderBy.merge l1 l2).
Proof.
  induction l1 as [|a1 l1 IH1]; intros l2.
  - destruct l2; reflexivity.
  - induction l2 as [|a2 l2 IH2]; [reflexivity|].
    assert (NewestFirst.leb (f a1) (f a2) = NewestFirst.leb a1 a2) as E.
    { unfold NewestFirst.leb. rewrite !f_timestamp. reflexivity. }
    change (OrderBy.merge (map f (a1 :: l1)) (map f (a2 :: l2)))
      with (if NewestFirst.leb (f a1) (f a2)
            then f a1 :: OrderBy.merge (map f l1) (map f (a2 :: l2))
            else f a2 :: OrderBy.merge (map f (a1 :: l1)) (map f l2)).
    change (OrderBy.merge (a1 :: l1) (a2 :: l2))
      with (if NewestFirst.leb a1 a2
            then a1 :: OrderBy.merge l1 (a2 :: l2)
            else a2 :: OrderBy.merge (a1 :: l1) l2).
    rewrite E, IH1, IH2.
    destruct (NewestFirst.leb a1 a2); reflexivity.
Qed.

Definition map_stack (stack : list (option (list cover_letter_row))) :=
  map (option_map (map f)) stack.

Lemma merge_list_to_stack_map (stack : list (option (list cover_letter_row))) :
  forall l,
    OrderBy.merge_list_to_stack (map_stack stack) (map f l)
    = map_stack (OrderBy.merge_list_to_stack stack l).
Proof.
  induction stack as [|[l'|] stack IH]; intros l; simpl; try reflexivity.
  rewrite merge_map, IH. reflexivity.
Qed.

Lemma merge_stack_map (stack : list (option (list cover_letter_row))) :
  OrderBy.merge_stack (map_stack stack) = map f (OrderBy.merge_stack stack).
Proof.
  induction stack as [|[l|] stack IH]; simpl; try assumption; try reflexivity.
  rewrite IH, merge_map. reflexivity.
Qed.

Lemma iter_merge_map (l : list cover_letter_row) :
  forall stack,
    OrderBy.iter_merge (map_stack stack) (map f l)
    = map f (OrderBy.iter_merge stack l).
Proof.
  induction l as [|a l IH]; intros stack; simpl.
  - apply merge_stack_map.
  - rewrite <- IH. f_equal.
    apply (merge_list_to_stack_map stack [a]).
Qed.

Lemma sort_map (l : list cover_letter_row) :
  OrderBy.sort (map f l) = map f (OrderBy.sort l).
Proof. apply (iter_merge_map l []). Qed.

End SortMap.

(** ** Inserts that fail *)

(** X5. An [add_scraped_data], [add_job] or [add_cover_letter] that
    raises has changed no table; [add_job] never raises a constraint
    error and leaves even the clock as it was. *)
Theorem failed_insert_changes_no_table :
  (forall scrape_type raw_content source_url file_path notes w e w',
      add_scraped_data scrape_type raw_content source_url file_path notes w
      = (Raise e, w') ->
      w_db w' = w_db w)
  /\ (forall scrape_id job_data w e w',
        add_job scrape_id job_data w = (Raise e, w') ->
        w' = w /\ e <> IntegrityError)
  /\ (forall job_id ai_provider cover_letter_text notes w e w',
        add_cover_letter job_id ai_provider cover_letter_text notes w
        = (Raise e, w') ->
        w_db w' = w_db w).
Proof.
  split; [|split].
  - intros scrape_type raw_content source_url file_path notes w e w'.
    unfold add_scraped_data, mbind, lift, current_timestamp, get_db, put_db,
      ret, raise.
    destruct (bind_param scrape_type); [|intros H; injection H as _ <-; auto].
    destruct (bind_param source_url); [|intros H; injection H as _ <-; auto].
    destruct (bind_param raw_content); [|intros H; injection H as _ <-; auto].
    destruct (bind_param file_path); [|intros H; injection H as _ <-; auto].
    destruct (bind_param notes); [|intros H; injection H as _ <-; auto].
    cbn [w_db]. destruct (is_null _ || is_null _); [|discriminate].
    intros H; injection H as _ <-; auto.
  - intros scrape_id job_data w e w'. rewrite add_job_unfold.
    destruct (job_parameters scrape_id job_data) as [v|e'] eqn:E;
      [discriminate|].
    intros H; injection H as <- <-. split; [reflexivity|].
    exact (job_parameters_raise _ _ E).
  - intros job_id ai_provider cover_letter_text notes w e w'.
    unfold add_cover_letter, mbind, lift, current_timestamp, get_db, put_db,
      ret, raise.
    destruct (bind_param ai_provider); [|intros H; injection H as _ <-; auto].
    destruct (bind_param cover_letter_text);
      [|intros H; injection H as _ <-; auto].
    destruct (bind_param notes); [|intros H; injection H as _ <-; auto].
    cbn [w_db]. destruct (is_null _ || is_null _ || is_null _); [|discriminate].
    intros H; injection H as _ <-; auto.
Qed.

Lemma failed_insert_changes_no_table_example :
  w_db (snd (add_cover_letter None (PStr (u "gpt2")) (PStr (u "Dear")) PNone
               new_world))
  = w_db new_world.
Proof.
  apply (proj2 (proj2 failed_insert_changes_no_table) None (PStr (u "gpt2"))
           (PStr (u "Dear")) PNone new_world IntegrityError
           (snd (add_cover_letter None (PStr (u "gpt2")) (PStr (u "Dear"))
                   PNone new_world))).
  reflexivity.
Defined.

(** ** Cover letters: insert, update, delete and look up *)

Lemma where_job_id_new (job_id other : Z) (row : cover_letter_row) :
  cl_job_id row = Integer job_id ->
  filter (fun r => is_true (eq (cl_job_id r) (Integer other))) [row]
  = if Z.eqb job_id other then [row] else [].
Proof.
  intros E. simpl. rewrite E. simpl.
  destruct (Z.eqb job_id other); reflexivity.
Qed.

(** X6. [add_cover_letter] for a job id, with a provider and a text,
    returns an id that no cover letter had; afterwards
    [get_cover_letters_for_job] of that job id returns one more
    dictionary, with that id, the status ['generated'] and no rating,
    and returns for every other job id what it returned before.  (The
    job id need not be the id of a job.) *)
Theorem add_cover_letter_then_get (w : world) (job_id : Z)
    (ai_provider cover_letter_text : pystr) (notes : option pystr) :
  exists (id : Z) (w' : world),
    add_cover_letter (Some job_id) (PStr ai_provider)
      (PStr cover_letter_text) (py_str notes) w
    = (Ok id, w')
    /\ ~ In id (map cl_id (cover_letters (w_db w)))
    /\ Permutation (get_cover_letters_for_job job_id (w_db w'))
         (mkCoverLetterDict id (Text ai_provider) (Text cover_letter_text)
            (Text (w_clock w 0)) (Text (u "generated")) Null
            match notes with Some n => Text n | None => Null end
          :: get_cover_letters_for_job job_id (w_db w))
    /\ (forall other : Z,
          other <> job_id ->
          get_cover_letters_for_job other (w_db w')
          = get_cover_letters_for_job other (w_db w)).
Proof.
  unfold add_cover_letter, mbind, lift, current_timestamp, get_db, put_db,
    ret.
  rewrite !bind_param_str, bind_param_py_str. cbn [sql_int is_null orb].
  do 2 eexists. split; [reflexivity|]. cbn [w_db cover_letters].
  split; [apply new_rowid_fresh|].
  unfold get_cover_letters_for_job. cbn [cover_letters].
  assert (text_affinity match notes with Some n => Text n | None => Null end
          = match notes with Some n => Text n | None => Null end) as ->
    by (destruct notes; reflexivity).
  split.
  - rewrite filter_app.
    rewrite (@where_job_id_new job_id job_id) by reflexivity.
    rewrite Z.eqb_refl.
    match goal with
    | |- Permutation (map _ (OrderBy.sort (?X ++ [?row]))) _ =>
        change (Permutation
                  (map cover_letter_dict_of (OrderBy.sort (X ++ [row])))
                  (map cover_letter_dict_of (row :: OrderBy.sort X)))
    end.
    apply Permutation_map.
    eapply Permutation_trans;
      [apply Permutation_sym, OrderBy.Permuted_sort|].
    eapply Permutation_trans;
      [apply Permutation_sym, Permutation_cons_append|].
    apply perm_skip, OrderBy.Permuted_sort.
  - intros other Hne. rewrite filter_app.
    rewrite (@where_job_id_new job_id other) by reflexivity.
    destruct (Z.eqb_spec job_id other); [congruence|].
    rewrite app_nil_r. reflexivity.
Qed.

Lemma with_status_of (cover_letter_id : Z) (status rating notes : value)
    (r : cover_letter_row) :
  cover_letter_dict_of
    (if Z.eqb (cl_id r) cover_letter_id
     then mkCoverLetter (cl_id r) (cl_job_id r) (cl_ai_provider r)
            (cl_cover_letter_text r) (cl_generated_timestamp r)
            status rating notes
     else r)
  = with_status cover_letter_id status rating notes (cover_letter_dict_of r).
Proof.
  unfold with_status, cover_letter_dict_of. cbn [cd_id].
  destruct (Z.eqb (cl_id r) cover_letter_id); reflexivity.
Qed.

(** X7. [update_cover_letter_status] with a status text changes what
    [get_cover_letters_for_job] returns in this way only: the
    dictionaries and their order stay, and in those with the given id
    [status], [rating] and [notes] are replaced by the arguments; a
    rating or note that is not given is reset to NULL.  [scraped_data]
    and [jobs] are untouched. *)
Theorem update_cover_letter_status_then_get (w : world)
    (cover_letter_id : Z) (status : pystr) (rating : option Z)
    (notes : option pystr) (job_id : Z) :
  exists w' : world,
    update_cover_letter_status cover_letter_id (PStr status) rating
      (py_str notes) w
    = (Ok tt, w')
    /\ get_cover_letters_for_job job_id (w_db w')
       = map (with_status cover_letter_id (Text status) (sql_int rating)
                match notes with Some n => Text n | None => Null end)
           (get_cover_letters_for_job job_id (w_db w))
    /\ scraped_data (w_db w') = scraped_data (w_db w)
    /\ jobs (w_db w') = jobs (w_db w).
Proof.
  unfold update_cover_letter_status, mbind, lift, get_db, put_db.
  rewrite bind_param_str, bind_param_py_str.
  eexists. split; [reflexivity|]. cbn [w_db scraped_data jobs cover_letters].
  split; [|split; reflexivity].
  unfold get_cover_letters_for_job. cbn [cover_letters].
  set (g := fun r : cover_letter_row => if Z.eqb (cl_id r) cover_letter_id
                                        then _ else r).
  assert (forall r, cl_job_id (g r) = cl_job_id r) as Hj.
  { intros r. unfold g. destruct (Z.eqb _ _); reflexivity. }
  assert (forall r, cl_generated_timestamp (g r) = cl_generated_timestamp r)
    as Ht.
  { intros r. unfold g. destruct (Z.eqb _ _); reflexivity. }
  rewrite filter_map_swap.
  rewrite (filter_ext
             (fun r => is_true (eq (cl_job_id (g r)) (Integer job_id)))
             (fun r => is_true (eq (cl_job_id r) (Integer job_id))))
    by (intros r; rewrite Hj; reflexivity).
  rewrite (sort_map g Ht), !map_map.
  apply map_ext. intros r. unfold g.
  rewrite <- with_status_of. destruct notes; reflexivity.
Qed.

Lemma Permutation_filter_rows {A : Type} (keep : A -> bool)
    (rows rows' : list A) :
  Permutation rows rows' -> Permutation (filter keep rows) (filter keep rows').
Proof.
  induction 1 as [|x l l' _ IH|x y l|l l' l'' _ IH1 _ IH2]; simpl.
  - constructor.
  - destruct (keep x); [constructor|]; assumption.
  - destruct (keep x), (keep y); try apply Permutation_refl.
    apply perm_swap.
  - eapply Permutation_trans; eassumption.
Qed.

Lemma where_swap {A : Type} (p q : A -> bool) (rows : list A) :
  filter p (filter q rows) = filter q (filter p rows).
Proof.
  induction rows as [|r rows IH]; simpl; [reflexivity|].
  destruct (q r) eqn:Eq, (p r) eqn:Ep; simpl; rewrite ?Eq, ?Ep, IH;
    reflexivity.
Qed.

(** X8. After [delete_cover_letter], [get_cover_letters_for_job] returns
    for every job what it returned before without the dictionaries of
    the given id; deleting an id that no cover letter has changes
    nothing. *)
Theorem delete_cover_letter_then_get (w : world) (cover_letter_id : Z)
    (job_id : Z) :
  exists w' : world,
    delete_cover_letter cover_letter_id w = (Ok tt, w')
    /\ Permutation (get_cover_letters_for_job job_id (w_db w'))
         (filter (fun d => negb (Z.eqb (cd_id d) cover_letter_id))
            (get_cover_letters_for_job job_id (w_db w)))
    /\ (~ In cover_letter_id (map cl_id (cover_letters (w_db w))) ->
        w_db w' = w_db w).
Proof.
  unfold delete_cover_letter, mbind, get_db, put_db.
  eexists. split; [reflexivity|]. cbn [w_db]. split.
  - unfold get_cover_letters_for_job. cbn [cover_letters].
    rewrite filter_map_swap. cbn [cover_letter_dict_of cd_id].
    apply Permutation_map.
    eapply Permutation_trans;
      [apply Permutation_sym, OrderBy.Permuted_sort|].
    eapply Permutation_trans;
      [|apply Permutation_filter_rows, OrderBy.Permuted_sort].
    rewrite where_swap. apply Permutation_refl.
  - intros Hnin. destruct (w_db w) as [sd js cls s1 s2 s3]; simpl in *.
    f_equal. induction cls as [|r cls IH]; simpl; [reflexivity|].
    destruct (Z.eqb_spec (cl_id r) cover_letter_id) as [E|E]; simpl.
    + exfalso. apply Hnin. left. exact E.
    + f_equal. apply IH. intros H. apply Hnin. right. exact H.
Qed.

Lemma delete_cover_letter_then_get_example :
  w_db (snd (delete_cover_letter 7 world_with_cover_letters))
  = w_db world_with_cover_letters.
Proof.
  destruct (delete_cover_letter_then_get world_with_cover_letters 7 1)
    as [w' [E [_ H]]].
  rewrite E. apply H. vm_compute. intuition discriminate.
Defined.

(** ** What [add_job] returns *)

(** X9. For a job whose fields can be read and bound (its strings
    without a lone surrogate, the scrape id within 64 bits), on a
    database whose [sqlite_sequence] entry for [jobs] is not negative:
    when the title is missing or the [job_uid] is taken, [add_job]
    returns 0 and leaves [jobs] as it is; when the job has a title and
    its [job_uid] is not taken, it appends one row that holds the job's
    data and returns its id, which is positive and was the id of no
    row. *)
Theorem add_job_returns_new_id (w : world) (scrape_id : Z)
    (job_data : pyval) (v : job_values) :
  job_parameters scrape_id job_data = Ok v ->
  sqlite_integer scrape_id = true ->
  fields_storable v = true ->
  (0 <= seq_jobs (w_db w))%Z ->
  exists (id : Z) (w' : world),
    add_job scrape_id job_data w = (Ok id, w')
    /\ (id = 0%Z
        /\ jobs (w_db w') = jobs (w_db w)
        /\ (v_job_title v = Null
            \/ job_uid_taken (text_affinity (v_job_uid v)) (jobs (w_db w))
               = true)
        \/ (0 < id)%Z
           /\ ~ In id (map j_id (jobs (w_db w)))
           /\ jobs (w_db w')
              = jobs (w_db w) ++ [job_row_of v (Text (w_clock w 0)) id]
           /\ v_job_title v <> Null
           /\ job_uid_taken (text_affinity (v_job_uid v)) (jobs (w_db w))
              = false).
Proof.
  intros Hv _ _ Hseq. rewrite add_job_unfold, Hv. cbv zeta.
  do 2 eexists. split; [reflexivity|]. cbn [w_db].
  destruct (insert_or_ignore_job_spec
              (job_row_of v (Text (w_clock w 0))) (w_db w))
    as [_ [_ [[Hskip [Hj Hr]] | [Ht [Hfree [Hj Hr]]]]]].
  - left. rewrite Hr, Hj. split; [reflexivity|]. split; [reflexivity|].
    cbn [job_row_of j_job_title j_job_uid] in Hskip.
    rewrite is_null_text_affinity in Hskip.
    apply orb_true_iff in Hskip as [Hn|Hu]; [left | right; exact Hu].
    destruct (v_job_title v); simpl in Hn; congruence.
  - right. rewrite Hr, Hj.
    split.
    { unfold new_rowid. lia. }
    split; [apply new_rowid_fresh|]. split; [reflexivity|].
    split; [|exact Hfree].
    cbn [job_row_of j_job_title] in Ht.
    rewrite is_null_text_affinity in Ht.
    intros E. rewrite E in Ht. discriminate.
Qed.

Lemma add_job_returns_new_id_example :
  exists (id : Z) (w' : world),
    add_job 1 job_a_first new_world = (Ok id, w')
    /\ (id = 0%Z
        /\ jobs (w_db w') = jobs (w_db new_world)
        /\ (Text (u "First") = Null
            \/ job_uid_taken (text_affinity (Text (u "a")))
                 (jobs (w_db new_world))
               = true)
        \/ (0 < id)%Z
           /\ ~ In id (map j_id (jobs (w_db new_world)))
           /\ jobs (w_db w')
              = jobs (w_db new_world)
                ++ [job_row_of
                      (mkJobValues (Integer 1) (Text (u "a"))
                         (Text (u "First")) Null Null Null Null Null Null
                         Null Null (Text (u "[]")) Null)
                      (Text (w_clock new_world 0)) id]
           /\ Text (u "First") <> Null
           /\ job_uid_taken (text_affinity (Text (u "a")))
                (jobs (w_db new_world))
              = false).
Proof.
  apply (@add_job_returns_new_id new_world 1%Z job_a_first
           (mkJobValues (Integer 1) (Text (u "a")) (Text (u "First"))
              Null Null Null Null Null Null Null Null (Text (u "[]")) Null)).
  - reflexivity.
  - reflexivity.
  - reflexivity.
  - simpl. lia.
Defined.

(** ** Row ids *)

Lemma ids_hold_insert (ids : list Z) (seq : Z) :
  ids_hold ids seq -> ids_hold (ids ++ [new_rowid ids seq]) (new_rowid ids seq).
Proof.
  intros [Hnd [Hseq Hb]].
  assert (seq < new_rowid ids seq)%Z as Hnew by (unfold new_rowid; lia).
  split; [|split].
  - apply NoDup_app; [assumption | repeat constructor; intros [] |].
    intros x Hx [<-|[]]. exact (new_rowid_fresh _ _ Hx).
  - lia.
  - apply Forall_app. split.
    + eapply Forall_impl; [|exact Hb]. simpl. intros; lia.
    + repeat constructor; lia.
Qed.

Lemma ids_hold_skip (ids : list Z) (seq : Z) :
  ids_hold ids seq -> ids_hold ids (new_rowid ids seq).
Proof.
  intros [Hnd [Hseq Hb]].
  assert (seq < new_rowid ids seq)%Z as Hnew by (unfold new_rowid; lia).
  split; [assumption|]. split; [lia|].
  eapply Forall_impl; [|exact Hb]. simpl. intros; lia.
Qed.

(** The ids of the rows a DELETE leaves. *)
Lemma ids_hold_delete {A : Type} (id_of : A -> Z) (keep : A -> bool)
    (rows : list A) (seq : Z) :
  ids_hold (map id_of rows) seq ->
  ids_hold (map id_of (filter keep rows)) seq.
Proof.
  intros [Hnd [Hseq Hb]]. split; [|split; [assumption|]].
  - induction rows as [|r rows IH]; simpl; [constructor|].
    inversion Hnd as [|? ? Hnin Hnd']; subst.
    inversion Hb as [|? ? _ Hb']; subst.
    destruct (keep r); simpl; [|auto].
    constructor; [|auto].
    intros Hin. apply Hnin. apply in_map_iff in Hin as [r' [E Hr']].
    apply in_map_iff. exists r'. split; [assumption|].
    apply filter_In in Hr'. tauto.
  - apply Forall_forall. intros x Hx.
    apply in_map_iff in Hx as [r [<- Hr]]. apply filter_In in Hr as [Hr _].
    rewrite Forall_forall in Hb. apply Hb, in_map, Hr.
Qed.

Lemma add_scraped_data_keys
    (scrape_type raw_content source_url file_path notes : pyval) (w : world) :
  primary_keys_hold (w_db w) ->
  primary_keys_hold
    (w_db (snd (add_scraped_data scrape_type raw_content source_url
                  file_path notes w))).
Proof.
  intros H.
  unfold add_scraped_data, mbind, lift, current_timestamp, get_db, put_db,
    ret, raise.
  destruct (bind_param scrape_type); simpl; auto.
  destruct (bind_param source_url); simpl; auto.
  destruct (bind_param raw_content); simpl; auto.
  destruct (bind_param file_path); simpl; auto.
  destruct (bind_param notes); simpl; auto.
  destruct (is_null _ || is_null _); simpl; auto.
  destruct H as [H1 [H2 H3]]. split; [|split]; simpl; auto.
  rewrite map_app. apply ids_hold_insert, H1.
Qed.

Lemma add_job_keys (scrape_id : Z) (job_data : pyval) (w : world) :
  primary_keys_hold (w_db w) ->
  primary_keys_hold (w_db (snd (add_job scrape_id job_data w))).
Proof.
  intros H. rewrite add_job_unfold.
  destruct (job_parameters scrape_id job_data); simpl; [|assumption].
  destruct H as [H1 [H2 H3]].
  unfold insert_or_ignore_job.
  destruct (is_null _ || job_uid_taken _ _); split; simpl; auto; split; auto.
  - apply ids_hold_skip, H2.
  - rewrite map_app. apply ids_hold_insert, H2.
Qed.

Lemma add_jobs_keeps (P : world -> Prop) (scrape_id : Z) :
  (forall job w, P w -> P (snd (add_job scrape_id job w))) ->
  forall (js : list pyval) (n : nat) (w : world),
    P w -> P (snd (add_jobs scrape_id js n w)).
Proof.
  intros Hjob js. induction js as [|job js IH]; intros n w H; simpl;
    [assumption|].
  unfold mbind. specialize (Hjob job w H).
  destruct (add_job scrape_id job w) as [[a|e] w']; simpl in *.
  - apply IH; assumption.
  - assumption.
Qed.

(** What one call of [import_from_json_file] does to the world: nothing,
    one [add_scraped_data], or that and the loop of [add_job]. *)
Lemma import_from_json_file_keeps (P : world -> Prop) :
  (forall a b c d e w, P w -> P (snd (add_scraped_data a b c d e w))) ->
  (forall scrape_id job w, P w -> P (snd (add_job scrape_id job w))) ->
  forall (file_path : pystr) (scrape_type : pyval) (w : world),
    P w -> P (snd (import_from_json_file file_path scrape_type w)).
Proof.
  intros Hscrape Hjob file_path scrape_type w H.
  unfold import_from_json_file, mbind at 1, load_json.
  destruct (w_files w file_path) as [|e|data]; simpl; try assumption.
  unfold mbind at 1, lift.
  destruct (py_get data _ _) as [metadata|]; simpl; [|assumption].
  unfold mbind at 1.
  destruct (py_get metadata _ _) as [source_url|]; simpl; [|assumption].
  unfold mbind at 1, basename. simpl.
  unfold mbind at 1.
  pose proof (Hscrape scrape_type (PStr (dumps data)) source_url
                (PStr file_path)
                (PStr (u "Imported from " ++ w_basename w file_path)) w H)
    as H1.
  destruct (add_scraped_data _ _ _ _ _ w) as [[scrape_id|e] w1];
    simpl in H1; [|exact H1].
  unfold mbind at 1.
  destruct data as [| | | | |items]; simpl; try assumption.
  destruct (lookup _ items) as [js|]; simpl; [|assumption].
  unfold mbind at 1, lift.
  destruct (py_iter js) as [l|]; simpl; [|assumption].
  pose proof (@add_jobs_keeps P scrape_id (Hjob scrape_id) l 0 w1 H1) as H2.
  destruct (add_jobs scrape_id l 0 w1) as [[n|e] w2]; simpl in *;
    assumption.
Qed.

Lemma run_keys (c : call) (w : world) :
  primary_keys_hold (w_db w) -> primary_keys_hold (w_db (run c w)).
Proof.
  intros H. destruct c; simpl.
  - apply add_scraped_data_keys, H.
  - apply add_job_keys, H.
  - unfold add_cover_letter, mbind, lift, current_timestamp, get_db, put_db,
      ret, raise.
    destruct (bind_param ai_provider); simpl; auto.
    destruct (bind_param cover_letter_text); simpl; auto.
    destruct (bind_param notes); simpl; auto.
    destruct (is_null _ || is_null _ || is_null _); simpl; auto.
    destruct H as [H1 [H2 H3]]. split; [|split]; simpl; auto.
    rewrite map_app. apply ids_hold_insert, H3.
  - unfold update_cover_letter_status, mbind, lift, get_db, put_db.
    destruct (bind_param status); simpl; auto.
    destruct (bind_param notes); simpl; auto.
    destruct H as [H1 [H2 H3]]. split; [|split]; simpl; auto.
    rewrite map_map.
    rewrite (map_ext _ cl_id); [exact H3|].
    intros r. destruct (Z.eqb _ _); reflexivity.
  - destruct H as [H1 [H2 H3]]. split; [|split]; simpl; auto.
    apply ids_hold_delete, H3.
  - apply (import_from_json_file_keeps
             (fun w => primary_keys_hold (w_db w)));
      [intros; apply add_scraped_data_keys; assumption
      |intros; apply add_job_keys; assumption
      |exact H].
  - unfold cleanup_scraped_data.
    destruct keep_ids; [assumption|].
    destruct (Nat.ltb _ _); [|assumption].
    destruct H as [H1 [H2 H3]]. split; [|split]; simpl; auto.
    apply ids_hold_delete, H1.
  - unfold cleanup_jobs.
    destruct keep_scrape_ids; [assumption|].
    destruct (Nat.ltb _ _); [|assumption].
    destruct H as [H1 [H2 H3]]. split; [|split]; simpl; auto.
    apply ids_hold_delete, H2.
  - unfold cleanup_orphaned_cover_letters.
    destruct (Nat.ltb _ _); [|assumption].
    destruct H as [H1 [H2 H3]]. split; [|split]; simpl; auto.
    apply ids_hold_delete, H3.
Qed.

(** X10. In every state the program can reach, the ids of
    [scraped_data], of [jobs] and of [cover_letters] are distinct and
    positive, and none is above the table's entry in [sqlite_sequence],
    which is not negative.  (A new id is above that entry, so the id of
    a deleted row is never given to another row.) *)
Theorem row_ids_are_never_reused (db : database) :
  reachable db -> primary_keys_hold db.
Proof.
  induction 1 as [|c w _ IH].
  - repeat split; simpl; try constructor; lia.
  - apply run_keys, IH.
Qed.

Lemma row_ids_are_never_reused_example :
  primary_keys_hold (w_db world_with_orphan).
Proof.
  apply (@row_ids_are_never_reused (w_db world_with_orphan)).
  unfold world_with_orphan, world_with_job_a.
  repeat apply reachable_call. apply reachable_new.
Defined.

(** ** Importing appends *)

Lemma only_appended_refl (db : database) : only_appended db db.
Proof.
  split; [|split]; try reflexivity; exists []; rewrite app_nil_r;
    reflexivity.
Qed.

Lemma only_appended_trans (a b c : database) :
  only_appended a b -> only_appended b c -> only_appended a c.
Proof.
  intros [[s1 H1] [[j1 H2] H3]] [[s2 H4] [[j2 H5] H6]].
  split; [|split].
  - exists (s1 ++ s2). rewrite H4, H1, app_assoc. reflexivity.
  - exists (j1 ++ j2). rewrite H5, H2, app_assoc. reflexivity.
  - congruence.
Qed.

Lemma add_scraped_data_appends
    (scrape_type raw_content source_url file_path notes : pyval) (w : world) :
  only_appended (w_db w)
    (w_db (snd (add_scraped_data scrape_type raw_content source_url
                  file_path notes w)))
  /\ w_files (snd (add_scraped_data scrape_type raw_content source_url
                     file_path notes w)) = w_files w.
Proof.
  unfold add_scraped_data, mbind, lift, current_timestamp, get_db, put_db,
    ret, raise.
  destruct (bind_param scrape_type); simpl; auto using only_appended_refl.
  destruct (bind_param source_url); simpl; auto using only_appended_refl.
  destruct (bind_param raw_content); simpl; auto using only_appended_refl.
  destruct (bind_param file_path); simpl; auto using only_appended_refl.
  destruct (bind_param notes); simpl; auto using only_appended_refl.
  destruct (is_null _ || is_null _); simpl; auto using only_appended_refl.
  split; [|reflexivity]. split; [|split]; simpl.
  - eexists. reflexivity.
  - exists []. rewrite app_nil_r. reflexivity.
  - reflexivity.
Qed.

Lemma add_job_appends (scrape_id : Z) (job_data : pyval) (w : world) :
  only_appended (w_db w) (w_db (snd (add_job scrape_id job_data w)))
  /\ w_files (snd (add_job scrape_id job_data w)) = w_files w.
Proof.
  rewrite add_job_unfold.
  destruct (job_parameters scrape_id job_data) as [v|e]; simpl;
    auto using only_appended_refl.
  split; [|reflexivity].
  destruct (insert_or_ignore_job_spec
              (job_row_of v (Text (w_clock w 0))) (w_db w))
    as [Hs [Hc [[_ [Hj _]] | [_ [_ [Hj _]]]]]];
    (split; [|split]);
    try (exists []; rewrite app_nil_r; assumption); try assumption.
  eexists. exact Hj.
Qed.

(** X11. Whatever the file holds, and whether it returns or raises,
    [import_from_json_file] only appends: every row that was in
    [scraped_data] or [jobs] is still there, unchanged and in its place,
    before the rows that were added, and [cover_letters] is as it was. *)
Theorem import_from_json_file_only_appends (file_path : pystr)
    (scrape_type : pyval) (w : world) :
  only_appended (w_db w)
    (w_db (snd (import_from_json_file file_path scrape_type w))).
Proof.
  apply (import_from_json_file_keeps
           (fun w' => only_appended (w_db w) (w_db w'))).
  - intros a b c d e w' H.
    exact (only_appended_trans H (proj1 (add_scraped_data_appends a b c d e w'))).
  - intros scrape_id job w' H.
    exact (only_appended_trans H (proj1 (add_job_appends scrape_id job w'))).
  - apply only_appended_refl.
Qed.

(** ** Importing a file again *)

Lemma import_from_json_file_files (file_path : pystr) (scrape_type : pyval)
    (w : world) :
  w_files (snd (import_from_json_file file_path scrape_type w)) = w_files w.
Proof.
  apply (import_from_json_file_keeps (fun w' => w_files w' = w_files w)).
  - intros a b c d e w' H.
    rewrite (proj2 (add_scraped_data_appends a b c d e w')). exact H.
  - intros scrape_id job w' H.
    rewrite (proj2 (add_job_appends scrape_id job w')). exact H.
  - reflexivity.
Qed.

(** The bound values of a job do not depend on the scrape. *)
Lemma job_parameters_scrape_id (scrape_id scrape_id' : Z) (job : pyval)
    (v : job_values) :
  job_parameters scrape_id job = Ok v ->
  exists v',
    job_parameters scrape_id' job = Ok v'
    /\ v_job_title v' = v_job_title v /\ v_job_uid v' = v_job_uid v.
Proof.
  unfold job_parameters. intros H.
  repeat bind_ok H. injection H as <-.
  unfold Exc.bind.
  repeat match goal with
         | E : ?m = Ok _ |- _ => rewrite E; cbv beta iota
         end.
  eexists. split; [reflexivity|]. split; reflexivity.
Qed.

(** The loop over jobs that are all skipped. *)
Lemma add_jobs_known (scrape_id : Z) (js : list pyval) :
  forall (n : nat) (w : world),
    Forall bindable js ->
    (forall job v,
        In job js -> job_parameters scrape_id job = Ok v ->
        v_job_title v = Null
        \/ job_uid_taken (text_affinity (v_job_uid v)) (jobs (w_db w)) = true) ->
    exists w',
      add_jobs scrape_id js n w = (Ok (n + List.length js), w')
      /\ jobs (w_db w') = jobs (w_db w)
      /\ scraped_data (w_db w') = scraped_data (w_db w).
Proof.
  induction js as [|job js IH]; intros n w Hb Hk; simpl.
  - exists w. rewrite Nat.add_0_r. repeat split.
  - inversion Hb as [|? ? Hjob Hb']; subst.
    destruct (Hjob scrape_id) as [v Hv].
    unfold mbind. rewrite add_job_unfold, Hv. cbv zeta.
    destruct (insert_or_ignore_job_spec
                (job_row_of v (Text (w_clock w 0))) (w_db w))
      as [Hs [_ [[_ [Hj _]] | [Ht [Hfree _]]]]].
    + set (w1 := mkWorld _ _ _ _).
      destruct (IH (S n) w1 Hb') as [w' [Ha [Hj' Hs']]].
      { intros job' v' Hin Hv'. unfold w1. cbn [w_db]. rewrite Hj.
        apply (Hk job' v'); [right; assumption | assumption]. }
      exists w'. rewrite Ha. split; [f_equal; f_equal; lia|].
      unfold w1 in Hj', Hs'. cbn [w_db] in Hj', Hs'.
      split; congruence.
    + exfalso.
      cbn [job_row_of j_job_title j_job_uid] in Ht, Hfree.
      rewrite is_null_text_affinity in Ht.
      destruct (Hk job v (or_introl eq_refl) Hv) as [E|E].
      * rewrite E in Ht. discriminate.
      * congruence.
Qed.

(** The steps of an import of a well-formed file before its loop. *)
Lemma import_from_json_file_steps (w : world) (file_path scrape_type : pystr)
    (items : list (pystr * pyval)) (js : list pyval) :
  w_files w file_path = JsonFile (PDict items) ->
  (exists metadata url url_value,
      py_get (PDict items) (u "metadata") (PDict []) = Ok metadata
      /\ py_get metadata (u "url") PNone = Ok url
      /\ bind_param url = Ok url_value) ->
  lookup (u "jobs") items = Some (PList js) ->
  exists (scrape_id : Z) (w1 : world) (scrape : scraped_row),
    scraped_data (w_db w1) = scraped_data (w_db w) ++ [scrape]
    /\ sd_id scrape = scrape_id
    /\ ~ In scrape_id (map sd_id (scraped_data (w_db w)))
    /\ jobs (w_db w1) = jobs (w_db w)
    /\ import_from_json_file file_path (PStr scrape_type) w
       = match add_jobs scrape_id js 0 w1 with
         | (Ok n, w') => (Ok (scrape_id, n), w')
         | (Raise e, w') => (Raise e, w')
         end.
Proof.
  intros Hfile [metadata [url [url_value [Hm [Hu Hb]]]]] Hl.
  unfold import_from_json_file, mbind at 1, load_json. rewrite Hfile.
  unfold mbind at 1, lift. rewrite Hm.
  unfold mbind at 1. rewrite Hu.
  unfold mbind at 1, basename. cbn [w_basename].
  unfold mbind at 1.
  unfold add_scraped_data at 1, mbind, lift, current_timestamp, get_db,
    put_db, ret.
  rewrite !bind_param_str, Hb. cbn [is_null orb fst snd w_db].
  rewrite Hl. cbn [py_iter].
  do 3 eexists. split; [|split; [|split; [|split]]].
  5: reflexivity.
  - reflexivity.
  - reflexivity.
  - apply new_rowid_fresh.
  - reflexivity.
Qed.

(** X12. Importing a file a second time adds no job.  For a file that
    holds a dictionary with a URL that can be bound in its metadata and a
    list of jobs, whose fields can all be read and bound and which all
    have a [job_uid] that is a string (the path, the scrape type and
    every string bound being without a lone surrogate, every integer
    within 64 bits), a first
    [import_from_json_file] followed by a second one of the same file
    both return the length of the ['jobs'] list as [jobs_added]; the
    second adds one more row to [scraped_data], with a new id, and leaves
    [jobs] exactly as the first left it. *)
Theorem import_twice_adds_no_job (w : world) (file_path scrape_type : pystr)
    (items : list (pystr * pyval)) (js : list pyval) :
  w_files w file_path = JsonFile (PDict items) ->
  encodable file_path = true ->
  encodable (w_basename w file_path) = true ->
  encodable scrape_type = true ->
  (exists metadata url url_value,
      py_get (PDict items) (u "metadata") (PDict []) = Ok metadata
      /\ py_get metadata (u "url") PNone = Ok url
      /\ bind_param url = Ok url_value
      /\ storable url_value = true) ->
  lookup (u "jobs") items = Some (PList js) ->
  Forall can_be_stored js ->
  Forall has_job_uid js ->
  exists (id1 : Z) (w1 : world) (id2 : Z) (w2 : world) (scrape : scraped_row),
    import_from_json_file file_path (PStr scrape_type) w
    = (Ok (id1, List.length js), w1)
    /\ import_from_json_file file_path (PStr scrape_type) w1
       = (Ok (id2, List.length js), w2)
    /\ jobs (w_db w2) = jobs (w_db w1)
    /\ scraped_data (w_db w2) = scraped_data (w_db w1) ++ [scrape]
    /\ sd_id scrape = id2
    /\ id2 <> id1.
Proof.
  intros Hfile _ _ _ [metadata [url [url_value [Hm [Hurl [Hbind _]]]]]] Hl Hb
    Hu.
  assert (exists metadata url url_value,
             py_get (PDict items) (u "metadata") (PDict []) = Ok metadata
             /\ py_get metadata (u "url") PNone = Ok url
             /\ bind_param url = Ok url_value) as Hmeta.
  { exists metadata, url, url_value. auto. }
  apply can_be_stored_bindable in Hb.
  destruct (import_from_json_file_steps w file_path scrape_type Hfile Hmeta Hl)
    as [id1 [wa [scrape1 [Hs1 [Hid1 [_ [Hj1 E1]]]]]]].
  destruct (@add_jobs_stores id1 js Hb 0 wa)
    as [w1 [rows [Ha [Hsa [Hja Hst]]]]].
  rewrite Ha in E1. cbn [Nat.add] in E1.
  assert (w_files w1 file_path = JsonFile (PDict items)) as Hfile1.
  { pose proof (import_from_json_file_files file_path (PStr scrape_type) w)
      as Hf.
    rewrite E1 in Hf. cbn [snd] in Hf. rewrite Hf. exact Hfile. }
  destruct (import_from_json_file_steps w1 file_path scrape_type Hfile1 Hmeta
              Hl)
    as [id2 [wb [scrape2 [Hs2 [Hid2 [Hfresh [Hj2 E2]]]]]]].
  destruct (@add_jobs_known id2 js 0 wb Hb) as [w2 [Hb2 [Hjb Hsb]]].
  { intros job v2 Hin Hv2. rewrite Hj2.
    destruct (@job_parameters_scrape_id id2 id1 job v2 Hv2)
      as [v1 [Hv1 [Et Eu]]].
    rewrite <- Et, <- Eu.
    destruct (v_job_title v1) eqn:Etitle; [left; reflexivity | right | right].
    all: rewrite Forall_forall in Hu;
      destruct (Hu job Hin) as [items' [uid [-> Huid]]];
      pose proof (job_parameters_job_uid _ _ Hv1 Huid) as Hbound;
      simpl in Hbound; injection Hbound as Hbound;
      apply job_uid_taken_true; rewrite <- Hbound;
      (split; [discriminate|]);
      assert (v_job_title v1 <> Null) as Hne by (rewrite Etitle; discriminate);
      destruct (Hst _ v1 Hin Hv1 Hne) as [[r [Hr Hh]] | [_ [r [Hr Hh]]]];
      exists r; (split; [exact Hr|]);
      [ rewrite Hh; cbn [job_row_of j_job_uid]; rewrite <- Hbound;
        reflexivity
      | rewrite Hh, <- Hbound; reflexivity ]. }
  rewrite Hb2 in E2. cbn [Nat.add] in E2.
  exists id1, w1, id2, w2, scrape2.
  split; [exact E1|]. split; [exact E2|].
  split; [congruence|]. split; [congruence|]. split; [exact Hid2|].
  intros E. apply Hfresh. rewrite Hsa, Hs1, map_app, E, <- Hid1.
  apply in_or_app. right. left. reflexivity.
Qed.

(** The first import stores the file's posting (the database is new);
    the second stores none. *)
Lemma import_twice_adds_no_job_example :
  exists (id1 : Z) (w1 : world) (id2 : Z) (w2 : world) (scrape : scraped_row),
    import_from_json_file (u "parsed.json") (PStr (u "existing_data"))
      new_world_with_file
    = (Ok (id1, 1), w1)
    /\ import_from_json_file (u "parsed.json") (PStr (u "existing_data")) w1
       = (Ok (id2, 1), w2)
    /\ jobs (w_db w2) = jobs (w_db w1)
    /\ scraped_data (w_db w2) = scraped_data (w_db w1) ++ [scrape]
    /\ sd_id scrape = id2
    /\ id2 <> id1.
Proof.
  apply (@import_twice_adds_no_job new_world_with_file (u "parsed.json")
           (u "existing_data")
           [(u "metadata",
             PDict [(u "url",
                     PStr (u "https://www.upwork.com/nx/search/jobs/"))]);
            (u "jobs", PList [job_a_second])]
           [job_a_second]).
  - reflexivity.
  - reflexivity.
  - reflexivity.
  - reflexivity.
  - do 3 eexists. split; [reflexivity|]. split; [reflexivity|].
    split; reflexivity.
  - reflexivity.
  - constructor; [exact job_a_second_can_be_stored | constructor].
  - constructor; [|constructor].
    exists [(u "job_uid", PStr (u "a")); (u "title", PStr (u "Second"))],
      (u "a").
    split; reflexivity.
Defined.

End DbProps.

(* ================================================================== *)
(** * Queries and cleanup *)
(* ================================================================== *)

Module QueryProps.
Import Py PyObj Sqlite Exc Db Cleanup Api Spec Rows Queries Scripts Latest.
Import Examples PyFacts SqliteFacts DbFacts.

(** ** ORDER BY and LIMIT *)

Lemma leb_false (a b : value) : leb a b = false -> leb b a = true.
Proof.
  unfold leb. rewrite (NewestFirst.compare_antisym a b).
  destruct (Sqlite.compare a b); simpl; congruence.
Qed.

Lemma leb_same (a : value) : leb a a = true.
Proof.
  pose proof (NewestFirst.compare_antisym a a) as H. unfold leb.
  destruct (Sqlite.compare a a); simpl in H; try reflexivity; discriminate.
Qed.

Section OrderBy.
Context {A : Type}.
Variable key : A -> value.

Lemma insert_desc_perm (x : A) (l : list A) :
  Permutation (x :: l) (insert_desc key x l).
Proof.
  induction l as [|y l IH]; simpl; [apply Permutation_refl|].
  destruct (leb (key y) (key x)); [apply Permutation_refl|].
  eapply Permutation_trans; [apply perm_swap|].
  apply perm_skip, IH.
Qed.

Lemma order_by_desc_perm (l : list A) : Permutation l (order_by_desc key l).
Proof.
  induction l as [|x l IH]; simpl; [constructor|].
  eapply Permutation_trans; [apply perm_skip, IH|].
  apply insert_desc_perm.
Qed.

Lemma insert_desc_sorted (x : A) (l : list A) :
  newest_first key l -> newest_first key (insert_desc key x l).
Proof.
  unfold newest_first.
  induction 1 as [|y l Hs IH Hy]; simpl; [repeat constructor|].
  destruct (leb (key y) (key x)) eqn:E.
  - constructor; [constructor; assumption|].
    constructor; [exact E|].
    eapply Forall_impl; [|exact Hy]. simpl.
    intros z Hz. exact (leb_trans _ _ _ Hz E).
  - constructor; [exact IH|].
    apply Forall_forall. intros z Hz.
    apply (Permutation_in _ (Permutation_sym (insert_desc_perm x l))) in Hz.
    destruct Hz as [<-|Hz].
    + apply leb_false, E.
    + rewrite Forall_forall in Hy. apply Hy, Hz.
Qed.

Lemma order_by_desc_sorted (l : list A) :
  newest_first key (order_by_desc key l).
Proof.
  induction l as [|x l IH]; simpl; [constructor|].
  apply insert_desc_sorted, IH.
Qed.

Lemma newest_first_split (a b : list A) :
  newest_first key (a ++ b) ->
  newest_first key a
  /\ forall x y, In x a -> In y b -> leb (key y) (key x) = true.
Proof.
  unfold newest_first. induction a as [|z a IH]; simpl.
  - intros _. split; [constructor | intros x y []].
  - intros H. inversion H as [|? ? Hs Hz]; subst.
    destruct (IH Hs) as [Ha Hab]. split.
    + constructor; [exact Ha|].
      apply Forall_app in Hz. tauto.
    + intros x y [<-|Hx] Hy.
      * rewrite Forall_forall in Hz. apply Hz, in_or_app. right. exact Hy.
      * apply Hab; assumption.
Qed.

(** The rows of [ORDER BY key DESC LIMIT n]. *)
Lemma sql_limit_latest (n : Z) (l : list A) :
  latest_of key (sql_limit n (order_by_desc key l)) l
  /\ newest_first key (sql_limit n (order_by_desc key l))
  /\ List.length (sql_limit n (order_by_desc key l))
     = limited n (List.length l).
Proof.
  pose proof (order_by_desc_perm l) as Hp.
  pose proof (order_by_desc_sorted l) as Hs.
  unfold sql_limit, limited.
  rewrite (Permutation_length Hp).
  destruct (n <? 0)%Z.
  - split; [|split; [exact Hs | reflexivity]].
    exists []. rewrite app_nil_r.
    split; [apply Permutation_sym, Hp | intros x y _ []].
  - rewrite <- (firstn_skipn (Z.to_nat n) (order_by_desc key l)) in Hs.
    apply newest_first_split in Hs as [Hs Hab].
    split; [|split; [exact Hs | apply length_firstn]].
    exists (skipn (Z.to_nat n) (order_by_desc key l)).
    rewrite firstn_skipn. split; [apply Permutation_sym, Hp | exact Hab].
Qed.

End OrderBy.

(** X13. [get_latest_jobs(limit)] returns [(id, job_title, description)]
    of [limit] jobs (of all, when there are fewer or [limit] is
    negative), ordered from the latest [parsed_timestamp] to the
    earliest; no job left out was parsed later than one returned. *)
Theorem get_latest_jobs_are_the_latest (limit : Z) (db : database) :
  exists latest : list job_row,
    get_latest_jobs limit db
    = map (fun r => (j_id r, j_job_title r, j_description r)) latest
    /\ latest_of j_parsed_timestamp latest (jobs db)
    /\ newest_first j_parsed_timestamp latest
    /\ List.length latest = limited limit (List.length (jobs db)).
Proof.
  eexists. split; [reflexivity|].
  apply sql_limit_latest.
Qed.

(** ** Cover letters with their jobs *)

Lemma in_join_jobs (cls : list cover_letter_row) (js : list job_row)
    (cl : cover_letter_row) (j : job_row) :
  In (cl, j) (join_jobs cls js) <->
  In cl cls /\ In j js /\ cl_job_id cl = Integer (j_id j).
Proof.
  unfold join_jobs. rewrite in_flat_map. split.
  - intros [cl' [Hcl H]]. apply in_map_iff in H as [j' [E Hj]].
    injection E as -> ->. apply filter_In in Hj as [Hj Hm].
    apply is_true_eq in Hm. tauto.
  - intros [Hcl [Hj E]]. exists cl. split; [exact Hcl|].
    apply in_map, filter_In. split; [exact Hj|].
    apply is_true_eq. split; [congruence | exact E].
Qed.

(** With PRIMARY KEY on [jobs.id], a cover letter joins with one job at
    most. *)
Lemma join_one_job (js : list job_row) (cl : cover_letter_row) :
  NoDup (map j_id js) ->
  List.length
    (filter (fun j => is_true (eq (cl_job_id cl) (Integer (j_id j)))) js)
  = if references_a_job js cl then 1 else 0.
Proof.
  unfold references_a_job. destruct (cl_job_id cl) as [|z|s].
  - intros _. induction js; simpl; auto.
  - rewrite (filter_ext _ (fun j => Z.eqb (j_id j) z)).
    2: { intros j. simpl. rewrite (Z.eqb_sym z (j_id j)).
         destruct (Z.eqb (j_id j) z); reflexivity. }
    induction js as [|j js IH]; simpl; [reflexivity|].
    intros H. inversion H as [|? ? Hnin Hnd]; subst.
    destruct (Z.eqb_spec (j_id j) z) as [E|Hne]; simpl.
    + rewrite IH by assumption.
      destruct (existsb _ js) eqn:Ex; [|reflexivity].
      exfalso. apply Hnin. apply existsb_exists in Ex as [j' [Hj' Ex]].
      apply Z.eqb_eq in Ex. rewrite E, <- Ex. apply in_map, Hj'.
    + apply IH, Hnd.
  - intros _. induction js; simpl; auto.
Qed.

Lemma length_join_jobs (cls : list cover_letter_row) (js : list job_row) :
  NoDup (map j_id js) ->
  List.length (join_jobs cls js)
  = List.length (filter (references_a_job js) cls).
Proof.
  intros Hk. unfold join_jobs.
  induction cls as [|cl cls IH]; simpl; [reflexivity|].
  rewrite length_app, length_map, join_one_job, IH by assumption.
  destruct (references_a_job js cl); reflexivity.
Qed.

(** X14. [get_recent_cover_letters(limit)] returns the latest [limit] of
    the pairs of a cover letter and the job whose [id] is its [job_id],
    from the latest [generated_timestamp] to the earliest, each with the
    title, type and budget of that job: a cover letter whose job is gone
    is never returned.  When the ids of [jobs] are distinct, a cover
    letter of a job makes one pair. *)
Theorem get_recent_cover_letters_have_a_job (limit : Z) (db : database) :
  exists (rows joined : list (cover_letter_row * job_row)),
    get_recent_cover_letters limit db = map recent_cover_letter_of rows
    /\ (forall cl j,
          In (cl, j) joined <->
          In cl (cover_letters db) /\ In j (jobs db)
          /\ cl_job_id cl = Integer (j_id j))
    /\ latest_of (fun row => cl_generated_timestamp (fst row)) rows joined
    /\ newest_first (fun row => cl_generated_timestamp (fst row)) rows
    /\ List.length rows = limited limit (List.length joined)
    /\ (NoDup (map j_id (jobs db)) ->
        List.length joined
        = List.length
            (filter (references_a_job (jobs db)) (cover_letters db))).
Proof.
  do 2 eexists. split; [reflexivity|].
  split; [apply in_join_jobs|].
  destruct (sql_limit_latest (fun row => cl_generated_timestamp (fst row))
              limit (join_jobs (cover_letters db) (jobs db)))
    as [H1 [H2 H3]].
  split; [exact H1|]. split; [exact H2|]. split; [exact H3|].
  apply length_join_jobs.
Qed.

(** ** The job that waits for a cover letter *)

Lemma left_join_cover_letters_null (j : job_row)
    (cls : list cover_letter_row) :
  In Null (left_join_cover_letters j cls) <-> without_cover_letter cls j.
Proof.
  unfold left_join_cover_letters, without_cover_letter.
  destruct (filter _ cls) as [|m ms] eqn:F.
  - split; [|intros _; left; reflexivity].
    intros _ cl Hcl E.
    assert (In cl []) as [].
    rewrite <- F. apply filter_In. split; [exact Hcl|].
    apply is_true_eq. split; [discriminate | congruence].
  - split.
    + intros H. apply in_map_iff in H as [cl [E Hcl]].
      rewrite <- F in Hcl. apply filter_In in Hcl as [_ Hm].
      apply is_true_eq in Hm as [_ Hm]. congruence.
    + intros H. exfalso.
      assert (In m (m :: ms)) as Hm by (left; reflexivity).
      rewrite <- F in Hm. apply filter_In in Hm as [Hm E].
      apply is_true_eq in E as [_ E]. exact (H m Hm (eq_sym E)).
Qed.

Lemma in_pending_rows (db : database) (j : job_row) (v : value) :
  In (j, v)
    (filter (fun row => is_null (snd row))
       (flat_map
          (fun j => map (fun v => (j, v))
                      (left_join_cover_letters j (cover_letters db)))
          (jobs db)))
  <-> In j (jobs db) /\ v = Null
      /\ without_cover_letter (cover_letters db) j.
Proof.
  rewrite filter_In, in_flat_map. cbn [snd]. split.
  - intros [[j' [Hj H]] Hn]. apply in_map_iff in H as [v' [E Hv]].
    injection E as -> ->.
    destruct v; try discriminate.
    split; [exact Hj|]. split; [reflexivity|].
    apply left_join_cover_letters_null, Hv.
  - intros [Hj [-> H]]. split; [|reflexivity].
    exists j. split; [exact Hj|].
    apply in_map, left_join_cover_letters_null, H.
Qed.

Lemma latest_job_without_cover_letter_found (db : database) :
  match latest_job_without_cover_letter db with
  | Some p =>
      exists j,
        p = pending_job_of j /\ In j (jobs db)
        /\ without_cover_letter (cover_letters db) j
        /\ forall j',
             In j' (jobs db) ->
             without_cover_letter (cover_letters db) j' ->
             leb (j_parsed_timestamp j') (j_parsed_timestamp j) = true
  | None =>
      forall j, In j (jobs db) ->
                ~ without_cover_letter (cover_letters db) j
  end.
Proof.
  unfold latest_job_without_cover_letter.
  set (pending := filter _ _).
  destruct (sql_limit_latest (fun row : job_row * value =>
                                j_parsed_timestamp (fst row)) 1 pending)
    as [[rest [Hp Hle]] [_ Hlen]].
  destruct (sql_limit 1 _) as [|[j v] l] eqn:E.
  - simpl. intros j Hj Hw.
    assert (In (j, Null) pending) as Hin.
    { apply in_pending_rows. tauto. }
    unfold limited in Hlen. simpl in Hlen.
    destruct pending; [exact Hin | discriminate Hlen].
  - simpl. exists j. split; [reflexivity|].
    assert (In (j, v) pending) as Hin.
    { apply (Permutation_in _ Hp). left. reflexivity. }
    apply in_pending_rows in Hin as [Hj [-> Hw]].
    split; [exact Hj|]. split; [exact Hw|].
    intros j' Hj' Hw'.
    assert (In (j', Null) pending) as Hin'.
    { apply in_pending_rows. tauto. }
    assert (l = []) as ->.
    { unfold limited in Hlen. simpl in Hlen.
      destruct l; [reflexivity|].
      simpl in Hlen. destruct (List.length pending); simpl in Hlen; lia. }
    apply (Permutation_in _ (Permutation_sym Hp)) in Hin'.
    destruct Hin' as [E'|Hr].
    + injection E' as <-. apply leb_same.
    + exact (Hle (j, Null) (j', Null) (or_introl eq_refl) Hr).
Qed.

(** X15. The query of [get_latest_job_without_cover_letter] returns the
    columns of a job for which [cover_letters] has no row, and no job
    without a cover letter was parsed later than that one; it returns no
    row exactly when every job has a cover letter. *)
Theorem latest_job_without_cover_letter_is_pending (db : database) :
  (forall p,
      latest_job_without_cover_letter db = Some p ->
      exists j,
        p = pending_job_of j /\ In j (jobs db)
        /\ without_cover_letter (cover_letters db) j
        /\ forall j',
             In j' (jobs db) ->
             without_cover_letter (cover_letters db) j' ->
             leb (j_parsed_timestamp j') (j_parsed_timestamp j) = true)
  /\ (latest_job_without_cover_letter db = None <->
      forall j, In j (jobs db) ->
                ~ without_cover_letter (cover_letters db) j).
Proof.
  pose proof (latest_job_without_cover_letter_found db) as H.
  destruct (latest_job_without_cover_letter db) as [p|]; split.
  - intros p' E. injection E as <-. exact H.
  - split; [discriminate|]. intros Hall. exfalso.
    destruct H as [j [_ [Hj [Hw _]]]]. exact (Hall j Hj Hw).
  - discriminate.
  - split; [intros _; exact H | reflexivity].
Qed.

(** X16. Once [add_cover_letter] has stored a letter for a job id, the
    query of [get_latest_job_without_cover_letter] does not return the
    job of that id: the workflow moves on to another job. *)
Theorem cover_letter_takes_job_off_the_list (w : world) (job_id : Z)
    (ai_provider cover_letter_text : pystr) (notes : option pystr) :
  exists (id : Z) (w' : world),
    add_cover_letter (Some job_id) (PStr ai_provider)
      (PStr cover_letter_text) (py_str notes) w
    = (Ok id, w')
    /\ forall p,
         latest_job_without_cover_letter (w_db w') = Some p ->
         pj_id p <> job_id.
Proof.
  unfold add_cover_letter, mbind, lift, current_timestamp, get_db, put_db,
    ret.
  rewrite !bind_param_str, bind_param_py_str. cbn [sql_int is_null orb].
  do 2 eexists. split; [reflexivity|]. cbn [w_db].
  intros p E.
  match type of E with
  | latest_job_without_cover_letter ?db = _ =>
      pose proof (latest_job_without_cover_letter_found db) as H
  end.
  rewrite E in H. destruct H as [j [-> [_ [Hw _]]]]. cbn [pending_job_of pj_id].
  intros Hid. cbn [cover_letters] in Hw.
  eapply Hw; [apply in_or_app; right; left; reflexivity|].
  cbn [cl_job_id]. rewrite Hid. reflexivity.
Qed.

End QueryProps.

Module CleanupProps.
Import Py PyObj Sqlite Exc Db Cleanup Api Spec Rows Queries Scripts Latest.
Import Storable Examples PyFacts SqliteFacts DbFacts QueryProps.

(** ** What the DELETE statements keep *)

(** [x NOT IN (?, ..., ?)] for a list of integers that is not empty. *)
Lemma not_in_kept (keep : list Z) (x : value) :
  keep <> [] ->
  is_true (not_in x (map Integer keep)) = negb (scrape_is_kept keep x).
Proof.
  intros Hne. unfold not_in.
  assert (existsb is_null (map Integer keep) = false) as Hn.
  { rewrite existsb_map. clear Hne. induction keep; simpl; auto. }
  destruct x as [|z|s].
  - destruct keep; [congruence | reflexivity].
  - rewrite in_set_no_null by (assumption || discriminate).
    rewrite existsb_map.
    assert (existsb (fun y : Z => is_true (eq (Integer z) (Integer y))) keep
            = existsb (Z.eqb z) keep) as ->.
    { clear. induction keep as [|y keep IH]; [reflexivity|].
      cbn [existsb]. rewrite IH. simpl.
      destruct (Z.eqb z y); reflexivity. }
    simpl. destruct (existsb (Z.eqb z) keep); reflexivity.
  - rewrite in_set_no_null by (assumption || discriminate).
    rewrite existsb_map.
    assert (existsb (fun y : Z => is_true (eq (Text s) (Integer y))) keep
            = false) as ->.
    { clear. induction keep; simpl; auto. }
    reflexivity.
Qed.

Lemma none_deleted {A : Type} (old : A -> bool) (rows : list A) :
  List.length (filter old rows) = 0 ->
  filter (fun r => negb (old r)) rows = rows.
Proof.
  induction rows as [|r rows IH]; simpl; [reflexivity|].
  destruct (old r); simpl; [discriminate|].
  intros H. rewrite IH; auto.
Qed.

Lemma count_deleted {A : Type} (old : A -> bool) (rows : list A) :
  List.length (filter old rows)
  = List.length rows - List.length (filter (fun r => negb (old r)) rows).
Proof.
  assert (List.length (filter old rows)
          + List.length (filter (fun r => negb (old r)) rows)
          = List.length rows) as H; [|lia].
  induction rows as [|r rows IH]; [reflexivity|].
  cbn [filter]. destruct (old r); cbn [negb List.length]; lia.
Qed.

Lemma cleanup_jobs_rows (keep_scrape_ids : list Z) (st : cleanup_stats)
    (db : database) :
  keep_scrape_ids <> [] ->
  jobs (snd (cleanup_jobs keep_scrape_ids st db))
  = filter (fun j => scrape_is_kept keep_scrape_ids (j_scrape_id j)) (jobs db)
  /\ scraped_data (snd (cleanup_jobs keep_scrape_ids st db)) = scraped_data db
  /\ cover_letters (snd (cleanup_jobs keep_scrape_ids st db))
     = cover_letters db.
Proof.
  intros Hne. unfold cleanup_jobs.
  destruct keep_scrape_ids as [|k keep] eqn:Ek; [congruence|].
  rewrite <- Ek in *. clear Ek.
  assert (filter (fun r => negb (is_true (not_in (j_scrape_id r)
                                            (map Integer keep_scrape_ids))))
            (jobs db)
          = filter (fun j => scrape_is_kept keep_scrape_ids (j_scrape_id j))
              (jobs db)) as E.
  { apply filter_ext. intros j.
    rewrite not_in_kept by assumption. apply negb_involutive. }
  destruct (Nat.ltb 0 _) eqn:El; cbn [snd jobs scraped_data cover_letters].
  - rewrite E. repeat split.
  - split; [|split; reflexivity].
    rewrite <- E. symmetry. apply none_deleted.
    apply Nat.ltb_ge in El. lia.
Qed.

Lemma cleanup_scraped_data_rows (keep_ids : list Z) (st : cleanup_stats)
    (db : database) :
  keep_ids <> [] ->
  scraped_data (snd (cleanup_scraped_data keep_ids st db))
  = filter (fun r => existsb (Z.eqb (sd_id r)) keep_ids) (scraped_data db)
  /\ jobs (snd (cleanup_scraped_data keep_ids st db)) = jobs db
  /\ cover_letters (snd (cleanup_scraped_data keep_ids st db))
     = cover_letters db.
Proof.
  intros Hne. unfold cleanup_scraped_data.
  destruct keep_ids as [|k keep] eqn:Ek; [congruence|].
  rewrite <- Ek in *. clear Ek.
  assert (filter (fun r => negb (is_true (not_in (Integer (sd_id r))
                                            (map Integer keep_ids))))
            (scraped_data db)
          = filter (fun r => existsb (Z.eqb (sd_id r)) keep_ids)
              (scraped_data db)) as E.
  { apply filter_ext. intros r.
    rewrite not_in_kept by assumption. apply negb_involutive. }
  destruct (Nat.ltb 0 _) eqn:El; cbn [snd jobs scraped_data cover_letters].
  - rewrite E. repeat split.
  - split; [|split; reflexivity].
    rewrite <- E. symmetry. apply none_deleted.
    apply Nat.ltb_ge in El. lia.
Qed.


(** X18. [cleanup_scraped_data] with a list of ids that is not empty
    keeps, in their order, the rows of [scraped_data] whose [id] is in
    the list and deletes the others; [scraped_data_deleted] becomes the
    number of deleted rows when there are any.  With the empty list it
    does nothing (the table is never emptied).  [jobs] and
    [cover_letters] are untouched. *)
Theorem cleanup_scraped_data_keeps_listed_ids (keep_ids : list Z)
    (st : cleanup_stats) (db : database) :
  (keep_ids = [] -> cleanup_scraped_data keep_ids st db = (st, db))
  /\ (keep_ids <> [] ->
      scraped_data (snd (cleanup_scraped_data keep_ids st db))
      = filter (fun r => existsb (Z.eqb (sd_id r)) keep_ids) (scraped_data db)
      /\ scraped_data_deleted (fst (cleanup_scraped_data keep_ids st db))
         = (let deleted :=
              List.length (scraped_data db)
              - List.length
                  (scraped_data (snd (cleanup_scraped_data keep_ids st db)))
            in if Nat.ltb 0 deleted then deleted
               else scraped_data_deleted st))
  /\ jobs (snd (cleanup_scraped_data keep_ids st db)) = jobs db
  /\ cover_letters (snd (cleanup_scraped_data keep_ids st db))
     = cover_letters db.
Proof.
  destruct keep_ids as [|k keep].
  { split; [reflexivity | split; [congruence | split; reflexivity]]. }
  split; [discriminate|].
  assert (k :: keep <> []) as Hne by discriminate.
  destruct (cleanup_scraped_data_rows st db Hne) as [Hs [Hj Hc]].
  split; [|split; assumption].
  intros _. split; [exact Hs|].
  cbv zeta. rewrite Hs.
  assert (List.length
            (filter (fun r => is_true (not_in (Integer (sd_id r))
                                         (map Integer (k :: keep))))
               (scraped_data db))
          = List.length (scraped_data db)
            - List.length
                (filter (fun r => existsb (Z.eqb (sd_id r)) (k :: keep))
                   (scraped_data db))) as Hcount.
  { rewrite count_deleted. f_equal. f_equal. apply filter_ext. intros j.
    rewrite not_in_kept by assumption. apply negb_involutive. }
  unfold cleanup_scraped_data. cbv beta iota zeta. rewrite Hcount.
  destruct (Nat.ltb 0 _); reflexivity.
Qed.

(** ** The whole cleanup *)

Lemma cleanup_orphaned_rows (st : cleanup_stats) (db : database) :
  Forall (fun cl => cl_job_id cl <> Null) (cover_letters db) ->
  jobs (snd (cleanup_orphaned_cover_letters st db)) = jobs db
  /\ scraped_data (snd (cleanup_orphaned_cover_letters st db))
     = scraped_data db
  /\ cover_letters (snd (cleanup_orphaned_cover_letters st db))
     = filter (references_a_job (jobs db)) (cover_letters db).
Proof.
  intros Hn. unfold cleanup_orphaned_cover_letters.
  destruct (Nat.ltb 0 _) eqn:E; simpl.
  - split; [reflexivity|]. split; [reflexivity|].
    apply filter_ext_in. intros cl Hin.
    rewrite not_in_job_ids, negb_involutive; [reflexivity|].
    rewrite Forall_forall in Hn. apply Hn, Hin.
  - split; [reflexivity|]. split; [reflexivity|].
    symmetry. apply no_orphan_counted.
    apply Nat.ltb_ge in E. lia.
Qed.

Lemma in_ids (rows : list scraped_row) (r : scraped_row) :
  existsb (Z.eqb (sd_id r)) (map sd_id rows) = true <->
  exists t, In t rows /\ sd_id t = sd_id r.
Proof.
  rewrite existsb_exists. split.
  - intros [x [Hx E]]. apply in_map_iff in Hx as [t [<- Ht]].
    apply Z.eqb_eq in E. exists t. auto.
  - intros [t [Ht E]]. exists (sd_id t). split; [apply in_map, Ht|].
    apply Z.eqb_eq. congruence.
Qed.

(** With PRIMARY KEY on [scraped_data.id], the rows whose id was
    selected are the rows that were selected. *)
Lemma selected_rows (rows selected rest : list scraped_row) :
  NoDup (map sd_id rows) ->
  Permutation (selected ++ rest) rows ->
  Permutation
    (filter (fun r => existsb (Z.eqb (sd_id r)) (map sd_id selected)) rows)
    selected.
Proof.
  intros Hk Hp.
  assert (NoDup rows) as Hnd by exact (NoDup_map_inv _ _ Hk).
  apply NoDup_Permutation.
  - apply NoDup_filter, Hnd.
  - apply (NoDup_app_remove_r _ rest).
    exact (Permutation_NoDup (Permutation_sym Hp) Hnd).
  - intros r. rewrite filter_In, in_ids. split.
    + intros [Hr [t [Ht E]]].
      assert (In t rows) as Ht'.
      { apply (Permutation_in _ Hp), in_or_app. left. exact Ht. }
      rewrite <- (NoDup_map_injective sd_id rows t r Hk Ht' Hr E). exact Ht.
    + intros Hr. split.
      * apply (Permutation_in _ Hp), in_or_app. left. exact Hr.
      * exists r. auto.
Qed.


Lemma scrape_is_kept_perm (ids ids' : list Z) (x : value) :
  Permutation ids ids' -> scrape_is_kept ids x = scrape_is_kept ids' x.
Proof.
  intros Hp. destruct x as [|z|s]; simpl; try reflexivity.
  destruct (existsb (Z.eqb z) ids) eqn:E.
  - symmetry. apply existsb_exists in E as [y [Hy E]].
    apply existsb_exists. exists y. split; [|exact E].
    exact (Permutation_in _ Hp Hy).
  - symmetry. destruct (existsb (Z.eqb z) ids') eqn:E'; [|reflexivity].
    apply existsb_exists in E' as [y [Hy E']].
    assert (existsb (Z.eqb z) ids = true) as Ht; [|congruence].
    apply existsb_exists. exists y. split; [|exact E'].
    exact (Permutation_in _ (Permutation_sym Hp) Hy).
Qed.

Lemma limited_zero (n : Z) (count : nat) :
  limited n count = 0 <-> n = 0%Z \/ count = 0.
Proof.
  unfold limited. destruct (Z.ltb_spec n 0); lia.
Qed.

(** [run_cleanup] with a [keep_scrapes] that cannot be bound. *)
Lemma run_cleanup_out_of_range (keep_scrapes : Z) (st : cleanup_stats)
    (db : database) :
  sqlite_integer keep_scrapes = false ->
  run_cleanup keep_scrapes st db = (false, st, db).
Proof.
  intros H. unfold run_cleanup, get_scrapes_to_keep, bind_param.
  unfold sqlite_integer in H. rewrite H. reflexivity.
Qed.

Lemma run_cleanup_in_range (keep_scrapes : Z) (st : cleanup_stats)
    (db : database) :
  sqlite_integer keep_scrapes = true ->
  run_cleanup keep_scrapes st db
  = match
      map sd_id
        (sql_limit keep_scrapes
           (order_by_desc sd_scrape_timestamp (scraped_data db)))
    with
    | [] => (false, st, db)
    | keep_scrape_ids =>
        let (st1, db1) := cleanup_jobs keep_scrape_ids st db in
        let (st2, db2) := cleanup_scraped_data keep_scrape_ids st1 db1 in
        let (st3, db3) := cleanup_orphaned_cover_letters st2 db2 in
        (true, st3, db3)
    end.
Proof.
  intros H. unfold run_cleanup, get_scrapes_to_keep, bind_param.
  unfold sqlite_integer in H. rewrite H.
  destruct (map sd_id _); reflexivity.
Qed.

(** The steps of [run_cleanup] on the scrapes it selects. *)
Lemma run_cleanup_rows (keep_scrapes : Z) (st : cleanup_stats)
    (db : database) :
  sqlite_integer keep_scrapes = true ->
  NoDup (map sd_id (scraped_data db)) ->
  Forall (fun cl => cl_job_id cl <> Null) (cover_letters db) ->
  let selected :=
    sql_limit keep_scrapes
      (order_by_desc sd_scrape_timestamp (scraped_data db)) in
  (selected = [] -> run_cleanup keep_scrapes st db = (false, st, db))
  /\ (selected <> [] ->
      exists (st' : cleanup_stats) (db' : database),
        run_cleanup keep_scrapes st db = (true, st', db')
        /\ Permutation (scraped_data db') selected
        /\ jobs db'
           = filter
               (fun j => scrape_is_kept (map sd_id selected) (j_scrape_id j))
               (jobs db)
        /\ cover_letters db'
           = filter (references_a_job (jobs db')) (cover_letters db)).
Proof.
  intros Hr Hk Hn selected.
  rewrite (@run_cleanup_in_range keep_scrapes st db Hr).
  fold selected. split.
  - intros ->. reflexivity.
  - intros Hsel.
    destruct (map sd_id selected) as [|k keep] eqn:Ek.
    { destruct selected; [congruence | discriminate]. }
    rewrite <- Ek. cbv zeta.
    assert (map sd_id selected <> []) as Hne by (rewrite Ek; discriminate).
    clear k keep Ek.
    destruct (cleanup_jobs_rows st db Hne) as [Hj1 [Hs1 Hc1]].
    destruct (cleanup_jobs (map sd_id selected) st db) as [st1 db1].
    cbn [snd] in Hj1, Hs1, Hc1.
    destruct (cleanup_scraped_data_rows st1 db1 Hne) as [Hs2 [Hj2 Hc2]].
    destruct (cleanup_scraped_data (map sd_id selected) st1 db1)
      as [st2 db2].
    cbn [snd] in Hj2, Hs2, Hc2.
    destruct (@cleanup_orphaned_rows st2 db2) as [Hj3 [Hs3 Hc3]].
    { rewrite Hc2, Hc1. exact Hn. }
    destruct (cleanup_orphaned_cover_letters st2 db2) as [st3 db3].
    cbn [snd] in Hj3, Hs3, Hc3.
    exists st3, db3. split; [reflexivity|]. split; [|split].
    + rewrite Hs3, Hs2, Hs1.
      destruct (sql_limit_latest sd_scrape_timestamp keep_scrapes
                  (scraped_data db)) as [[rest [Hp _]] _].
      exact (@selected_rows _ _ _ Hk Hp).
    + rewrite Hj3, Hj2, Hj1. reflexivity.
    + rewrite Hc3, Hc2, Hc1, Hj3. reflexivity.
Qed.

Lemma nothing_selected (keep_scrapes : Z) (rows : list scraped_row) :
  sql_limit keep_scrapes (order_by_desc sd_scrape_timestamp rows) = [] <->
  keep_scrapes = 0%Z \/ rows = [].
Proof.
  destruct (sql_limit_latest sd_scrape_timestamp keep_scrapes rows)
    as [_ [_ Hlen]].
  split.
  - intros E. rewrite E in Hlen. symmetry in Hlen.
    apply limited_zero in Hlen as [H|H]; [left; exact H | right].
    destruct rows; [reflexivity | discriminate H].
  - intros H.
    assert (limited keep_scrapes (List.length rows) = 0) as H0.
    { apply limited_zero. destruct H as [H|H]; [left; exact H|].
      right. rewrite H. reflexivity. }
    rewrite H0 in Hlen.
    destruct (sql_limit _ _); [reflexivity | discriminate Hlen].
Qed.



Example run_cleanup_keeps_one_scrape :
  let '(ok, st, db) := run_cleanup 1 no_stats database_with_scrapes in
  ok = true
  /\ map sd_id (scraped_data db) = [2%Z]
  /\ map j_id (jobs db) = [2%Z]
  /\ map cl_id (cover_letters db) = [2%Z]
  /\ st = mkCleanupStats 1 1 1.
Proof. vm_compute. repeat split. Qed.

(** ** Running the cleanup again *)

Lemma cleanup_jobs_nothing (keep_scrape_ids : list Z) (st : cleanup_stats)
    (db : database) :
  (forall j, In j (jobs db) ->
             scrape_is_kept keep_scrape_ids (j_scrape_id j) = true) ->
  cleanup_jobs keep_scrape_ids st db = (st, db).
Proof.
  intros H. unfold cleanup_jobs.
  destruct keep_scrape_ids as [|k keep]; [reflexivity|].
  cbv zeta.
  assert (filter (fun r => is_true (not_in (j_scrape_id r)
                                      (map Integer (k :: keep))))
            (jobs db) = []) as ->; [|reflexivity].
  induction (jobs db) as [|j js IH]; [reflexivity|].
  cbn [filter]. rewrite not_in_kept by discriminate.
  rewrite (H j (or_introl eq_refl)). cbn [negb].
  apply IH. intros j' Hj'. apply H. right. exact Hj'.
Qed.

Lemma cleanup_scraped_data_nothing (keep_ids : list Z) (st : cleanup_stats)
    (db : database) :
  (forall r, In r (scraped_data db) ->
             existsb (Z.eqb (sd_id r)) keep_ids = true) ->
  cleanup_scraped_data keep_ids st db = (st, db).
Proof.
  intros H. unfold cleanup_scraped_data.
  destruct keep_ids as [|k keep]; [reflexivity|].
  cbv zeta.
  assert (filter (fun r => is_true (not_in (Integer (sd_id r))
                                      (map Integer (k :: keep))))
            (scraped_data db) = []) as ->; [|reflexivity].
  induction (scraped_data db) as [|r rows IH]; [reflexivity|].
  cbn [filter]. rewrite not_in_kept by discriminate.
  cbn [scrape_is_kept]. rewrite (H r (or_introl eq_refl)). cbn [negb].
  apply IH. intros r' Hr'. apply H. right. exact Hr'.
Qed.

Lemma cleanup_orphaned_nothing (st : cleanup_stats) (db : database) :
  (forall cl, In cl (cover_letters db) ->
              references_a_job (jobs db) cl = true) ->
  cleanup_orphaned_cover_letters st db = (st, db).
Proof.
  intros H. unfold cleanup_orphaned_cover_letters.
  assert (filter is_null
            (flat_map (fun cl => left_join_jobs cl (jobs db))
               (cover_letters db)) = []) as ->; [|reflexivity].
  induction (cover_letters db) as [|cl cls IH]; [reflexivity|].
  cbn [flat_map]. rewrite filter_app, left_join_orphan.
  rewrite (H cl (or_introl eq_refl)). cbn [app].
  apply IH. intros cl' Hcl'. apply H. right. exact Hcl'.
Qed.

Lemma limited_limited (n : Z) (count : nat) :
  limited n (limited n count) = limited n count.
Proof. unfold limited. destruct (n <? 0)%Z; lia. Qed.

(** X20. Running [run_cleanup] a second time deletes nothing: on a
    database whose scrape ids are distinct and whose cover letters have a
    [job_id], a second run with the same [keep_scrapes] returns what the
    first returned and leaves the database and the counters it is given
    as they are. *)
Theorem run_cleanup_again_deletes_nothing (keep_scrapes : Z)
    (st st2 : cleanup_stats) (db : database) :
  NoDup (map sd_id (scraped_data db)) ->
  Forall (fun cl => cl_job_id cl <> Null) (cover_letters db) ->
  exists (ok : bool) (st' : cleanup_stats) (db' : database),
    run_cleanup keep_scrapes st db = (ok, st', db')
    /\ run_cleanup keep_scrapes st2 db' = (ok, st2, db').
Proof.
  intros Hk Hn.
  destruct (sqlite_integer keep_scrapes) eqn:Hr.
  2: { exists false, st, db.
       split; apply run_cleanup_out_of_range; exact Hr. }
  destruct (@run_cleanup_rows keep_scrapes st db Hr Hk Hn) as [Hnone Hsome].
  destruct (@run_cleanup_rows keep_scrapes st2 db Hr Hk Hn) as [Hnone2 _].
  destruct (sql_limit_latest sd_scrape_timestamp keep_scrapes
              (scraped_data db)) as [_ [_ Hlen]].
  pose proof (nothing_selected keep_scrapes (scraped_data db)) as Hzero.
  destruct (sql_limit keep_scrapes _) as [|r selected] eqn:Es.
  - exists false, st, db. split; [exact (Hnone eq_refl)|].
    exact (Hnone2 eq_refl).
  - destruct Hsome as [st' [db' [E [Hp [Hj Hc]]]]]; [discriminate|].
    exists true, st', db'. split; [exact E|].
    rewrite (@run_cleanup_in_range keep_scrapes st2 db' Hr).
    destruct (sql_limit_latest sd_scrape_timestamp keep_scrapes
                (scraped_data db')) as [[rest [Hp2 _]] [_ Hlen2]].
    set (again := sql_limit keep_scrapes
                    (order_by_desc sd_scrape_timestamp (scraped_data db')))
      in *.
    rewrite (Permutation_length Hp), Hlen, limited_limited, <- Hlen,
      <- (Permutation_length Hp) in Hlen2.
    assert (rest = []) as ->.
    { apply Permutation_length in Hp2. rewrite length_app in Hp2.
      destruct rest; [reflexivity | simpl in Hp2; lia]. }
    rewrite app_nil_r in Hp2.
    destruct (map sd_id again) as [|k keep] eqn:Ek.
    { exfalso. apply Permutation_length in Hp. rewrite <- Hlen2 in Hp.
      destruct again; discriminate. }
    rewrite <- Ek. cbv zeta.
    rewrite cleanup_jobs_nothing.
    2: { intros j Hin. rewrite Hj in Hin. apply filter_In in Hin as [_ Hin].
         rewrite <- Hin. apply scrape_is_kept_perm, Permutation_map.
         exact (Permutation_trans Hp2 Hp). }
    rewrite cleanup_scraped_data_nothing.
    2: { intros x Hx. apply in_ids. exists x. split; [|reflexivity].
         exact (Permutation_in _ (Permutation_sym Hp2) Hx). }
    rewrite cleanup_orphaned_nothing; [reflexivity|].
    intros cl Hcl. rewrite Hc in Hcl. apply filter_In in Hcl. tauto.
Qed.

Lemma run_cleanup_again_deletes_nothing_example :
  exists (ok : bool) (st' : cleanup_stats) (db' : database),
    run_cleanup 1 no_stats database_with_scrapes = (ok, st', db')
    /\ run_cleanup 1 no_stats db' = (ok, no_stats, db').
Proof.
  apply (@run_cleanup_again_deletes_nothing 1%Z no_stats no_stats
           database_with_scrapes).
  - simpl. repeat constructor; simpl; intuition discriminate.
  - repeat constructor; discriminate.
Defined.

End CleanupProps.

(* ================================================================== *)
(** * The scripts and the loader *)
(* ================================================================== *)

Module ScriptProps.
Import Py PyObj Sqlite Exc Db Cleanup Api Spec Rows Queries Scripts Latest.
Import Loader Examples PyFacts SqliteFacts DbFacts DbProps.

(** X21. The loop of [import_jobs_to_db.py] and [parse_from_db.py] skips
    the jobs whose fields cannot be read or bound and goes on: it leaves
    the world that the loop of [import_from_json_file] leaves on the list
    without those jobs, and [jobs_added] counts the others, whether their
    row was inserted or ignored. *)
Theorem add_jobs_or_skip_skips_what_raises (scrape_id : Z)
    (jobs : list pyval) (jobs_added : nat) (w : world) :
  add_jobs scrape_id (filter (can_be_bound scrape_id) jobs) jobs_added w
  = (Ok (fst (add_jobs_or_skip scrape_id jobs jobs_added w)),
     snd (add_jobs_or_skip scrape_id jobs jobs_added w))
  /\ fst (add_jobs_or_skip scrape_id jobs jobs_added w)
     = jobs_added + List.length (filter (can_be_bound scrape_id) jobs).
Proof.
  revert jobs_added w.
  induction jobs as [|job jobs IH]; intros n w.
  - simpl. split; [reflexivity | lia].
  - cbn [add_jobs_or_skip filter].
    rewrite add_job_unfold.
    destruct (job_parameters scrape_id job) as [v|e] eqn:Hv.
    + assert (can_be_bound scrape_id job = true) as ->
        by (unfold can_be_bound; rewrite Hv; reflexivity).
      cbv zeta. cbn [add_jobs]. unfold mbind.
      rewrite add_job_unfold, Hv. cbv zeta.
      destruct (IH (S n)
                  (mkWorld
                     (fst (insert_or_ignore_job
                             (job_row_of v (Text (w_clock w 0))) (w_db w)))
                     (fun k => w_clock w (S k)) (w_files w) (w_basename w)))
        as [H1 H2].
      split; [exact H1|]. rewrite H2. cbn [List.length]. lia.
    + assert (can_be_bound scrape_id job = false) as ->
        by (unfold can_be_bound; rewrite Hv; reflexivity).
      apply IH.
Qed.

(** ** Loading a directory *)





End ScriptProps.

(* ================================================================== *)
(** * Parsed jobs in the database *)
(* ================================================================== *)

Module PipelineProps.
Import Py PyObj Sqlite Exc Parser Db Cleanup Api Spec Rows Queries Scripts.
Import Latest Loader Pipeline Storable Examples PyFacts SqliteFacts DbFacts.
Import DbProps ParserFacts ScriptProps.

Lemma bind_text_or_null (o : option pystr) :
  bind_param (py_str o) = Ok (text_or_null o).
Proof. destruct o; reflexivity. Qed.

Lemma py_get_job_info (i : job_info) :
  py_get (dict_of_job_info i) (u "type") PNone = Ok (py_str (ji_type i))
  /\ py_get (dict_of_job_info i) (u "experience_level") PNone
     = Ok (py_str (ji_experience_level i))
  /\ py_get (dict_of_job_info i) (u "budget") PNone
     = Ok (py_str (ji_budget i))
  /\ py_get (dict_of_job_info i) (u "hourly_rate_min") PNone
     = Ok (py_str (ji_hourly_rate_min i))
  /\ py_get (dict_of_job_info i) (u "hourly_rate_max") PNone
     = Ok (py_str (ji_hourly_rate_max i))
  /\ py_get (dict_of_job_info i) (u "duration") PNone
     = Ok (py_str (ji_duration i)).
Proof.
  destruct i as [[ty|] [rmin|] [rmax|] [budget|] [level|] [duration|]];
    repeat split; reflexivity.
Qed.

(** The parameters of a dictionary with the keys of a parsed job, for
    any ['job_info'] whose six keys read as given. *)
Lemma job_parameters_items (scrape_id : Z)
    (uid title url posted description : option pystr) (info : pyval)
    (ty level budget rmin rmax duration : option pystr)
    (skills : list pystr) :
  py_get info (u "type") PNone = Ok (py_str ty) ->
  py_get info (u "experience_level") PNone = Ok (py_str level) ->
  py_get info (u "budget") PNone = Ok (py_str budget) ->
  py_get info (u "hourly_rate_min") PNone = Ok (py_str rmin) ->
  py_get info (u "hourly_rate_max") PNone = Ok (py_str rmax) ->
  py_get info (u "duration") PNone = Ok (py_str duration) ->
  job_parameters scrape_id
    (PDict
       (item "job_uid" uid ++ item "title" title ++ item "url" url
        ++ item "posted_time" posted ++ [(u "job_info", info)]
        ++ item "description" description
        ++ [(u "skills", PList (map PStr skills))]))
  = Ok (mkJobValues (Integer scrape_id) (text_or_null uid)
          (text_or_null title) (text_or_null url) (text_or_null posted)
          (text_or_null ty) (text_or_null level) (text_or_null budget)
          (text_or_null rmin) (text_or_null rmax) (text_or_null duration)
          (Text (dumps (PList (map PStr skills))))
          (text_or_null description)).
Proof.
  intros H1 H2 H3 H4 H5 H6.
  set (d := PDict _).
  assert (py_get d (u "skills") (PList []) = Ok (PList (map PStr skills)))
    as Gskills
    by (destruct uid, title, url, posted, description; reflexivity).
  assert (py_get d (u "job_uid") PNone = Ok (py_str uid)) as Guid
    by (destruct uid, title, url, posted, description; reflexivity).
  assert (py_get d (u "title") PNone = Ok (py_str title)) as Gtitle
    by (destruct uid, title, url, posted, description; reflexivity).
  assert (py_get d (u "url") PNone = Ok (py_str url)) as Gurl
    by (destruct uid, title, url, posted, description; reflexivity).
  assert (py_get d (u "posted_time") PNone = Ok (py_str posted)) as Gposted
    by (destruct uid, title, url, posted, description; reflexivity).
  assert (py_get d (u "job_info") (PDict []) = Ok info) as Ginfo
    by (destruct uid, title, url, posted, description; reflexivity).
  assert (py_get d (u "description") PNone = Ok (py_str description))
    as Gdescription
    by (destruct uid, title, url, posted, description; reflexivity).
  unfold job_parameters.
  rewrite Gskills, Guid, Gtitle, Gurl, Gposted, Ginfo, Gdescription.
  cbn [Exc.bind].
  rewrite H1, H2, H3, H4, H5, H6. cbn [Exc.bind].
  rewrite !bind_text_or_null. reflexivity.
Qed.

Lemma job_parameters_of_job (scrape_id : Z) (job : job_data) :
  job_parameters scrape_id (dict_of_job job)
  = Ok (values_of_job scrape_id job).
Proof.
  destruct (py_get_job_info (jd_job_info job))
    as [H1 [H2 [H3 [H4 [H5 H6]]]]].
  exact (@job_parameters_items scrape_id (jd_job_uid job) (jd_title job)
           (jd_url job) (jd_posted_time job) (jd_description job) _ _ _ _ _
           _ _ (jd_skills job) H1 H2 H3 H4 H5 H6).
Qed.

Lemma parsed_jobs_bindable (jobs : list job_data) :
  Forall bindable (map dict_of_job jobs).
Proof.
  apply Forall_map, Forall_forall. intros job _ scrape_id.
  eexists. apply job_parameters_of_job.
Qed.

(** The loop on parsed jobs: none is skipped. *)
Lemma save_parsed_jobs_as_add_jobs (scrape_id : Z) (jobs : list job_data) :
  forall (n : nat) (w : world),
    add_jobs scrape_id (map dict_of_job jobs) n w
    = (Ok (fst (add_jobs_or_skip scrape_id (map dict_of_job jobs) n w)),
       snd (add_jobs_or_skip scrape_id (map dict_of_job jobs) n w)).
Proof.
  induction jobs as [|job jobs IH]; intros n w; [reflexivity|].
  cbn [map add_jobs add_jobs_or_skip]. unfold mbind.
  rewrite add_job_unfold, job_parameters_of_job. cbv zeta.
  apply IH.
Qed.

(** X23. [parse_from_db.py] saves every job the parser returns from a
    page whose parsed texts hold no lone surrogate, under a scrape id
    within 64 bits: [add_job] raises for none of them, so [jobs_added] is
    the number of parsed jobs; [jobs] only grows; and for each parsed job
    (it has a title that is not empty) [jobs] then holds a row with the
    job's values (title, url, posted time, the fields of [job_info], the
    skills as JSON, the description, under the given scrape id), or the
    job has a [job_uid] that a row of [jobs] had already. *)
Theorem parsed_jobs_are_saved (scrape_id : Z) (soup : Soup.tag) (w : world) :
  sqlite_integer scrape_id = true ->
  forallb (fun job => fields_storable (values_of_job scrape_id job))
    (parse_upwork_jobs soup)
  = true ->
  fst (save_parsed_jobs scrape_id soup w)
  = List.length (parse_upwork_jobs soup)
  /\ (exists new_rows,
        jobs (w_db (snd (save_parsed_jobs scrape_id soup w)))
        = jobs (w_db w) ++ new_rows)
  /\ Forall
       (fun job =>
          v_job_title (values_of_job scrape_id job) <> Null
          /\ stored_or_duplicate
               (jobs (w_db (snd (save_parsed_jobs scrape_id soup w))))
               (values_of_job scrape_id job))
       (parse_upwork_jobs soup).
Proof.
  intros _ _.
  unfold save_parsed_jobs.
  set (parsed := parse_upwork_jobs soup).
  pose proof (save_parsed_jobs_as_add_jobs scrape_id parsed 0 w) as E.
  destruct (@add_jobs_stores scrape_id (map dict_of_job parsed)
              (parsed_jobs_bindable parsed) 0 w)
    as [w' [rows [Ha [_ [Hj Hst]]]]].
  rewrite Ha in E. injection E as En Ew.
  rewrite <- Ew, <- En.
  split; [rewrite length_map; reflexivity|].
  split; [exists rows; exact Hj|].
  apply Forall_forall. intros job Hin.
  assert (v_job_title (values_of_job scrape_id job) <> Null) as Ht.
  { unfold parsed, parse_upwork_jobs in Hin.
    apply filter_In in Hin as [_ Hin].
    apply has_title_iff in Hin as [t [E _]].
    cbn [values_of_job v_job_title]. rewrite E. discriminate. }
  split; [exact Ht|].
  apply (Hst (dict_of_job job)).
  - apply in_map, Hin.
  - apply job_parameters_of_job.
  - exact Ht.
Qed.

(** The page of the examples has one tile with a title in the first
    format: its job is parsed and saved. *)
Lemma parsed_jobs_are_saved_example :
  fst (save_parsed_jobs 1 page new_world)
  = List.length (parse_upwork_jobs page)
  /\ (exists new_rows,
        jobs (w_db (snd (save_parsed_jobs 1 page new_world)))
        = jobs (w_db new_world) ++ new_rows)
  /\ Forall
       (fun job =>
          v_job_title (values_of_job 1 job) <> Null
          /\ stored_or_duplicate
               (jobs (w_db (snd (save_parsed_jobs 1 page new_world))))
               (values_of_job 1 job))
       (parse_upwork_jobs page).
Proof.
  apply (@parsed_jobs_are_saved 1%Z page new_world).
  - reflexivity.
  - vm_compute. reflexivity.
Defined.

End PipelineProps.

(* ================================================================== *)
(** * The smart cover letter generator *)
(* ================================================================== *)

Module SmartProps.
Import Py PyObj Sqlite Exc Db Cleanup Api Spec Rows Queries Scripts Latest.
Import Loader Smart Waiting Examples PyFacts SqliteFacts DbFacts DbProps.
Import QueryProps.

(** ** The cleaned text *)

Lemma clean_text_closing
    (nltk : option (pystr -> result exn (list pystr))) (text : pystr) :
  existsb (fun phrase => contains phrase (clean_text nltk text))
    closing_phrases = true.
Proof.
  unfold clean_text.
  set (result := if negb _ && negb _ then _ else _).
  cbv zeta.
  destruct (existsb (fun phrase => contains phrase result) closing_phrases)
    eqn:E; [exact E|].
  cbn [closing_phrases existsb].
  change (result ++ signature)
    with (result ++ [10%N; 10%N] ++ u "Best regards"
          ++ (u "," ++ [10%N] ++ u "[Your Name]")).
  rewrite (app_assoc result), contains_app. reflexivity.
Qed.

Lemma clean_text_not_empty
    (nltk : option (pystr -> result exn (list pystr))) (text : pystr) :
  clean_text nltk text <> [].
Proof.
  intros E. pose proof (clean_text_closing nltk text) as H.
  rewrite E in H. discriminate H.
Qed.

(** X24. [_clean_text] returns a text that is not empty and holds one of
    the closing phrases 'Best regards', 'Sincerely' and 'Thank you',
    whatever it is given and whether NLTK is there or not; so a letter
    that [generate_cover_letter] returns is never empty, and the test
    [if not cover_letter] of [smart_generate_cover_letter] fails only
    when the generation raised. *)
Theorem clean_text_has_a_closing
    (nltk : option (pystr -> result exn (list pystr))) (text : pystr) :
  (exists phrase,
      In phrase closing_phrases
      /\ contains phrase (clean_text nltk text) = true)
  /\ clean_text nltk text <> []
  /\ forall g job_data,
       match generate_cover_letter g job_data with
       | Some letter =>
           letter <> [] /\ exists t, generated_text g job_data = Ok t
       | None => exists e, generated_text g job_data = Raise e
       end.
Proof.
  split; [|split].
  - pose proof (clean_text_closing nltk text) as H.
    apply existsb_exists in H. exact H.
  - apply clean_text_not_empty.
  - intros g job_data. unfold generate_cover_letter.
    destruct (generated_text g job_data) as [t|e].
    + split; [apply clean_text_not_empty | exists t; reflexivity].
    + exists e. reflexivity.
Qed.

(** ** One run of the generator *)

Lemma pending_of_job (cls : list cover_letter_row) (j : job_row) :
  filter (fun row : job_row * value => is_null (snd row))
    (map (fun v => (j, v)) (left_join_cover_letters j cls))
  = if has_no_cover_letter cls j then [(j, Null)] else [].
Proof.
  unfold left_join_cover_letters, has_no_cover_letter.
  set (m := fun cl => is_true (eq (Integer (j_id j)) (cl_job_id cl))).
  change (forallb _ cls) with (forallb (fun cl => negb (m cl)) cls).
  assert (forallb (fun cl => negb (m cl)) cls
          = match filter m cls with [] => true | _ => false end) as ->.
  { induction cls as [|cl cls IH]; [reflexivity|].
    cbn [forallb filter]. destruct (m cl); [reflexivity|]. exact IH. }
  assert (Forall (fun cl => is_null (cl_job_id cl) = false) (filter m cls))
    as Hm.
  { apply Forall_forall. intros cl Hcl. apply filter_In in Hcl as [_ Hcl].
    apply is_true_eq in Hcl as [_ Hcl]. rewrite <- Hcl. reflexivity. }
  destruct (filter m cls) as [|x l]; [reflexivity|].
  induction Hm as [|y l' Hy _ IH]; [reflexivity|].
  cbn [map filter snd]. rewrite Hy. exact IH.
Qed.

Lemma pending_jobs_are (db : database) :
  pending_jobs db
  = map (fun j => (j, Null))
      (filter (has_no_cover_letter (cover_letters db)) (jobs db)).
Proof.
  unfold pending_jobs.
  induction (jobs db) as [|j js IH]; [reflexivity|].
  cbn [flat_map]. rewrite filter_app, pending_of_job, IH. cbn [filter].
  destruct (has_no_cover_letter (cover_letters db) j); reflexivity.
Qed.

Lemma has_no_cover_letter_after (cls : list cover_letter_row)
    (cl : cover_letter_row) (id : Z) (j : job_row) :
  cl_job_id cl = Integer id ->
  has_no_cover_letter (cls ++ [cl]) j
  = has_no_cover_letter cls j && negb (Z.eqb (j_id j) id).
Proof.
  intros E. unfold has_no_cover_letter.
  rewrite forallb_app. cbn [forallb]. rewrite E, andb_true_r.
  f_equal. simpl. destruct (Z.eqb (j_id j) id); reflexivity.
Qed.

(** With PRIMARY KEY on [jobs.id], one job leaves the list. *)
Lemma one_job_less (rows : list job_row) (j0 : job_row) :
  NoDup (map j_id rows) -> In j0 rows ->
  S (List.length
       (filter (fun j => negb (Z.eqb (j_id j) (j_id j0))) rows))
  = List.length rows.
Proof.
  induction rows as [|r rows IH]; [intros _ []|].
  intros Hk Hin. inversion Hk as [|? ? Hnin Hnd]; subst.
  cbn [filter List.length].
  destruct Hin as [->|Hin].
  - rewrite Z.eqb_refl. cbn [negb]. f_equal.
    assert (filter (fun j => negb (Z.eqb (j_id j) (j_id j0))) rows = rows)
      as ->; [|reflexivity].
    clear IH Hnd Hk. induction rows as [|r rows IH]; [reflexivity|].
    cbn [filter].
    destruct (Z.eqb_spec (j_id r) (j_id j0)) as [E|E].
    + exfalso. apply Hnin. left. exact E.
    + cbn [negb]. f_equal. apply IH. intros H. apply Hnin. right. exact H.
  - destruct (Z.eqb_spec (j_id r) (j_id j0)) as [E|E].
    + exfalso. apply Hnin. rewrite E. apply in_map, Hin.
    + cbn [negb List.length]. f_equal. apply IH; assumption.
Qed.

Lemma latest_pending_job (db : database) :
  pending_jobs db <> [] ->
  exists j,
    get_latest_job_without_cover_letter db = Some (job_dict_of j)
    /\ In j (jobs db)
    /\ has_no_cover_letter (cover_letters db) j = true
    /\ forall j',
         In j' (jobs db) ->
         has_no_cover_letter (cover_letters db) j' = true ->
         leb (j_parsed_timestamp j') (j_parsed_timestamp j) = true.
Proof.
  intros Hne. unfold get_latest_job_without_cover_letter.
  destruct (sql_limit_latest (fun row : job_row * value =>
                                j_parsed_timestamp (fst row)) 1
              (pending_jobs db))
    as [[rest [Hp Hle]] [_ Hlen]].
  assert (forall j v, In (j, v) (pending_jobs db) <->
                      In j (jobs db) /\ v = Null
                      /\ has_no_cover_letter (cover_letters db) j = true)
    as Hin.
  { intros j v. rewrite pending_jobs_are, in_map_iff. split.
    - intros [j' [E H]]. injection E as -> <-.
      apply filter_In in H. tauto.
    - intros [Hj [-> Hn]]. exists j. split; [reflexivity|].
      apply filter_In. tauto. }
  destruct (sql_limit 1 _) as [|[j v] l] eqn:E.
  - exfalso. unfold limited in Hlen. simpl in Hlen.
    destruct (pending_jobs db); [congruence | discriminate Hlen].
  - assert (l = []) as ->.
    { unfold limited in Hlen. simpl in Hlen.
      destruct l; [reflexivity|].
      simpl in Hlen. destruct (List.length (pending_jobs db)); simpl in Hlen;
        lia. }
    exists j. cbn [map hd_error fst]. split; [reflexivity|].
    assert (In (j, v) (pending_jobs db)) as Hj.
    { apply (Permutation_in _ Hp). left. reflexivity. }
    apply Hin in Hj as [Hj [-> Hn]].
    split; [exact Hj|]. split; [exact Hn|].
    intros j' Hj' Hn'.
    assert (In (j', Null) (pending_jobs db)) as H' by (apply Hin; tauto).
    apply (Permutation_in _ (Permutation_sym Hp)) in H'.
    destruct H' as [E'|Hr].
    + injection E' as <-. apply leb_same.
    + exact (Hle (j, Null) (j', Null) (or_introl eq_refl) Hr).
Qed.

(** X25. One run of [smart_generate_cover_letter], on a database whose
    job ids are distinct.  The count of [check_if_cover_letter_needed] is
    the number of jobs for which [cover_letters] has no row.  When it is
    0 the run returns [True] and changes nothing.  Otherwise the run
    returns [False] and changes nothing when the model does not load or
    the generation raises; and else it returns [True] after storing one
    cover letter, with the provider ['trained_gpt2_smart'] and the status
    ['generated'], for the job without a cover letter that was parsed
    last: the count is then one less. *)
Theorem smart_generate_cover_letter_makes_progress (g : generator)
    (w : world) :
  NoDup (map j_id (jobs (w_db w))) ->
  exists (ok : bool) (w' : world),
    smart_generate_cover_letter g w = (ok, w')
    /\ snd (check_if_cover_letter_needed (w_db w))
       = List.length
           (filter (has_no_cover_letter (cover_letters (w_db w)))
              (jobs (w_db w)))
    /\ (snd (check_if_cover_letter_needed (w_db w)) = 0 ->
        ok = true /\ w' = w)
    /\ (ok = false -> w' = w)
    /\ (0 < snd (check_if_cover_letter_needed (w_db w)) ->
        exists job,
          In job (jobs (w_db w))
          /\ has_no_cover_letter (cover_letters (w_db w)) job = true
          /\ (forall job',
                In job' (jobs (w_db w)) ->
                has_no_cover_letter (cover_letters (w_db w)) job' = true ->
                leb (j_parsed_timestamp job') (j_parsed_timestamp job) = true)
          /\ (ok = false <->
              model_loads g = false
              \/ exists e, generated_text g (job_dict_of job) = Raise e)
          /\ (ok = true ->
              exists cl,
                cover_letters (w_db w') = cover_letters (w_db w) ++ [cl]
                /\ jobs (w_db w') = jobs (w_db w)
                /\ scraped_data (w_db w') = scraped_data (w_db w)
                /\ cl_job_id cl = Integer (j_id job)
                /\ cl_ai_provider cl = Text (u "trained_gpt2_smart")
                /\ cl_status cl = Text (u "generated")
                /\ S (snd (check_if_cover_letter_needed (w_db w')))
                   = snd (check_if_cover_letter_needed (w_db w)))).
Proof.
  intros Hk.
  assert (snd (check_if_cover_letter_needed (w_db w))
          = List.length
              (filter (has_no_cover_letter (cover_letters (w_db w)))
                 (jobs (w_db w)))) as Hcount.
  { unfold check_if_cover_letter_needed. cbn [snd].
    rewrite pending_jobs_are, length_map. reflexivity. }
  unfold smart_generate_cover_letter.
  unfold check_if_cover_letter_needed at 1.
  destruct (pending_jobs (w_db w)) as [|row rows] eqn:Ep.
  - (* nothing to do *)
    exists true, w. split; [reflexivity|]. split; [exact Hcount|].
    split; [auto|]. split; [discriminate|].
    unfold check_if_cover_letter_needed. rewrite Ep. cbn [snd List.length].
    lia.
  - rewrite <- Ep.
    assert (pending_jobs (w_db w) <> []) as Hne by (rewrite Ep; discriminate).
    assert (Nat.ltb 0 (List.length (pending_jobs (w_db w))) = true) as ->.
    { rewrite Ep. reflexivity. }
    cbn [negb].
    destruct (@latest_pending_job (w_db w) Hne) as [job [-> [Hin [Hno Hlatest]]]].
    assert (snd (check_if_cover_letter_needed (w_db w)) <> 0) as Hpos.
    { unfold check_if_cover_letter_needed. rewrite Ep. discriminate. }
    destruct (model_loads g) eqn:Eload; cbn [negb].
    2: { exists false, w. split; [reflexivity|]. split; [exact Hcount|].
         split; [intros H; contradiction|]. split; [reflexivity|].
         intros _. exists job. split; [exact Hin|]. split; [exact Hno|].
         split; [exact Hlatest|].
         split; [split; auto | discriminate]. }
    unfold generate_cover_letter.
    destruct (generated_text g (job_dict_of job)) as [text|e] eqn:Eg.
    2: { exists false, w. split; [reflexivity|]. split; [exact Hcount|].
         split; [intros H; contradiction|]. split; [reflexivity|].
         intros _. exists job. split; [exact Hin|]. split; [exact Hno|].
         split; [exact Hlatest|].
         split; [split; [intros _; right; exists e; exact Eg | reflexivity]|].
         discriminate. }
    set (letter := clean_text _ _).
    assert (str_eqb letter [] = false) as ->.
    { apply str_eqb_nil, clean_text_not_empty. }
    unfold add_cover_letter, mbind, lift, current_timestamp, get_db, put_db,
      ret.
    rewrite !bind_param_str. cbn [sql_int is_null orb job_dict_of sj_id].
    do 2 eexists. split; [reflexivity|]. split; [exact Hcount|].
    split; [intros H; contradiction|]. split; [discriminate|].
    intros _. exists job. split; [exact Hin|]. split; [exact Hno|].
    split; [exact Hlatest|].
    split.
    { split; [discriminate|].
      intros [H|[e H]]; [discriminate H | congruence]. }
    intros _. eexists. cbn [w_db cover_letters jobs scraped_data].
    split; [reflexivity|]. split; [reflexivity|]. split; [reflexivity|].
    split; [reflexivity|]. split; [reflexivity|]. split; [reflexivity|].
    rewrite Hcount. unfold check_if_cover_letter_needed. cbn [snd].
    rewrite pending_jobs_are, length_map.
    cbn [cover_letters jobs].
    rewrite (filter_ext _
               (fun j => has_no_cover_letter (cover_letters (w_db w)) j
                         && negb (Z.eqb (j_id j) (j_id job)))).
    2: { intros j. apply has_no_cover_letter_after. reflexivity. }
    rewrite <- (@one_job_less
                  (filter (has_no_cover_letter (cover_letters (w_db w)))
                     (jobs (w_db w))) job).
    + f_equal. f_equal. clear.
      induction (jobs (w_db w)) as [|j js IH]; [reflexivity|].
      cbn [filter].
      destruct (has_no_cover_letter (cover_letters (w_db w)) j);
        cbn [andb filter]; [|exact IH].
      destruct (negb (Z.eqb (j_id j) (j_id job))); [f_equal|]; exact IH.
    + apply NoDup_ids_filter, Hk.
    + apply filter_In. tauto.
Qed.

Lemma smart_generate_cover_letter_makes_progress_example :
  exists (ok : bool) (w' : world),
    smart_generate_cover_letter
      (generator_of_text (u "I have built scrapers for years"))
      world_with_job_a
    = (ok, w')
    /\ snd (check_if_cover_letter_needed (w_db world_with_job_a))
       = List.length
           (filter (has_no_cover_letter (cover_letters (w_db world_with_job_a)))
              (jobs (w_db world_with_job_a)))
    /\ (snd (check_if_cover_letter_needed (w_db world_with_job_a)) = 0 ->
        ok = true /\ w' = world_with_job_a)
    /\ (ok = false -> w' = world_with_job_a)
    /\ (0 < snd (check_if_cover_letter_needed (w_db world_with_job_a)) ->
        exists job,
          In job (jobs (w_db world_with_job_a))
          /\ has_no_cover_letter (cover_letters (w_db world_with_job_a)) job
             = true
          /\ (forall job',
                In job' (jobs (w_db world_with_job_a)) ->
                has_no_cover_letter (cover_letters (w_db world_with_job_a))
                  job' = true ->
                leb (j_parsed_timestamp job') (j_parsed_timestamp job) = true)
          /\ (ok = false <->
              model_loads
                (generator_of_text (u "I have built scrapers for years"))
              = false
              \/ exists e,
                   generated_text
                     (generator_of_text (u "I have built scrapers for years"))
                     (job_dict_of job)
                   = Raise e)
          /\ (ok = true ->
              exists cl,
                cover_letters (w_db w')
                = cover_letters (w_db world_with_job_a) ++ [cl]
                /\ jobs (w_db w') = jobs (w_db world_with_job_a)
                /\ scraped_data (w_db w')
                   = scraped_data (w_db world_with_job_a)
                /\ cl_job_id cl = Integer (j_id job)
                /\ cl_ai_provider cl = Text (u "trained_gpt2_smart")
                /\ cl_status cl = Text (u "generated")
                /\ S (snd (check_if_cover_letter_needed (w_db w')))
                   = snd (check_if_cover_letter_needed
                            (w_db world_with_job_a)))).
Proof.
  apply (@smart_generate_cover_letter_makes_progress
           (generator_of_text (u "I have built scrapers for years"))
           world_with_job_a).
  vm_compute. constructor; [intros [] | constructor].
Defined.

End SmartProps.
